(** * huidi-led: the protocol engine of the Huidu LED controller client

    A shallow embedding of the Go package [huidu] (packet builders and
    parsers, the SDK fragment assembler, the handshake, the heartbeat loop
    and the file upload) together with the properties its specification
    states about them.

    Conventions.
    - A Go [[]byte] or [string] is a [list Z] of byte values (0..255).
    - A Go [int] that holds a length or an index is a [nat]; a value that
      goes on the wire ([uint16], [uint32], [CmdType], [ErrorCode]) is a [Z],
      with the wrap-around of the Go conversion written out.
    - [binary.LittleEndian] is written with [Z.land], [Z.shiftr], [Z.lor]
      and [Z.shiftl] as in [encoding/binary]. *)

From Stdlib Require Import String Ascii.
From Stdlib Require Import ZArith List Lia Bool Arith Sorted.
Import ListNotations.

Local Open Scope string_scope.
Local Open Scope list_scope.
Local Open Scope Z_scope.

(** ** Bytes and Go slices *)

Definition bytes := list Z.

(** The bytes of a string literal. *)
Definition str (s : string) : bytes :=
  map (fun c => Z.of_N (N_of_ascii c)) (list_ascii_of_string s).

(** The double quote, which Go source writes inside back-quoted literals. *)
Definition dq : bytes := [34].

Definition byte_eqb (a b : Z) : bool := Z.eqb a b.

Fixpoint bytes_eqb (a b : bytes) : bool :=
  match a, b with
  | [], [] => true
  | x :: a', y :: b' => Z.eqb x y && bytes_eqb a' b'
  | _, _ => false
  end.

(** [make([]byte, n)]: [n] zero bytes. *)
Definition make (n : nat) : bytes := repeat 0 n.

(** [s[lo:hi]] for [lo <= hi <= len(s)] (Go panics otherwise; the callers
    below check the bounds before they slice). *)
Definition slice (s : bytes) (lo hi : nat) : bytes := firstn (hi - lo) (skipn lo s).

(** [copy(dst[lo:hi], src)]: Go copies [min(hi-lo, len(src))] bytes and
    leaves the rest of [dst] as it is. *)
Definition copyInto (dst : bytes) (lo hi : nat) (src : bytes) : bytes :=
  let n := Nat.min (hi - lo) (length src) in
  firstn lo dst ++ firstn n src ++ skipn (lo + n) dst.

(** ** Integer conversions and [binary.LittleEndian] *)

Definition uint16 (n : Z) : Z := n mod 2 ^ 16.
Definition uint32 (n : Z) : Z := n mod 2 ^ 32.

(** [PutUint16(b, v)]: [b[0] = byte(v); b[1] = byte(v >> 8)]. *)
Definition putUint16 (v : Z) : bytes :=
  [Z.land v 255; Z.land (Z.shiftr v 8) 255].

Definition putUint32 (v : Z) : bytes :=
  [Z.land v 255; Z.land (Z.shiftr v 8) 255;
   Z.land (Z.shiftr v 16) 255; Z.land (Z.shiftr v 24) 255].

(** [Uint16(b)]: [uint16(b[0]) | uint16(b[1])<<8]. *)
Definition getUint16 (b : bytes) : Z :=
  Z.lor (nth 0 b 0) (Z.shiftl (nth 1 b 0) 8).

Definition getUint32 (b : bytes) : Z :=
  Z.lor (Z.lor (Z.lor (nth 0 b 0) (Z.shiftl (nth 1 b 0) 8))
               (Z.shiftl (nth 2 b 0) 16))
        (Z.shiftl (nth 3 b 0) 24).

(** ** Protocol constants *)

Definition MaxContentLength : nat := Z.to_nat 8000.
Definition tcpHeaderLength : nat := 4.
Definition sdkCmdHeaderLength : nat := 12.
Definition transportVersion : Z := 0x1000005.
Definition sdkVersion : Z := 0x1000000.

Definition CmdHeartbeatAsk : Z := 0x005f.
Definition CmdHeartbeatAnswer : Z := 0x0060.
Definition CmdErrorAnswer : Z := 0x2000.
Definition CmdServiceAsk : Z := 0x2001.
Definition CmdServiceAnswer : Z := 0x2002.
Definition CmdSdkCmdAsk : Z := 0x2003.
Definition CmdSdkCmdAnswer : Z := 0x2004.
Definition CmdFileStartAsk : Z := 0x8001.
Definition CmdFileStartAnswer : Z := 0x8002.
Definition CmdFileContentAsk : Z := 0x8003.
Definition CmdFileEndAsk : Z := 0x8005.
Definition CmdFileEndAnswer : Z := 0x8006.

Definition ErrSuccess : Z := 0.
Definition ErrWriteFinish : Z := 1.

Definition FileTypeAuto : Z := -1.

(** ** Packet builders *)

Definition buildVersionPacket : bytes :=
  let pkt := make 8 in
  let pkt := copyInto pkt 0 2 (putUint16 8) in
  let pkt := copyInto pkt 2 4 (putUint16 (uint16 CmdServiceAsk)) in
  copyInto pkt 4 8 (putUint32 transportVersion).

Definition buildHeartbeat : bytes :=
  let pkt := make 4 in
  let pkt := copyInto pkt 0 2 (putUint16 4) in
  copyInto pkt 2 4 (putUint16 (uint16 CmdHeartbeatAsk)).

(** One iteration of the loop of [buildSdkCmdPackets]: the packet for the
    chunk that starts at [offset]. *)
Definition sdkCmdChunkSize (totalLen offset : nat) : nat :=
  let chunkSize := (totalLen - offset)%nat in
  if (MaxContentLength <? chunkSize)%nat then MaxContentLength else chunkSize.

Definition buildSdkCmdPacket (xmlData : bytes) (offset : nat) : bytes :=
  let totalLen := length xmlData in
  let chunkSize := sdkCmdChunkSize totalLen offset in
  let pktLen := (sdkCmdHeaderLength + chunkSize)%nat in
  let pkt := make pktLen in
  let pkt := copyInto pkt 0 2 (putUint16 (uint16 (Z.of_nat pktLen))) in
  let pkt := copyInto pkt 2 4 (putUint16 (uint16 CmdSdkCmdAsk)) in
  let pkt := copyInto pkt 4 8 (putUint32 (uint32 (Z.of_nat totalLen))) in
  let pkt := copyInto pkt 8 12 (putUint32 (uint32 (Z.of_nat offset))) in
  copyInto pkt sdkCmdHeaderLength pktLen
           (slice xmlData offset (offset + chunkSize)).

(** The loop [for offset < totalLen]. Every iteration advances [offset] by
    at least one byte, so [fuel = totalLen] iterations are enough
    ([sdkCmdLoop_offsets] below shows that the loop ends by its own test). *)
Fixpoint sdkCmdLoop (fuel : nat) (xmlData : bytes) (offset : nat)
         (packets : list bytes) : list bytes :=
  match fuel with
  | O => packets
  | S fuel' =>
      if (offset <? length xmlData)%nat then
        let chunkSize := sdkCmdChunkSize (length xmlData) offset in
        sdkCmdLoop fuel' xmlData (offset + chunkSize)
                   (packets ++ [buildSdkCmdPacket xmlData offset])
      else packets
  end.

Definition buildSdkCmdPackets (xmlData : bytes) : list bytes :=
  let totalLen := length xmlData in
  if (totalLen =? 0)%nat then []
  else sdkCmdLoop totalLen xmlData 0 [].

(** [parseSdkCmdHeader]: [(totalLen, xmlOffset, ok)], [None] for [ok = false]. *)
Definition parseSdkCmdHeader (data : bytes) : option (Z * Z) :=
  if (length data <? sdkCmdHeaderLength)%nat then None
  else Some (getUint32 (slice data 4 8), getUint32 (slice data 8 12)).

Definition parsePacketHeader (data : bytes) : option (Z * Z) :=
  if (length data <? tcpHeaderLength)%nat then None
  else Some (getUint16 (slice data 0 2), getUint16 (slice data 2 4)).

Definition parseVersionResponse (data : bytes) : option Z :=
  if (length data <? 8)%nat then None
  else Some (getUint32 (slice data 4 8)).

Definition parseErrorCode (data : bytes) : option Z :=
  if (length data <? 6)%nat then None
  else Some (getUint16 (slice data 4 6)).

(** ** Fragments of one request

    [sdkFragments xmlData offset frames]: the frames are SDK command
    fragments whose chunks are, in order, the non-empty pieces of at most
    [MaxContentLength] bytes of [xmlData] from [offset] to its end: each
    chunk starts where the one before ended, and the last one ends at
    [len(xmlData)]. Each frame is its 12-byte header followed by its chunk. *)
Definition sdkFrame (cmd : Z) (totalLen offset : nat) (chunk : bytes) : bytes :=
  putUint16 (Z.of_nat (sdkCmdHeaderLength + length chunk)) ++ putUint16 cmd ++
  putUint32 (uint32 (Z.of_nat totalLen)) ++ putUint32 (uint32 (Z.of_nat offset)) ++
  chunk.

Fixpoint sdkFragments (xmlData : bytes) (offset : nat) (frames : list bytes) : Prop :=
  match frames with
  | [] => offset = length xmlData
  | f :: rest =>
      exists chunk,
        f = sdkFrame CmdSdkCmdAsk (length xmlData) offset chunk /\
        (1 <= length chunk <= MaxContentLength)%nat /\
        chunk = slice xmlData offset (offset + length chunk) /\
        (offset + length chunk <= length xmlData)%nat /\
        sdkFragments xmlData (offset + length chunk) rest
  end.

(** The XML chunk of a fragment frame: [data[sdkCmdHeaderLength:]]. *)
Definition sdkChunk (frame : bytes) : bytes := skipn sdkCmdHeaderLength frame.

(** ** UTF-8 ([unicode/utf8]) *)

Definition RuneError : Z := 0xFFFD.

(** The table [first] of [unicode/utf8] for a lead byte [>= 0x80]:
    [(size, lo, hi)] with [lo..hi] the accepted range of the second byte,
    [None] for a byte that cannot start a rune. *)
Definition utf8First (p0 : Z) : option (nat * Z * Z) :=
  if p0 <? 0xC2 then None
  else if p0 <=? 0xDF then Some (2%nat, 0x80, 0xBF)
  else if p0 =? 0xE0 then Some (3%nat, 0xA0, 0xBF)
  else if p0 <=? 0xEC then Some (3%nat, 0x80, 0xBF)
  else if p0 =? 0xED then Some (3%nat, 0x80, 0x9F)
  else if p0 <=? 0xEF then Some (3%nat, 0x80, 0xBF)
  else if p0 =? 0xF0 then Some (4%nat, 0x90, 0xBF)
  else if p0 <=? 0xF3 then Some (4%nat, 0x80, 0xBF)
  else if p0 =? 0xF4 then Some (4%nat, 0x80, 0x8F)
  else None.

Definition isContinuation (b : Z) : bool := (0x80 <=? b) && (b <=? 0xBF).

(** [utf8.DecodeRune]: the first rune of [p] and its width in bytes; an
    invalid encoding is [(RuneError, 1)], the empty input [(RuneError, 0)]. *)
Definition decodeRune (p : bytes) : Z * nat :=
  match p with
  | [] => (RuneError, 0%nat)
  | p0 :: _ =>
      if p0 <? 0x80 then (p0, 1%nat)
      else
        match utf8First p0 with
        | None => (RuneError, 1%nat)
        | Some (sz, lo, hi) =>
            if (length p <? sz)%nat then (RuneError, 1%nat)
            else
              let b1 := nth 1 p 0 in
              if (b1 <? lo) || (hi <? b1) then (RuneError, 1%nat)
              else if (sz <=? 2)%nat then
                (Z.lor (Z.shiftl (Z.land p0 0x1F) 6) (Z.land b1 0x3F), 2%nat)
              else
                let b2 := nth 2 p 0 in
                if negb (isContinuation b2) then (RuneError, 1%nat)
                else if (sz <=? 3)%nat then
                  (Z.lor (Z.lor (Z.shiftl (Z.land p0 0x0F) 12)
                                (Z.shiftl (Z.land b1 0x3F) 6))
                         (Z.land b2 0x3F), 3%nat)
                else
                  let b3 := nth 3 p 0 in
                  if negb (isContinuation b3) then (RuneError, 1%nat)
                  else
                    (Z.lor (Z.lor (Z.lor (Z.shiftl (Z.land p0 0x07) 18)
                                         (Z.shiftl (Z.land b1 0x3F) 12))
                                  (Z.shiftl (Z.land b2 0x3F) 6))
                           (Z.land b3 0x3F), 4%nat)
        end
  end.

(** [utf8.RuneStart]. *)
Definition runeStart (b : Z) : bool := negb (Z.land b 0xC0 =? 0x80).

(** The backward scan of [utf8.DecodeLastRune]:
    [for start--; start >= lim; start-- { if RuneStart(p[start]) { break } }]. *)
Fixpoint scanBack (fuel : nat) (p : bytes) (start lim : Z) : Z :=
  match fuel with
  | O => start
  | S fuel' =>
      if start <? lim then start
      else if runeStart (nth (Z.to_nat start) p 0) then start
      else scanBack fuel' p (start - 1) lim
  end.

(** [utf8.DecodeLastRune]. *)
Definition decodeLastRune (p : bytes) : Z * nat :=
  let e := Z.of_nat (length p) in
  if e =? 0 then (RuneError, 0%nat)
  else
    let r := nth (Z.to_nat (e - 1)) p 0 in
    if r <? 0x80 then (r, 1%nat)
    else
      let lim := Z.max 0 (e - 4) in
      let start := Z.max 0 (scanBack 4 p (e - 2) lim) in
      let '(r, size) := decodeRune (skipn (Z.to_nat start) p) in
      if start + Z.of_nat size =? e then (r, size) else (RuneError, 1%nat).

(** [unicode.IsSpace]. *)
Definition isSpace (r : Z) : bool :=
  (r =? 0x09) || (r =? 0x0A) || (r =? 0x0B) || (r =? 0x0C) || (r =? 0x0D) ||
  (r =? 0x20) || (r =? 0x85) || (r =? 0xA0) || (r =? 0x1680) ||
  ((0x2000 <=? r) && (r <=? 0x200A)) || (r =? 0x2028) || (r =? 0x2029) ||
  (r =? 0x202F) || (r =? 0x205F) || (r =? 0x3000).

(** ** [strings.TrimSpace], [strings.Index]

    [TrimSpace] removes all leading and all trailing white space as Unicode
    defines it, the leading runs first ([TrimLeftFunc], decoding forwards)
    and then the trailing ones ([TrimRightFunc], decoding backwards); its
    ASCII fast path computes the same slice. *)
Fixpoint trimLeftSpace (fuel : nat) (s : bytes) : bytes :=
  match fuel with
  | O => s
  | S fuel' =>
      match s with
      | [] => []
      | _ :: _ =>
          let '(r, width) := decodeRune s in
          if isSpace r then trimLeftSpace fuel' (skipn width s) else s
      end
  end.

Fixpoint trimRightSpace (fuel : nat) (s : bytes) : bytes :=
  match fuel with
  | O => s
  | S fuel' =>
      match s with
      | [] => []
      | _ :: _ =>
          let '(r, size) := decodeLastRune s in
          if isSpace r then trimRightSpace fuel' (firstn (length s - size) s) else s
      end
  end.

Definition TrimSpace (s : bytes) : bytes :=
  let l := trimLeftSpace (length s) s in
  trimRightSpace (length l) l.

Fixpoint hasPrefix (s prefix : bytes) {struct prefix} : bool :=
  match prefix, s with
  | [], _ => true
  | p :: prefix', c :: s' => (c =? p) && hasPrefix s' prefix'
  | _ :: _, [] => false
  end.

(** [strings.Index(s, substr)], [None] for [-1]. *)
Fixpoint index (s substr : bytes) : option nat :=
  if hasPrefix s substr then Some 0%nat
  else
    match s with
    | [] => None
    | _ :: s' => option_map S (index s' substr)
    end.

(** ** XML text helpers (xml.go) *)

(** [cleanXML]: drop a leading UTF-8 byte order mark, then [TrimSpace]. *)
Definition cleanXML (data : bytes) : bytes :=
  let data :=
    if (3 <=? length data)%nat && (nth 0 data 0 =? 0xEF) &&
       (nth 1 data 0 =? 0xBB) && (nth 2 data 0 =? 0xBF)
    then skipn 3 data else data in
  TrimSpace data.

(** [isInCharacterRange] of [encoding/xml]. *)
Definition isInCharacterRange (r : Z) : bool :=
  (r =? 0x09) || (r =? 0x0A) || (r =? 0x0D) ||
  ((0x20 <=? r) && (r <=? 0xD7FF)) ||
  ((0xE000 <=? r) && (r <=? 0xFFFD)) ||
  ((0x10000 <=? r) && (r <=? 0x10FFFF)).

(** The replacement [xml.EscapeText] writes for a rune, [None] when the
    rune is copied as it is. *)
Definition escapeFor (r : Z) (width : nat) : option bytes :=
  if r =? 34 then Some (str "&#34;")
  else if r =? 39 then Some (str "&#39;")
  else if r =? 38 then Some (str "&amp;")
  else if r =? 60 then Some (str "&lt;")
  else if r =? 62 then Some (str "&gt;")
  else if r =? 9 then Some (str "&#x9;")
  else if r =? 10 then Some (str "&#xA;")
  else if r =? 13 then Some (str "&#xD;")
  else if negb (isInCharacterRange r) || ((r =? RuneError) && (width =? 1)%nat)
       then Some [0xEF; 0xBF; 0xBD]
  else None.

(** [xml.EscapeText], rune by rune: the source keeps the index [last] of
    the first byte not yet written and writes each unescaped stretch in one
    piece; the bytes written are the same. *)
Fixpoint escapeText (fuel : nat) (s : bytes) : bytes :=
  match fuel with
  | O => []
  | S fuel' =>
      match s with
      | [] => []
      | _ :: _ =>
          let '(r, width) := decodeRune s in
          match escapeFor r width with
          | Some esc => esc ++ escapeText fuel' (skipn width s)
          | None => firstn width s ++ escapeText fuel' (skipn width s)
          end
      end
  end.

(** [xmlEscape]: writing to a [bytes.Buffer] never fails, so the fallback
    [return s] of the source is dead. *)
Definition xmlEscape (s : bytes) : bytes := escapeText (length s) s.

Definition crlf : bytes := [13; 10].

(** [buildSdkXML(guid, method, innerXML)]. *)
Definition buildSdkXML (guid method innerXML : bytes) : bytes :=
  str "<?xml version=" ++ dq ++ str "1.0" ++ dq ++ str " encoding=" ++ dq ++
  str "utf-8" ++ dq ++ str "?>" ++
  crlf ++
  (str "<sdk guid=" ++ dq ++ xmlEscape guid ++ dq ++ str ">") ++
  (crlf ++ str "  ") ++
  (str "<in method=" ++ dq ++ method ++ dq ++ str ">") ++
  (match innerXML with
   | [] => []
   | _ :: _ => (crlf ++ str "    ") ++ innerXML ++ (crlf ++ str "  ")
   end) ++
  str "</in>" ++
  crlf ++
  str "</sdk>".

Definition hexDigit (d : Z) : Z := if d <? 10 then 48 + d else 87 + d.

Fixpoint hexLoop (fuel : nat) (n : Z) (acc : bytes) : bytes :=
  match fuel with
  | O => acc
  | S fuel' =>
      let acc' := hexDigit (n mod 16) :: acc in
      if n / 16 =? 0 then acc' else hexLoop fuel' (n / 16) acc'
  end.

(** [fmt.Sprintf] with the verb [%x], for a [uint32]. *)
Definition sprintfHex (v : Z) : bytes := hexLoop 8 v [].

Definition MethodGetIFVersion : bytes := str "GetIFVersion".
Definition MethodGetDeviceInfo : bytes := str "GetDeviceInfo".

Definition placeholderGUID : bytes := str "##GUID".

Definition buildVersionXML : bytes :=
  let versionHex := sprintfHex sdkVersion in
  let inner := str "<version value=" ++ dq ++ versionHex ++ dq ++ str "/>" in
  buildSdkXML placeholderGUID MethodGetIFVersion inner.

(** [extractGUID]: the text between the first occurrence of [guid=] followed
    by a double quote, and the next double quote. *)
Definition extractGUID (xmlData : bytes) : bytes :=
  match index xmlData (str "guid=" ++ dq) with
  | None => []
  | Some idx =>
      let start := (idx + 6)%nat in
      match index (skipn start xmlData) dq with
      | None => []
      | Some e => slice xmlData start (start + e)
      end
  end.

(** ** The Go runtime the package calls into

    [encoding/xml], [fmt.Sscanf], [crypto/md5] and [path/filepath] belong to
    the Go standard library. The package only consumes the tokens of the
    XML decoder, so the decoder is taken as the function that gives, for an
    input, the tokens [Decoder.Token] returns before its first error (end
    of input or a syntax error; the error is sticky, so the token loops of
    the package end there). Every definition and theorem below holds for
    any such runtime. *)

Inductive Token : Type :=
| StartElement (local : bytes) (attrs : list (bytes * bytes))
| EndElement (local : bytes)
| CharData (data : bytes)
| OtherToken.  (* Comment, ProcInst, Directive *)

Class GoRuntime : Type := {
  (** the tokens of [xml.NewDecoder(strings.NewReader(s))] up to its first error *)
  xmlTokens : bytes -> list Token;
  (** [fmt.Sscanf] of [s] with the verb [%d] into [v]: the integer stored in
      [v], [None] when the scan fails and [v] keeps its value *)
  sscanfInt : bytes -> option Z;
  (** [hex.EncodeToString] of the MD5 digest *)
  md5Hex : bytes -> bytes;
  (** [detectFileType] (file.go), a table lookup on the file extension *)
  detectFileType : bytes -> Z
}.

(** ** SDK responses (xml.go) *)

Record SdkResponse : Type := mkSdkResponse {
  GUID : bytes;
  Method : bytes;
  Result : bytes;
  InnerXML : bytes;
  RawXML : bytes
}.

Definition IsSuccess (r : SdkResponse) : bool := bytes_eqb (Result r) (str "kSuccess").

Definition setGUID (v : bytes) (r : SdkResponse) : SdkResponse :=
  mkSdkResponse v (Method r) (Result r) (InnerXML r) (RawXML r).
Definition setMethod (v : bytes) (r : SdkResponse) : SdkResponse :=
  mkSdkResponse (GUID r) v (Result r) (InnerXML r) (RawXML r).
Definition setResult (v : bytes) (r : SdkResponse) : SdkResponse :=
  mkSdkResponse (GUID r) (Method r) v (InnerXML r) (RawXML r).
Definition setInnerXML (v : bytes) (r : SdkResponse) : SdkResponse :=
  mkSdkResponse (GUID r) (Method r) (Result r) v (RawXML r).

(** The attribute loop of the [sdk] start element. *)
Definition sdkAttrs (attrs : list (bytes * bytes)) (resp : SdkResponse) : SdkResponse :=
  fold_left (fun r a => if bytes_eqb (fst a) (str "guid") then setGUID (snd a) r else r)
            attrs resp.

(** The attribute loop of the [out] start element. *)
Definition outAttrs (attrs : list (bytes * bytes)) (resp : SdkResponse) : SdkResponse :=
  fold_left (fun r a =>
               if bytes_eqb (fst a) (str "method") then setMethod (snd a) r
               else if bytes_eqb (fst a) (str "result") then setResult (snd a) r
               else r)
            attrs resp.

(** What the inner loop writes for a start element. *)
Definition innerStartTag (local : bytes) (attrs : list (bytes * bytes)) : bytes :=
  str "<" ++ local ++
  concat (map (fun a => str " " ++ fst a ++ str "=" ++ dq ++ xmlEscape (snd a) ++ dq) attrs) ++
  str ">".

(** The two token loops of [parseSdkResponse] as one pass over the tokens:
    [inner = None] is the outer loop, [inner = Some (depth, innerBuf)] the
    loop that collects the content of an [out] element. When the tokens run
    out inside the inner loop it breaks, [InnerXML] is set, and the outer
    loop breaks on the same error. *)
Fixpoint parseTokens (toks : list Token) (inner : option (nat * bytes))
         (resp : SdkResponse) : SdkResponse :=
  match toks with
  | [] =>
      match inner with
      | None => resp
      | Some (_, innerBuf) => setInnerXML (TrimSpace innerBuf) resp
      end
  | tok :: rest =>
      match inner with
      | None =>
          match tok with
          | StartElement local attrs =>
              if bytes_eqb local (str "sdk") then
                parseTokens rest None (sdkAttrs attrs resp)
              else if bytes_eqb local (str "out") then
                parseTokens rest (Some (1%nat, [])) (outAttrs attrs resp)
              else parseTokens rest None resp
          | _ => parseTokens rest None resp
          end
      | Some (depth, innerBuf) =>
          match tok with
          | StartElement local attrs =>
              parseTokens rest (Some (S depth, innerBuf ++ innerStartTag local attrs)) resp
          | EndElement local =>
              match (depth - 1)%nat with
              | O => parseTokens rest None (setInnerXML (TrimSpace innerBuf) resp)
              | S d =>
                  parseTokens rest (Some (S d, innerBuf ++ str "</" ++ local ++ str ">")) resp
              end
          | CharData data => parseTokens rest (Some (depth, innerBuf ++ data)) resp
          | OtherToken => parseTokens rest (Some (depth, innerBuf)) resp
          end
      end
  end.

(** The fields collected from the tokens of [rawXML]. *)
Definition scanSdkResponse `{GoRuntime} (rawXML : bytes) : SdkResponse :=
  parseTokens (xmlTokens rawXML) None (mkSdkResponse [] [] [] [] rawXML).

(** [parseSdkResponse]: [None] is the error return. *)
Definition parseSdkResponse `{GoRuntime} (rawXML : bytes) : option SdkResponse :=
  let resp := scanSdkResponse rawXML in
  match GUID resp, Method resp with
  | [], [] => None
  | _, _ => Some resp
  end.

Record DeviceInfo : Type := mkDeviceInfo {
  CPU : bytes; Model : bytes; DeviceID : bytes; DeviceName : bytes;
  FPGAVersion : bytes; AppVersion : bytes; KernelVersion : bytes;
  ScreenWidth : Z; ScreenHeight : Z; ScreenRotation : Z
}.

Definition scanInt `{GoRuntime} (s : bytes) (old : Z) : Z :=
  match sscanfInt s with Some v => v | None => old end.

Definition deviceInfoAttr `{GoRuntime} (local : bytes) (i : DeviceInfo) (a : bytes * bytes)
  : DeviceInfo :=
  let '(k, v) := a in
  let key n := bytes_eqb k (str n) in
  if bytes_eqb local (str "device") then
    if key "cpu" then
      mkDeviceInfo v (Model i) (DeviceID i) (DeviceName i) (FPGAVersion i)
                   (AppVersion i) (KernelVersion i) (ScreenWidth i) (ScreenHeight i)
                   (ScreenRotation i)
    else if key "model" then
      mkDeviceInfo (CPU i) v (DeviceID i) (DeviceName i) (FPGAVersion i)
                   (AppVersion i) (KernelVersion i) (ScreenWidth i) (ScreenHeight i)
                   (ScreenRotation i)
    else if key "id" then
      mkDeviceInfo (CPU i) (Model i) v (DeviceName i) (FPGAVersion i)
                   (AppVersion i) (KernelVersion i) (ScreenWidth i) (ScreenHeight i)
                   (ScreenRotation i)
    else if key "name" then
      mkDeviceInfo (CPU i) (Model i) (DeviceID i) v (FPGAVersion i)
                   (AppVersion i) (KernelVersion i) (ScreenWidth i) (ScreenHeight i)
                   (ScreenRotation i)
    else i
  else if bytes_eqb local (str "version") then
    if key "fpga" then
      mkDeviceInfo (CPU i) (Model i) (DeviceID i) (DeviceName i) v
                   (AppVersion i) (KernelVersion i) (ScreenWidth i) (ScreenHeight i)
                   (ScreenRotation i)
    else if key "app" then
      mkDeviceInfo (CPU i) (Model i) (DeviceID i) (DeviceName i) (FPGAVersion i)
                   v (KernelVersion i) (ScreenWidth i) (ScreenHeight i)
                   (ScreenRotation i)
    else if key "kernel" then
      mkDeviceInfo (CPU i) (Model i) (DeviceID i) (DeviceName i) (FPGAVersion i)
                   (AppVersion i) v (ScreenWidth i) (ScreenHeight i)
                   (ScreenRotation i)
    else i
  else if bytes_eqb local (str "screen") then
    if key "width" then
      mkDeviceInfo (CPU i) (Model i) (DeviceID i) (DeviceName i) (FPGAVersion i)
                   (AppVersion i) (KernelVersion i) (scanInt v (ScreenWidth i))
                   (ScreenHeight i) (ScreenRotation i)
    else if key "height" then
      mkDeviceInfo (CPU i) (Model i) (DeviceID i) (DeviceName i) (FPGAVersion i)
                   (AppVersion i) (KernelVersion i) (ScreenWidth i)
                   (scanInt v (ScreenHeight i)) (ScreenRotation i)
    else if key "rotation" then
      mkDeviceInfo (CPU i) (Model i) (DeviceID i) (DeviceName i) (FPGAVersion i)
                   (AppVersion i) (KernelVersion i) (ScreenWidth i) (ScreenHeight i)
                   (scanInt v (ScreenRotation i))
    else i
  else i.

(** [parseDeviceInfoXML]; its error result is always [nil]. *)
Definition parseDeviceInfoXML `{GoRuntime} (innerXML : bytes) : DeviceInfo :=
  fold_left (fun i tok =>
               match tok with
               | StartElement local attrs => fold_left (deviceInfoAttr local) attrs i
               | _ => i
               end)
            (xmlTokens innerXML)
            (mkDeviceInfo [] [] [] [] [] [] [] 0 0 0).

(** ** Errors, the device and its surroundings *)

(** The places where the source wraps an error with [%w]. *)
Inductive wrapSite : Type :=
| WrapDial            (* TCP connection error *)
| WrapVersion         (* Connect, phase 1 *)
| WrapSdkVersion      (* Connect, phase 2 *)
| WrapVersionSend
| WrapVersionRead
| WrapSdkCmdSend
| WrapReadLength
| WrapReadData
| WrapFileStartSend
| WrapFileStartRead
| WrapFileContentSend
| WrapFileEndSend
| WrapFileEndRead.

Inductive error : Type :=
| ErrConnClosed                       (* sendRaw, readPacket: d.conn == nil *)
| ErrIO                               (* an error of the socket: timeout, EOF, broken pipe *)
| ErrNotConnected                     (* ensureConnected *)
| ErrInvalidPacketLength (pktLen : Z)
| ErrSdkHeader                        (* parseSdkCmdHeader failed *)
| ErrSdkAnswer (code : option Z)      (* CmdErrorAnswer while reading an SDK response *)
| ErrUnexpectedCmd (cmd : Z)
| ErrInvalidSdkXml                    (* parseSdkResponse: no GUID and no method *)
| ErrVersionParse
| ErrDeviceAnswer (code : option Z)   (* CmdErrorAnswer in phase 1 *)
| ErrNotSuccess (result : bytes)      (* GetDeviceInfo: result is not kSuccess *)
| ErrFileStartParse
| ErrFileStart (code : Z)
| ErrFileEndParse
| ErrFileEnd (code : Z)
| ErrWrap (site : wrapSite) (cause : error).

(** A call returns a value, returns a Go [error], or panics. *)
Inductive outcome (A : Type) : Type :=
| Ok (a : A)
| Err (e : error)
| Panic.
Arguments Ok {A} a.
Arguments Err {A} e.
Arguments Panic {A}.

(** One TCP connection as the client sees it: the bytes the peer still
    delivers, the number of writes that still succeed (a broken pipe or a
    deadline ends them), and whether [Close] was called on it. Reading
    past the delivered bytes fails, as a read that meets EOF or its
    deadline does. *)
Record Conn : Type := mkConn {
  rx : bytes;
  wleft : nat;
  cclosed : bool
}.

(** The fields of [Device] that the protocol engine reads or writes
    ([host], [port], the timeouts and the two mutexes are left out; a
    channel is its identity). *)
Record Device : Type := mkDevice {
  conn : option Conn;
  sdkGUID : bytes;
  connected : bool;
  stopHeartbeat : option nat;
  info : option DeviceInfo;
  hasLogger : bool;      (* opts.logger != nil *)
  hasOnProgress : bool   (* opts.onProgress != nil *)
}.

Inductive LogMsg : Type :=
| LogDialing
| LogPhase1
| LogPhase2
| LogPhase3
| LogDeviceInfoWarning (e : error)
| LogConnected (guid : bytes)
| LogTransportVersion (ver : Z)
| LogSdkGUID (guid : bytes)
| LogDevice (i : DeviceInfo)
| LogHeartbeatAnswer
| LogHeartbeatFailed (e : error)
| LogHeartbeatSent
| LogUploadStart (name : bytes) (size : nat)
| LogUploadDone (name : bytes) (size : nat).

(** The device together with what surrounds it: every frame written to a
    socket, in order; the log lines; the progress callbacks
    [(SentBytes, TotalBytes)] (the [float64] percentage is left out); the
    channels made and closed so far; the heartbeat goroutines started, each
    with nothing but the device pointer. *)
Record World : Type := mkWorld {
  dev : Device;
  wire : list bytes;
  logs : list LogMsg;
  progress : list (nat * nat);
  nextChan : nat;
  closedChans : list nat;
  hbStarted : nat
}.

Definition withDev (f : Device -> Device) (w : World) : World :=
  mkWorld (f (dev w)) (wire w) (logs w) (progress w) (nextChan w) (closedChans w)
          (hbStarted w).

Definition setConn (c : option Conn) (d : Device) : Device :=
  mkDevice c (sdkGUID d) (connected d) (stopHeartbeat d) (info d) (hasLogger d)
           (hasOnProgress d).
Definition setSdkGUID (g : bytes) (d : Device) : Device :=
  mkDevice (conn d) g (connected d) (stopHeartbeat d) (info d) (hasLogger d)
           (hasOnProgress d).
Definition setConnected (b : bool) (d : Device) : Device :=
  mkDevice (conn d) (sdkGUID d) b (stopHeartbeat d) (info d) (hasLogger d)
           (hasOnProgress d).
Definition setStopHeartbeat (c : option nat) (d : Device) : Device :=
  mkDevice (conn d) (sdkGUID d) (connected d) c (info d) (hasLogger d)
           (hasOnProgress d).
Definition setInfo (i : option DeviceInfo) (d : Device) : Device :=
  mkDevice (conn d) (sdkGUID d) (connected d) (stopHeartbeat d) i (hasLogger d)
           (hasOnProgress d).

(** ** A state and error monad for the methods of [Device] *)

Definition M (A : Type) : Type := World -> outcome A * World.

Definition ret {A} (a : A) : M A := fun w => (Ok a, w).
Definition fail {A} (e : error) : M A := fun w => (Err e, w).
Definition panic {A} : M A := fun w => (Panic, w).

Definition bind {A B} (c : M A) (k : A -> M B) : M B :=
  fun w =>
    match c w with
    | (Ok a, w') => k a w'
    | (Err e, w') => (Err e, w')
    | (Panic, w') => (Panic, w')
    end.

Notation "x <- c ;; k" := (bind c (fun x => k))
  (at level 61, c at next level, right associativity).
Notation "c ;;; k" := (bind c (fun _ => k))
  (at level 61, right associativity).

(** [if err := c; err != nil { return fmt.Errorf(..., err) }]. *)
Definition wrapErr {A} (site : wrapSite) (c : M A) : M A :=
  fun w =>
    match c w with
    | (Err e, w') => (Err (ErrWrap site e), w')
    | r => r
    end.

(** Run [c] and hand its error, if any, to the caller as a value. *)
Definition try {A} (c : M A) : M (option error * option A) :=
  fun w =>
    match c w with
    | (Ok a, w') => (Ok (None, Some a), w')
    | (Err e, w') => (Ok (Some e, None), w')
    | (Panic, w') => (Panic, w')
    end.

Definition getDev : M Device := fun w => (Ok (dev w), w).
Definition modifyDev (f : Device -> Device) : M unit := fun w => (Ok tt, withDev f w).

(** [d.logf]: a line is written only when a logger is configured. *)
Definition logf (m : LogMsg) : M unit :=
  fun w =>
    (Ok tt,
     if hasLogger (dev w)
     then mkWorld (dev w) (wire w) (logs w ++ [m]) (progress w) (nextChan w)
                  (closedChans w) (hbStarted w)
     else w).

(** ** Sending and receiving (device.go) *)

(** [sendRaw]: one [conn.Write] of the whole frame. *)
Definition sendRaw (data : bytes) : M unit :=
  fun w =>
    match conn (dev w) with
    | None => (Err ErrConnClosed, w)
    | Some c =>
        if cclosed c then (Err ErrIO, w)
        else
          match wleft c with
          | O => (Err ErrIO, w)
          | S n =>
              (Ok tt,
               mkWorld (setConn (Some (mkConn (rx c) n (cclosed c))) (dev w))
                       (wire w ++ [data]) (logs w) (progress w) (nextChan w)
                       (closedChans w) (hbStarted w))
          end
    end.

(** [sendSdkCmd]: the fragments of the request, one write each. *)
Fixpoint sendAll (packets : list bytes) : M unit :=
  match packets with
  | [] => ret tt
  | pkt :: rest => sendRaw pkt ;;; sendAll rest
  end.

Definition sendSdkCmd (xmlData : bytes) : M unit :=
  sendAll (buildSdkCmdPackets xmlData).

Definition setRx (c : Conn) (r : bytes) (w : World) : World :=
  withDev (setConn (Some (mkConn r (wleft c) (cclosed c)))) w.

(** [readPacket]: two bytes of length, then the rest of the frame. *)
Definition readPacket : M (bytes * Z) :=
  fun w =>
    match conn (dev w) with
    | None => (Err ErrConnClosed, w)
    | Some c =>
        if cclosed c then (Err (ErrWrap WrapReadLength ErrIO), w)
        else if (length (rx c) <? 2)%nat then
          (Err (ErrWrap WrapReadLength ErrIO), setRx c [] w)
        else
          let lenBuf := firstn 2 (rx c) in
          let rest := skipn 2 (rx c) in
          let pktLen := Z.to_nat (getUint16 lenBuf) in
          if (pktLen <? tcpHeaderLength)%nat then
            (Err (ErrInvalidPacketLength (getUint16 lenBuf)), setRx c rest w)
          else if (length rest <? pktLen - 2)%nat then
            (Err (ErrWrap WrapReadData ErrIO), setRx c [] w)
          else
            let pkt := copyInto (make pktLen) 0 2 lenBuf in
            let pkt := copyInto pkt 2 pktLen (firstn (pktLen - 2) rest) in
            let cmdType := getUint16 (slice pkt 2 4) in
            (Ok (pkt, cmdType), setRx c (skipn (pktLen - 2) rest) w)
    end.

(** *** The fragment assembler of [readSdkResponse]

    The state of the loop is the buffer ([None] while [xmlBuf == nil]) and
    [totalExpected]. *)
Inductive assembleStep : Type :=
| Continue (xmlBuf : option bytes) (totalExpected : Z)
| Complete (xmlBuf : bytes)
| Failed (e : error)
| SliceOutOfRange.   (* xmlBuf[offset:] with offset > len(xmlBuf) panics *)

(** The case [CmdSdkCmdAnswer] of the loop body, up to the call of
    [cleanXML]. *)
Definition sdkAnswerStep (xmlBuf : option bytes) (totalExpected : Z) (data : bytes)
  : assembleStep :=
  match parseSdkCmdHeader data with
  | None => Failed ErrSdkHeader
  | Some (totalLen, offset) =>
      let '(buf, totalExpected) :=
        match xmlBuf with
        | None => (make (Z.to_nat totalLen), totalLen)
        | Some buf => (buf, totalExpected)
        end in
      let xmlChunk := skipn sdkCmdHeaderLength data in
      if (length buf <? Z.to_nat offset)%nat then SliceOutOfRange
      else
        let buf := copyInto buf (Z.to_nat offset) (length buf) xmlChunk in
        if totalExpected <=? uint32 (offset + Z.of_nat (length xmlChunk))
        then Complete buf
        else Continue (Some buf) totalExpected
  end.

(** The loop of [readSdkResponse], up to the text it hands to
    [parseSdkResponse]. Each iteration reads a whole frame of at least
    four bytes, so the loop ends within [len(rx) + 1] iterations by an
    answer or by a failed read. *)
Fixpoint assembleLoop (fuel : nat) (xmlBuf : option bytes) (totalExpected : Z)
  : M bytes :=
  match fuel with
  | O => fail (ErrWrap WrapReadLength ErrIO)
  | S fuel' =>
      r <- readPacket ;;
      let '(data, cmdType) := r in
      if cmdType =? CmdSdkCmdAnswer then
        match sdkAnswerStep xmlBuf totalExpected data with
        | Continue xmlBuf' totalExpected' => assembleLoop fuel' xmlBuf' totalExpected'
        | Complete buf => ret (cleanXML buf)
        | Failed e => fail e
        | SliceOutOfRange => panic
        end
      else if cmdType =? CmdErrorAnswer then
        fail (ErrSdkAnswer (parseErrorCode data))
      else if cmdType =? CmdHeartbeatAnswer then
        logf LogHeartbeatAnswer ;;; assembleLoop fuel' xmlBuf totalExpected
      else fail (ErrUnexpectedCmd cmdType)
  end.

Definition rxLength (w : World) : nat :=
  match conn (dev w) with
  | None => 0%nat
  | Some c => length (rx c)
  end.

(** The reassembled and cleaned XML text of one response. *)
Definition assembleSdkXml : M bytes :=
  fun w => assembleLoop (S (rxLength w)) None 0 w.

Definition liftParse `{GoRuntime} (xmlStr : bytes) : M SdkResponse :=
  match parseSdkResponse xmlStr with
  | Some resp => ret resp
  | None => fail ErrInvalidSdkXml
  end.

(** [readSdkResponse]: [return parseSdkResponse(cleanXML(xmlBuf))] at the
    fragment that completes the buffer. *)
Definition readSdkResponse `{GoRuntime} : M SdkResponse :=
  xmlStr <- assembleSdkXml ;; liftParse xmlStr.

Definition sendSdkCmdAndReceive `{GoRuntime} (xmlData : bytes) : M SdkResponse :=
  wrapErr WrapSdkCmdSend (sendSdkCmd xmlData) ;;; readSdkResponse.

(** ** Handshake, [Connect] and [Close] (device.go) *)

Definition handshakeVersion : M unit :=
  wrapErr WrapVersionSend (sendRaw buildVersionPacket) ;;;
  r <- wrapErr WrapVersionRead readPacket ;;
  let '(data, cmdType) := r in
  if cmdType =? CmdServiceAnswer then
    match parseVersionResponse data with
    | None => fail ErrVersionParse
    | Some ver => logf (LogTransportVersion ver)
    end
  else if cmdType =? CmdErrorAnswer then
    fail (ErrDeviceAnswer (parseErrorCode data))
  else fail (ErrUnexpectedCmd cmdType).

(** [handshakeSdkVersion]; [uuid] is the value [uuid.New().String()] would
    give at this call. *)
Definition handshakeSdkVersion `{GoRuntime} (uuid : bytes) : M unit :=
  resp <- sendSdkCmdAndReceive buildVersionXML ;;
  modifyDev (setSdkGUID (GUID resp)) ;;;
  d <- getDev ;;
  (if bytes_eqb (sdkGUID d) [] || bytes_eqb (sdkGUID d) placeholderGUID
   then modifyDev (setSdkGUID uuid)
   else ret tt) ;;;
  d <- getDev ;;
  logf (LogSdkGUID (sdkGUID d)).

Definition handshakeDeviceInfo `{GoRuntime} : M unit :=
  d <- getDev ;;
  let xmlData := buildSdkXML (sdkGUID d) MethodGetDeviceInfo [] in
  resp <- sendSdkCmdAndReceive xmlData ;;
  if negb (IsSuccess resp) then fail (ErrNotSuccess (Result resp))
  else
    let i := parseDeviceInfoXML (InnerXML resp) in
    modifyDev (setInfo (Some i)) ;;;
    logf (LogDevice i).

Definition ensureConnected : M unit :=
  d <- getDev ;;
  match conn d with
  | Some _ => if connected d then ret tt else fail ErrNotConnected
  | None => fail ErrNotConnected
  end.

(** [GetDeviceInfo] (commands.go): the same request outside the handshake. *)
Definition GetDeviceInfo `{GoRuntime} : M DeviceInfo :=
  ensureConnected ;;;
  d <- getDev ;;
  let xmlData := buildSdkXML (sdkGUID d) MethodGetDeviceInfo [] in
  resp <- sendSdkCmdAndReceive xmlData ;;
  if negb (IsSuccess resp) then fail (ErrNotSuccess (Result resp))
  else
    let i := parseDeviceInfoXML (InnerXML resp) in
    modifyDev (setInfo (Some i)) ;;;
    ret i.

(** [closeInternal]: close the stop channel, mark the device as not
    connected, close and forget the socket. *)
Definition closeInternal : M unit :=
  fun w =>
    let d := dev w in
    let closed' :=
      match stopHeartbeat d with
      | Some ch => ch :: closedChans w
      | None => closedChans w
      end in
    let d := setConnected false (setStopHeartbeat None d) in
    let w' := mkWorld (setConn None d) (wire w) (logs w) (progress w) (nextChan w)
                      closed' (hbStarted w) in
    match conn d with
    | Some c => if cclosed c then (Err ErrIO, w') else (Ok tt, w')
    | None => (Ok tt, w')
    end.

Definition Close : M unit := closeInternal.

(** [d.stopHeartbeat = make(chan struct{}); go d.heartbeatLoop()]. *)
Definition startHeartbeat : M unit :=
  fun w =>
    (Ok tt,
     mkWorld (setStopHeartbeat (Some (nextChan w)) (dev w)) (wire w) (logs w)
             (progress w) (S (nextChan w)) (closedChans w) (S (hbStarted w))).

(** The three phases of [Connect] and the start of the heartbeat, once the
    socket is there. A failure of phase 1 or 2 closes the connection and
    is returned; a failure of phase 3 is logged. *)
Definition connectPhases `{GoRuntime} (uuid : bytes) : M unit :=
  r1 <- try handshakeVersion ;;
  match fst r1 with
  | Some e => r <- try closeInternal ;; fail (ErrWrap WrapVersion e)
  | None =>
      logf LogPhase2 ;;;
      r2 <- try (handshakeSdkVersion uuid) ;;
      match fst r2 with
      | Some e => r <- try closeInternal ;; fail (ErrWrap WrapSdkVersion e)
      | None =>
          logf LogPhase3 ;;;
          r3 <- try handshakeDeviceInfo ;;
          (match fst r3 with
           | Some e => logf (LogDeviceInfoWarning e)
           | None => ret tt
           end) ;;;
          startHeartbeat ;;;
          d <- getDev ;;
          logf (LogConnected (sdkGUID d))
      end
  end.

(** [Connect]. [dialed] is the result of [net.DialTimeout] ([None] when it
    fails), [uuid] the identifier [uuid.New] would give. *)
Definition Connect `{GoRuntime} (dialed : option Conn) (uuid : bytes) : M unit :=
  d <- getDev ;;
  (match conn d with
   | Some _ => r <- try closeInternal ;; ret tt
   | None => ret tt
   end) ;;;
  logf LogDialing ;;;
  match dialed with
  | None => fail (ErrWrap WrapDial ErrIO)
  | Some c =>
      modifyDev (setConn (Some c)) ;;;
      modifyDev (setConnected true) ;;;
      logf LogPhase1 ;;;
      connectPhases uuid
  end.

(** [Connect] up to the first phase, with the socket [c] dialed. *)
Definition connectPrefix (c : Conn) : M unit :=
  d <- getDev ;;
  (match conn d with
   | Some _ => r <- try closeInternal ;; ret tt
   | None => ret tt
   end) ;;;
  logf LogDialing ;;;
  modifyDev (setConn (Some c)) ;;;
  modifyDev (setConnected true) ;;;
  logf LogPhase1.

(** ** File upload (packet.go, file.go) *)

(** [buf[i] = v] for [i < len(buf)]. *)
Definition setByte (buf : bytes) (i : nat) (v : Z) : bytes :=
  firstn i buf ++ v :: skipn (S i) buf.

Definition buildFileStartPacket (fileName : bytes) (fileSize : nat) (fileType : Z)
           (md5Hash : bytes) : bytes :=
  let headLen := 47%nat in
  let pktLen := (headLen + length fileName + 1)%nat in
  let pkt := make pktLen in
  let pkt := copyInto pkt 0 2 (putUint16 (uint16 (Z.of_nat pktLen))) in
  let pkt := copyInto pkt 2 4 (putUint16 (uint16 CmdFileStartAsk)) in
  let pkt := copyInto pkt 4 36 md5Hash in
  let pkt := copyInto pkt 37 41 (putUint32 (uint32 (Z.of_nat fileSize))) in
  let pkt := copyInto pkt 45 47 (putUint16 (uint16 fileType)) in
  let pkt := copyInto pkt headLen pktLen fileName in
  setByte pkt (pktLen - 1) 0.

Definition buildFileContentPacket (data : bytes) : bytes :=
  let pktLen := (tcpHeaderLength + length data)%nat in
  let pkt := make pktLen in
  let pkt := copyInto pkt 0 2 (putUint16 (uint16 (Z.of_nat pktLen))) in
  let pkt := copyInto pkt 2 4 (putUint16 (uint16 CmdFileContentAsk)) in
  copyInto pkt tcpHeaderLength pktLen data.

Definition buildFileEndPacket : bytes :=
  let pkt := make 4 in
  let pkt := copyInto pkt 0 2 (putUint16 4) in
  copyInto pkt 2 4 (putUint16 (uint16 CmdFileEndAsk)).

(** [(errCode, existBytes, ok)]. *)
Definition parseFileStartResponse (data : bytes) : option (Z * Z) :=
  if (length data <? 10)%nat then None
  else Some (getUint16 (slice data 4 6), getUint32 (slice data 6 10)).

Definition parseFileEndResponse (data : bytes) : option Z :=
  if (length data <? 6)%nat then None
  else Some (getUint16 (slice data 4 6)).

Definition onProgress (sent total : nat) : M unit :=
  fun w =>
    (Ok tt,
     if hasOnProgress (dev w)
     then mkWorld (dev w) (wire w) (logs w) (progress w ++ [(sent, total)])
                  (nextChan w) (closedChans w) (hbStarted w)
     else w).

(** The end of the chunk that starts at [offset]. *)
Definition contentEnd (total offset : nat) : nat :=
  let e := (offset + MaxContentLength)%nat in
  if (total <? e)%nat then total else e.

(** Phase 2 of [UploadFileData]: [for offset < len(fileData)]. Every
    iteration moves [offset] forward, so [len(fileData)] iterations are
    enough. *)
Fixpoint sendContent (fuel : nat) (fileData : bytes) (offset : nat) : M unit :=
  match fuel with
  | O => ret tt
  | S fuel' =>
      if (offset <? length fileData)%nat then
        let e := contentEnd (length fileData) offset in
        wrapErr WrapFileContentSend
                (sendRaw (buildFileContentPacket (slice fileData offset e))) ;;;
        onProgress e (length fileData) ;;;
        sendContent fuel' fileData e
      else ret tt
  end.

(** Phase 3, the same statements in [UploadFileAs] and [UploadFileData]. *)
Definition fileEndPhase : M unit :=
  wrapErr WrapFileEndSend (sendRaw buildFileEndPacket) ;;;
  r <- wrapErr WrapFileEndRead readPacket ;;
  let '(data, cmdType) := r in
  if negb (cmdType =? CmdFileEndAnswer) then fail (ErrUnexpectedCmd cmdType)
  else
    match parseFileEndResponse data with
    | None => fail ErrFileEndParse
    | Some endErrCode =>
        if negb (endErrCode =? ErrSuccess) && negb (endErrCode =? ErrWriteFinish)
        then fail (ErrFileEnd endErrCode)
        else ret tt
    end.

Definition UploadFileData `{GoRuntime} (fileName fileData : bytes) (fileType : Z)
  : M unit :=
  ensureConnected ;;;
  let fileSize := length fileData in
  let fileType := if fileType =? FileTypeAuto then detectFileType fileName else fileType in
  let md5Hash := md5Hex fileData in
  logf (LogUploadStart fileName fileSize) ;;;
  wrapErr WrapFileStartSend
          (sendRaw (buildFileStartPacket fileName fileSize fileType md5Hash)) ;;;
  r <- wrapErr WrapFileStartRead readPacket ;;
  let '(data, cmdType) := r in
  if negb (cmdType =? CmdFileStartAnswer) then fail (ErrUnexpectedCmd cmdType)
  else
    match parseFileStartResponse data with
    | None => fail ErrFileStartParse
    | Some (errCode, existBytes) =>
        if negb (errCode =? ErrSuccess) then fail (ErrFileStart errCode)
        else
          sendContent (length fileData) fileData (Z.to_nat existBytes) ;;;
          fileEndPhase ;;;
          logf (LogUploadDone fileName fileSize)
    end.

(** ** The heartbeat goroutine and a concurrent [Close]

    [heartbeatLoop] runs beside the caller, so it is a transition system:
    the world, the point of control of the loop, the point of control of a
    call of [Close], and whether [d.mu] is held. The steps are the
    statements of the source between two accesses to shared state.
    [sendRaw] holds [writeMu], which [Close] never takes, and reads
    [d.conn] three times (the nil test, [SetWriteDeadline], [Write]), so it
    is three steps, and [Close] can clear [d.conn] between any two of them:
    a method call on the nil interface then panics. *)

Inductive hbPc : Type :=
| HbSelect                  (* about to enter [select]; reads d.stopHeartbeat *)
| HbWait (ch : option nat)  (* blocked in [select] on [ch] and on the ticker *)
| HbTick                    (* the ticker fired; about to lock d.mu *)
| HbSend                    (* d.connected was true; about to call sendRaw,
                               that is, to test d.conn == nil *)
| HbDeadline                (* in sendRaw, d.conn was not nil; about to call
                               d.conn.SetWriteDeadline *)
| HbWrite                   (* in sendRaw; about to call d.conn.Write *)
| HbDone                    (* returned *)
| HbPanicked.               (* called a method of the nil d.conn *)

Inductive closePc : Type :=
| ClNotCalled
| ClLocked        (* d.mu.Lock() done *)
| ClChanClosed    (* close(d.stopHeartbeat); d.stopHeartbeat = nil done *)
| ClMarked        (* d.connected = false done *)
| ClSockClosed    (* d.conn.Close() done *)
| ClCleared       (* d.conn = nil done *)
| ClReturned.     (* d.mu.Unlock() done, Close has returned *)

Record Sys : Type := mkSys {
  world : World;
  hb : hbPc;
  cl : closePc;
  muHeld : bool
}.

Inductive event : Type :=
| EvHeartbeatWrite (frame : bytes)   (* the loop wrote a frame to the socket *)
| EvSilent.

(** [d.conn.Write(data)] on the socket [c] that [d.conn] holds: the part
    of [sendRaw] behind its nil test. *)
Definition connWrite (c : Conn) (data : bytes) : M unit :=
  fun w =>
    if cclosed c then (Err ErrIO, w)
    else
      match wleft c with
      | O => (Err ErrIO, w)
      | S n =>
          (Ok tt,
           mkWorld (setConn (Some (mkConn (rx c) n (cclosed c))) (dev w))
                   (wire w ++ [data]) (logs w) (progress w) (nextChan w)
                   (closedChans w) (hbStarted w))
      end.

(** One step of [heartbeatLoop]. [tick] chooses the ticker case of the
    [select] (Go picks any ready case; the stop case is ready only once the
    channel is closed). *)
Definition hbNext (tick : bool) (s : Sys) : option (event * Sys) :=
  let w := world s in
  match hb s with
  | HbSelect =>
      Some (EvSilent, mkSys w (HbWait (stopHeartbeat (dev w))) (cl s) (muHeld s))
  | HbWait ch =>
      if tick then Some (EvSilent, mkSys w HbTick (cl s) (muHeld s))
      else
        match ch with
        | Some c =>
            if existsb (Nat.eqb c) (closedChans w)
            then Some (EvSilent, mkSys w HbDone (cl s) (muHeld s))
            else None
        | None => None   (* a nil channel is never ready *)
        end
  | HbTick =>
      if muHeld s then None
      else if connected (dev w)
           then Some (EvSilent, mkSys w HbSend (cl s) (muHeld s))
           else Some (EvSilent, mkSys w HbDone (cl s) (muHeld s))
  | HbSend =>
      match conn (dev w) with
      | None =>
          Some (EvSilent,
                mkSys (snd (logf (LogHeartbeatFailed ErrConnClosed) w)) HbDone
                      (cl s) (muHeld s))
      | Some _ => Some (EvSilent, mkSys w HbDeadline (cl s) (muHeld s))
      end
  | HbDeadline =>
      match conn (dev w) with
      | None => Some (EvSilent, mkSys w HbPanicked (cl s) (muHeld s))
      | Some _ => Some (EvSilent, mkSys w HbWrite (cl s) (muHeld s))
      end
  | HbWrite =>
      match conn (dev w) with
      | None => Some (EvSilent, mkSys w HbPanicked (cl s) (muHeld s))
      | Some c =>
          match connWrite c buildHeartbeat w with
          | (Ok _, w') =>
              Some (EvHeartbeatWrite buildHeartbeat,
                    mkSys (snd (logf LogHeartbeatSent w')) HbSelect (cl s) (muHeld s))
          | (Err e, w') =>
              Some (EvSilent,
                    mkSys (snd (logf (LogHeartbeatFailed e) w')) HbDone (cl s) (muHeld s))
          | (Panic, _) => None
          end
      end
  | HbDone => None
  | HbPanicked => None
  end.

Definition closeConn (c : Conn) : Conn := mkConn (rx c) (wleft c) true.

(** One step of [Close] (that is, of [closeInternal] under [d.mu]). *)
Definition closeNext (s : Sys) : option Sys :=
  let w := world s in
  let d := dev w in
  match cl s with
  | ClNotCalled =>
      if muHeld s then None else Some (mkSys w (hb s) ClLocked true)
  | ClLocked =>
      let closed' :=
        match stopHeartbeat d with
        | Some ch => ch :: closedChans w
        | None => closedChans w
        end in
      Some (mkSys (mkWorld (setStopHeartbeat None d) (wire w) (logs w) (progress w)
                           (nextChan w) closed' (hbStarted w))
                  (hb s) ClChanClosed (muHeld s))
  | ClChanClosed =>
      Some (mkSys (withDev (setConnected false) w) (hb s) ClMarked (muHeld s))
  | ClMarked =>
      Some (mkSys (withDev (setConn (option_map closeConn (conn d))) w)
                  (hb s) ClSockClosed (muHeld s))
  | ClSockClosed =>
      Some (mkSys (withDev (setConn None) w) (hb s) ClCleared (muHeld s))
  | ClCleared => Some (mkSys w (hb s) ClReturned false)
  | ClReturned => None
  end.

Inductive step : Sys -> event -> Sys -> Prop :=
| step_hb tick s ev s' : hbNext tick s = Some (ev, s') -> step s ev s'
| step_close s s' : closeNext s = Some s' -> step s EvSilent s'.

(** The states right after a successful [Connect]: the device is
    connected over an open socket, the stop channel is open, the loop is at
    its first [select] and [Close] has not been called. *)
Definition initialSys (s : Sys) : Prop :=
  hb s = HbSelect /\ cl s = ClNotCalled /\ muHeld s = false /\
  connected (dev (world s)) = true /\
  (exists c, conn (dev (world s)) = Some c /\ cclosed c = false) /\
  (exists ch, stopHeartbeat (dev (world s)) = Some ch /\
              existsb (Nat.eqb ch) (closedChans (world s)) = false).

Inductive reachable : Sys -> Prop :=
| reach_init s : initialSys s -> reachable s
| reach_step s ev s' : reachable s -> step s ev s' -> reachable s'.

(** A run and the events along it. *)
Inductive run : Sys -> list event -> Sys -> Prop :=
| run_nil s : run s [] s
| run_cons s ev s1 evs s2 : step s ev s1 -> run s1 evs s2 -> run s (ev :: evs) s2.


(** ** Devices and worlds to start from *)

(** [NewDevice] without options: no connection, no logger, no callback. *)
Definition NewDevice : Device := mkDevice None [] false None None false false.

Definition newWorld (d : Device) : World := mkWorld d [] [] [] 0 [] 0.

(** A device connected over the socket [c], nothing written so far. *)
Definition onSocket (c : Conn) : World :=
  newWorld (setConnected true (setConn (Some c) NewDevice)).

(** ** Frames from the peer, used to state what the client does with them *)

(** A frame as the peer sends it: length, command type, payload. *)
Definition peerFrame (cmd : Z) (payload : bytes) : bytes :=
  putUint16 (Z.of_nat (tcpHeaderLength + length payload)) ++ putUint16 cmd ++ payload.

(** An SDK answer fragment: total length, offset, chunk. *)
Definition sdkAnswerFrame (totalLen offset : Z) (chunk : bytes) : bytes :=
  peerFrame CmdSdkCmdAnswer (putUint32 totalLen ++ putUint32 offset ++ chunk).

(** The loopback peer of the round-trip property: it sends every request
    fragment back unchanged but for the command type, which it sets to
    [CmdSdkCmdAnswer] (the assembler takes no other fragment). *)
Definition echoFrame (frame : bytes) : bytes :=
  copyInto frame 2 4 (putUint16 CmdSdkCmdAnswer).

Definition echoPeer (frames : list bytes) : bytes := concat (map echoFrame frames).

(** The content frames of an upload of [fileData] from [offset] on: the
    payloads are the consecutive non-empty pieces of [fileData] from
    [offset] to its end, each of [MaxContentLength] bytes but for the last
    one, which takes what is left. *)
Fixpoint contentFrames (fileData : bytes) (offset : nat) (frames : list bytes) : Prop :=
  match frames with
  | [] => offset = length fileData
  | f :: rest =>
      exists payload,
        f = putUint16 (Z.of_nat (tcpHeaderLength + length payload)) ++
            putUint16 CmdFileContentAsk ++ payload /\
        (1 <= length payload <= MaxContentLength)%nat /\
        length payload = Nat.min MaxContentLength (length fileData - offset) /\
        payload = slice fileData offset (offset + length payload) /\
        (offset + length payload <= length fileData)%nat /\
        contentFrames fileData (offset + length payload) rest
  end.

(** The payload of a content frame: [data[tcpHeaderLength:]]. *)
Definition contentPayload (frame : bytes) : bytes := skipn tcpHeaderLength frame.

(** One fragment as the peer declares it. *)
Record fragment : Type := mkFragment {
  fTotal : Z;
  fOffset : Z;
  fChunk : bytes
}.

Definition fragmentFrame (f : fragment) : bytes :=
  sdkAnswerFrame (fTotal f) (fOffset f) (fChunk f).

(** A fragment whose header fields are 32-bit values, whose frame length
    fits the 16-bit length field and whose offset lies inside a buffer of
    [bufLen] bytes (so that the slice expression does not panic). *)
Definition fragmentFits (bufLen : nat) (f : fragment) : Prop :=
  0 <= fTotal f < 2 ^ 32 /\ 0 <= fOffset f < 2 ^ 32 /\
  Z.of_nat (sdkCmdHeaderLength + length (fChunk f)) < 2 ^ 16 /\
  (Z.to_nat (fOffset f) <= bufLen)%nat.

(** The completion test of the loop for one fragment. *)
Definition completes (totalExpected : Z) (f : fragment) : bool :=
  totalExpected <=? uint32 (fOffset f + Z.of_nat (length (fChunk f))).

(** The copy of one fragment into the buffer. *)
Definition copyFragment (buf : bytes) (f : fragment) : bytes :=
  copyInto buf (Z.to_nat (fOffset f)) (length buf) (fChunk f).

(** The bytes a peer delivers when it sends the fragments one after another. *)
Definition fragmentStream (frames : list fragment) : bytes :=
  concat (map fragmentFrame frames).

(** The state of the loop after the fragments below [offset] of [xml]. *)
Definition assembledUpTo (xml : bytes) (offset : nat) (xmlBuf : option bytes)
           (totalExpected : Z) : Prop :=
  match xmlBuf with
  | None => offset = 0%nat
  | Some buf =>
      buf = firstn offset xml ++ make (length xml - offset) /\
      totalExpected = Z.of_nat (length xml)
  end.

(** The device holds an open socket that still delivers [r] and accepts
    [n] more writes. *)
Definition onConn (w : World) (r : bytes) (n : nat) : Prop :=
  conn (dev w) = Some (mkConn r n false).

(** The answer of the device to a file start: result code, bytes it
    already holds, and whatever follows in the frame. *)
Definition fileStartAnswer (code existBytes : Z) (extra : bytes) : bytes :=
  peerFrame CmdFileStartAnswer (putUint16 code ++ putUint32 existBytes ++ extra).

Definition fileEndAnswer (code : Z) (extra : bytes) : bytes :=
  peerFrame CmdFileEndAnswer (putUint16 code ++ extra).

(** The file type and the start packet of an upload. *)
Definition startPacketOf `{GoRuntime} (fileName fileData : bytes) (fileType : Z) : bytes :=
  buildFileStartPacket fileName (length fileData)
    (if fileType =? FileTypeAuto then detectFileType fileName else fileType)
    (md5Hex fileData).

(** ** A runtime to run examples with

    Four documents and the tokens [encoding/xml] gives for them; any other
    input has no token. The scanner finds no number, the digest and the
    file type are constant. *)

(** The reply to [GetIFVersion]: an [sdk] element with the guid abc-123
    around an empty [out] element with the result kSuccess. *)
Definition versionReplyDoc : bytes :=
  str "<sdk guid=" ++ dq ++ str "abc-123" ++ dq ++ str "><out method=" ++ dq ++
  str "GetIFVersion" ++ dq ++ str " result=" ++ dq ++ str "kSuccess" ++ dq ++
  str "/></sdk>".

(** The reply to [GetDeviceInfo]: the same envelope around a [device]
    element with the cpu imx6. *)
Definition deviceInfoReplyDoc : bytes :=
  str "<sdk guid=" ++ dq ++ str "abc-123" ++ dq ++ str "><out method=" ++ dq ++
  str "GetDeviceInfo" ++ dq ++ str " result=" ++ dq ++ str "kSuccess" ++ dq ++
  str "><device cpu=" ++ dq ++ str "imx6" ++ dq ++ str "/></out></sdk>".

(** An [sdk] element whose guid attribute is empty, and nothing else. *)
Definition emptyGuidDoc : bytes :=
  str "<sdk guid=" ++ dq ++ dq ++ str "></sdk>".

Definition exampleTokens (s : bytes) : list Token :=
  if bytes_eqb s versionReplyDoc then
    [StartElement (str "sdk") [(str "guid", str "abc-123")];
     StartElement (str "out")
                  [(str "method", str "GetIFVersion"); (str "result", str "kSuccess")];
     EndElement (str "out");
     EndElement (str "sdk")]
  else if bytes_eqb s deviceInfoReplyDoc then
    [StartElement (str "sdk") [(str "guid", str "abc-123")];
     StartElement (str "out")
                  [(str "method", str "GetDeviceInfo"); (str "result", str "kSuccess")];
     StartElement (str "device") [(str "cpu", str "imx6")];
     EndElement (str "device");
     EndElement (str "out");
     EndElement (str "sdk")]
  else if bytes_eqb s (str "<device cpu=" ++ dq ++ str "imx6" ++ dq ++ str "></device>") then
    [StartElement (str "device") [(str "cpu", str "imx6")];
     EndElement (str "device")]
  else if bytes_eqb s emptyGuidDoc then
    [StartElement (str "sdk") [(str "guid", [])];
     EndElement (str "sdk")]
  else [].

Definition exampleRuntime : GoRuntime :=
  {| xmlTokens := exampleTokens;
     sscanfInt := fun _ => None;
     md5Hex := fun _ => repeat 48 32;
     detectFileType := fun _ => 0 |}.

(** The version answer of the device in phase 1. *)
Definition versionAnswer (ver : Z) : bytes := peerFrame CmdServiceAnswer (putUint32 ver).

(** A whole SDK response in one answer fragment. *)
Definition sdkAnswerOf (xml : bytes) : bytes :=
  fragmentFrame (mkFragment (Z.of_nat (length xml)) 0 xml).

(** An error answer with a device error code. *)
Definition errorAnswer (code : Z) : bytes := peerFrame CmdErrorAnswer (putUint16 code).

(** ** What a call leaves untouched *)

(** [w'] differs from [w] at most in the session identifier, in what the
    socket still delivers and accepts, and in what was written and logged:
    the socket is the same (open or closed, or absent), and so are the
    liveness flag, the stop channel, the cached descriptor, the options and
    the goroutines and channels. *)
Definition sameSession (w w' : World) : Prop :=
  option_map cclosed (conn (dev w')) = option_map cclosed (conn (dev w)) /\
  connected (dev w') = connected (dev w) /\
  stopHeartbeat (dev w') = stopHeartbeat (dev w) /\
  info (dev w') = info (dev w) /\
  hasLogger (dev w') = hasLogger (dev w) /\
  nextChan w' = nextChan w /\
  closedChans w' = closedChans w /\
  hbStarted w' = hbStarted w.

(** A computation that keeps the session whatever its outcome. *)
Definition keepsSession {A} (c : M A) : Prop :=
  forall w, sameSession w (snd (c w)).

(** A computation that writes nothing to the socket. *)
Definition writesNothing {A} (c : M A) : Prop :=
  forall w, wire (snd (c w)) = wire w.

(** ** Schedules of the heartbeat loop and [Close] *)

(** One move of a schedule: a step of the heartbeat loop (with the choice
    of the [select] case) or a step of [Close]. *)
Inductive move : Type :=
| MoveHb (tick : bool)
| MoveClose.

Definition doMove (m : move) (s : Sys) : option (event * Sys) :=
  match m with
  | MoveHb tick => hbNext tick s
  | MoveClose => option_map (fun s' => (EvSilent, s')) (closeNext s)
  end.

Fixpoint doMoves (ms : list move) (s : Sys) : option (list event * Sys) :=
  match ms with
  | [] => Some ([], s)
  | m :: ms' =>
      match doMove m s with
      | None => None
      | Some (ev, s1) =>
          match doMoves ms' s1 with
          | None => None
          | Some (evs, s2) => Some (ev :: evs, s2)
          end
      end
  end.



(** ** Tokens of a response, to state what [parseSdkResponse] accepts *)

(** The value of the last attribute named [name], if there is one. *)
Definition lastAttr (name : bytes) (attrs : list (bytes * bytes)) : option bytes :=
  fold_left (fun acc a => if bytes_eqb (fst a) name then Some (snd a) else acc)
            attrs None.

(** No token of [toks] is a start element named [name]. *)
Definition noStart (name : bytes) (toks : list Token) : Prop :=
  Forall (fun t => match t with
                   | StartElement local _ => bytes_eqb local name = false
                   | _ => True
                   end) toks.

(** ** Further parts of the package

    Builders, commands and helpers that the protocol engine above does
    not need, embedded to state how they behave at their edges. *)

Definition CmdSearchDeviceAsk : Z := 0x1001.

(** [buildUDPScanPacket] (packet.go). *)
Definition buildUDPScanPacket : bytes :=
  let pkt := make 8 in
  let pkt := copyInto pkt 0 2 (putUint16 8) in
  let pkt := copyInto pkt 2 4 (putUint16 (uint16 CmdSearchDeviceAsk)) in
  copyInto pkt 4 8 (putUint32 transportVersion).

(** The 32 bytes of the digest field of a file start packet: the digest,
    cut or padded with zero bytes. *)
Definition md5Field (md5Hash : bytes) : bytes :=
  firstn 32 (md5Hash ++ make 32).

(** ** [Connect] and [Close] in a row *)





(** [w'] has the channels, the goroutines and the socket (open, closed or
    absent) of [w]. *)
Definition sameChans (w w' : World) : Prop :=
  stopHeartbeat (dev w') = stopHeartbeat (dev w) /\
  nextChan w' = nextChan w /\
  closedChans w' = closedChans w /\
  hbStarted w' = hbStarted w /\
  option_map cclosed (conn (dev w')) = option_map cclosed (conn (dev w)).




(** From a state with [P], the computation [c] ends with [Q] when it
    returns a value and with [E] when it returns an error or panics. *)
Definition ensures {A} (P : World -> Prop) (c : M A) (Q : A -> World -> Prop)
           (E : World -> Prop) : Prop :=
  forall w, P w ->
            match c w with
            | (Ok a, w') => Q a w'
            | (_, w') => E w'
            end.

(** ** The heartbeat loop and the upload, seen from outside *)

(** The frames written along a run. *)
Fixpoint writtenFrames (evs : list event) : list bytes :=
  match evs with
  | [] => []
  | EvHeartbeatWrite frame :: evs' => frame :: writtenFrames evs'
  | EvSilent :: evs' => writtenFrames evs'
  end.

(** A computation that does not call the progress callback and leaves
    the option that configures it alone. *)
Definition keepsProgress {A} (c : M A) : Prop :=
  forall w, progress (snd (c w)) = progress w /\
            hasOnProgress (dev (snd (c w))) = hasOnProgress (dev w).


(** ** Raw XML commands (xml.go, commands.go) *)

(** [strings.Replace(s, old, new, 1)]: the first occurrence of [old], if
    there is one, is replaced (an empty [old] matches at the start). *)
Definition replaceFirst (s old new : bytes) : bytes :=
  match index s old with
  | None => s
  | Some i => firstn i s ++ new ++ skipn (i + length old) s
  end.

(** [replaceGUID]: the first attribute [guid] with the value [oldGUID]
    gets the value [newGUID], which is written as it is. *)
Definition replaceGUID (xmlData oldGUID newGUID : bytes) : bytes :=
  replaceFirst xmlData (str "guid=" ++ dq ++ oldGUID ++ dq)
               (str "guid=" ++ dq ++ newGUID ++ dq).

(** The GUID update of [SendRawXML]: the text that is sent for [xmlStr]
    in a session with the identifier [sdkGUID]. *)
Definition withSessionGUID (sdkGUID xmlStr : bytes) : bytes :=
  let currentGUID := extractGUID xmlStr in
  if negb (bytes_eqb currentGUID []) && negb (bytes_eqb currentGUID sdkGUID)
  then replaceGUID xmlStr currentGUID sdkGUID
  else xmlStr.

Definition SendRawXML `{GoRuntime} (xmlStr : bytes) : M SdkResponse :=
  ensureConnected ;;;
  d <- getDev ;;
  sendSdkCmdAndReceive (withSessionGUID (sdkGUID d) xmlStr).

(** ** XML element builders (xml.go) *)

(** The attribute loop [for i := 0; i+1 < len(attrs); i += 2]: the keys
    as they are, the values escaped; a key without a value at the end is
    not written. *)
Fixpoint xmlAttrs (attrs : list bytes) : bytes :=
  match attrs with
  | k :: v :: rest =>
      (str " " ++ k ++ str "=" ++ dq ++ xmlEscape v ++ dq) ++ xmlAttrs rest
  | _ => []
  end.

Definition xmlElement (tag : bytes) (attrs : list bytes) : bytes :=
  str "<" ++ tag ++ xmlAttrs attrs ++ str "/>".

Definition xmlElementWithContent (tag content : bytes) (attrs : list bytes) : bytes :=
  str "<" ++ tag ++ xmlAttrs attrs ++ str ">" ++ xmlEscape content ++
  str "</" ++ tag ++ str ">".

Definition xmlElementWithChildren (tag : bytes) (attrs : list bytes)
           (children : list bytes) : bytes :=
  match children with
  | [] => str "<" ++ tag ++ xmlAttrs attrs ++ str "/>"
  | _ :: _ =>
      str "<" ++ tag ++ xmlAttrs attrs ++ str ">" ++ concat children ++
      str "</" ++ tag ++ str ">"
  end.

Definition boolStr (b : bool) : bytes := if b then str "true" else str "false".

(** [buildDeleteFilesXML]. *)
Definition buildDeleteFilesXML (fileNames : list bytes) : bytes :=
  xmlElementWithChildren (str "files") []
    (map (fun name => xmlElement (str "file") [str "name"; name]) fileNames).

(** Attributes given as pairs, the way every caller writes them. *)
Definition attrPairs (pairs : list (bytes * bytes)) : list bytes :=
  concat (map (fun p => [fst p; snd p]) pairs).

(** The bytes [xmlEscape] never lets through: the two quotes, the angle
    brackets, tab, line feed and carriage return. *)
Definition isMarkupByte (b : Z) : bool :=
  (b =? 34) || (b =? 39) || (b =? 60) || (b =? 62) ||
  (b =? 9) || (b =? 10) || (b =? 13).

(** Printable ASCII other than the two quotes, the angle brackets and the
    ampersand. *)
Definition isPlainByte (b : Z) : bool :=
  (0x20 <=? b) && (b <=? 0x7E) &&
  negb ((b =? 34) || (b =? 39) || (b =? 38) || (b =? 60) || (b =? 62)).

(** ** Colours (content builder) *)

Definition clamp (v : Z) : Z :=
  if v <? 0 then 0 else if 255 <? v then 255 else v.

(** [fmt.Sprintf] with the verb [%02x] for a value that is not negative
    (the only values [RGB] formats): the hexadecimal digits, with a
    leading zero when there is only one. *)
Definition sprintf02x (v : Z) : bytes :=
  let digits := hexLoop 16 v [] in
  if (length digits <? 2)%nat then 48 :: digits else digits.

Definition RGB (r g b : Z) : bytes :=
  str "#" ++ sprintf02x (clamp r) ++ sprintf02x (clamp g) ++ sprintf02x (clamp b).

Definition ColorRed : bytes := str "#ff0000".
Definition ColorGreen : bytes := str "#00ff00".
Definition ColorBlue : bytes := str "#0000ff".
Definition ColorWhite : bytes := str "#ffffff".
Definition ColorYellow : bytes := str "#ffff00".
Definition ColorCyan : bytes := str "#00ffff".
Definition ColorMagenta : bytes := str "#ff00ff".
Definition ColorOrange : bytes := str "#ff8000".

Definition isLowerHexDigit (b : Z) : bool :=
  ((48 <=? b) && (b <=? 57)) || ((97 <=? b) && (b <=? 102)).

(** ** File types (file.go) *)

Definition FileTypeImage : Z := 0.
Definition FileTypeVideo : Z := 1.
Definition FileTypeFont : Z := 2.
Definition FileTypeFirmware : Z := 3.
Definition FileTypeFPGAConfig : Z := 4.
Definition FileTypeSettingConfig : Z := 5.
Definition FileTypeProgramXML : Z := 9.
Definition FileTypeTempImage : Z := 128.
Definition FileTypeTempVideo : Z := 129.

(** [m[key]] for a [map[string]bool] literal whose values are all true. *)
Definition inExts (exts : list bytes) (key : bytes) : bool :=
  existsb (bytes_eqb key) exts.

Definition imageExts : list bytes :=
  [str ".bmp"; str ".jpg"; str ".jpeg"; str ".png";
   str ".ico"; str ".gif"; str ".tif"; str ".tiff"].

Definition videoExts : list bytes :=
  [str ".mp4"; str ".avi"; str ".mkv"; str ".flv";
   str ".mov"; str ".wmv"; str ".mp3"; str ".swf";
   str ".f4v"; str ".trp"; str ".asf"; str ".mpeg";
   str ".webm"; str ".asx"; str ".rm"; str ".rmvb";
   str ".3gp"; str ".m4v"; str ".dat"; str ".vob";
   str ".ts"].

Definition fontExts : list bytes := [str ".ttf"; str ".ttc"; str ".bdf"].

Definition firmwareExts : list bytes := [str ".bin"].

(** [detectFileType] over the three library functions it calls. *)
Section DetectFileType.

Variables (filepathExt filepathBase stringsToLower : bytes -> bytes).

Definition detectFileTypeOf (filePath : bytes) : Z :=
  let ext := stringsToLower (filepathExt filePath) in
  let name := stringsToLower (filepathBase filePath) in
  if inExts imageExts ext then FileTypeImage
  else if inExts videoExts ext then FileTypeVideo
  else if inExts fontExts ext then FileTypeFont
  else if inExts firmwareExts ext then FileTypeFirmware
  else if bytes_eqb ext (str ".xml") then
    if bytes_eqb name (str "fpga.xml") then FileTypeFPGAConfig
    else if bytes_eqb name (str "config.xml") then FileTypeSettingConfig
    else FileTypeProgramXML
  else FileTypeImage.

End DetectFileType.

(** ** The session after [Connect]

    What can happen to a connected device before the next [Connect]: the
    caller issues commands, the heartbeat goroutine and a concurrent
    [Close] take their steps. *)

(** The shape the commands of commands.go share ([OpenScreen],
    [SetEthernetInfo], [DeleteFiles], [SendScreen] and the rest): check the
    connection, build the request with [buildSdkXML] from [d.sdkGUID], the
    method name and the inner XML, send it and read the response. *)
Definition sdkCommand `{GoRuntime} (method innerXML : bytes) : M SdkResponse :=
  ensureConnected ;;;
  d <- getDev ;;
  let xmlData := buildSdkXML (sdkGUID d) method innerXML in
  sendSdkCmdAndReceive xmlData.

Inductive sessionOp : Type :=
| OpSdkCommand (method innerXML : bytes)
| OpGetDeviceInfo
| OpSendRawXML (xmlStr : bytes)
| OpUploadFileData (fileName fileData : bytes) (fileType : Z)
| OpClose.

(** The world after a command, whatever it returned. *)
Definition doOp `{GoRuntime} (o : sessionOp) (w : World) : World :=
  match o with
  | OpSdkCommand method innerXML => snd (sdkCommand method innerXML w)
  | OpGetDeviceInfo => snd (GetDeviceInfo w)
  | OpSendRawXML xmlStr => snd (SendRawXML xmlStr w)
  | OpUploadFileData fileName fileData fileType =>
      snd (UploadFileData fileName fileData fileType w)
  | OpClose => snd (Close w)
  end.

(** One thing happens: a command, or a step of the heartbeat goroutine or
    of a concurrent [Close] (from whatever point of control they are at). *)
Inductive sessionStep `{GoRuntime} : World -> World -> Prop :=
| session_op o w : sessionStep w (doOp o w)
| session_background s ev s' : step s ev s' -> sessionStep (world s) (world s').

Inductive sessionReach `{GoRuntime} : World -> World -> Prop :=
| session_here w : sessionReach w w
| session_then w w1 w2 : sessionReach w w1 -> sessionStep w1 w2 -> sessionReach w w2.

(** A computation that leaves the session identifier as it is. *)
Definition keepsGUID {A} (c : M A) : Prop :=
  forall w, sdkGUID (dev (snd (c w))) = sdkGUID (dev w).

(** [start + n1], [start + n1 + n2], ...: the running totals of [sizes]
    from [start]. *)
Fixpoint runningTotals (start : nat) (sizes : list nat) : list nat :=
  match sizes with
  | [] => []
  | n :: rest => (start + n)%nat :: runningTotals (start + n) rest
  end.
(** * Properties *)

(** When two computations are compared, the methods are unfolded before
    the [bind] of the monad. *)
Strategy 10 [bind].

(** ** Slices and little-endian fields *)

Lemma MaxContentLength_val : MaxContentLength = Z.to_nat 8000.
Proof. reflexivity. Qed.

Lemma length_make n : length (make n) = n.
Proof. apply repeat_length. Qed.

Lemma length_slice s lo hi :
  (lo <= hi <= length s)%nat -> length (slice s lo hi) = (hi - lo)%nat.
Proof.
  intros H. unfold slice. rewrite length_firstn, length_skipn. lia.
Qed.

Lemma slice_app_skipn s lo hi :
  (lo <= hi)%nat -> slice s lo hi ++ skipn hi s = skipn lo s.
Proof.
  intros H. unfold slice.
  replace (skipn hi s) with (skipn (hi - lo) (skipn lo s)).
  - apply firstn_skipn.
  - rewrite skipn_skipn. f_equal. lia.
Qed.

Lemma uint16_small n : 0 <= n < 2 ^ 16 -> uint16 n = n.
Proof. intros H. unfold uint16. apply Z.mod_small; exact H. Qed.

Lemma uint32_small n : 0 <= n < 2 ^ 32 -> uint32 n = n.
Proof. intros H. unfold uint32. apply Z.mod_small; exact H. Qed.

Lemma sdkCmdChunkSize_spec totalLen offset :
  sdkCmdChunkSize totalLen offset = Nat.min (totalLen - offset) MaxContentLength.
Proof.
  unfold sdkCmdChunkSize.
  destruct (Nat.ltb_spec MaxContentLength (totalLen - offset)); lia.
Qed.

(** The five slice writes of [buildSdkCmdPackets] fill the packet exactly:
    header fields, then the chunk. *)
Lemma copyInto_header (c : nat) (h1 h2 h3 h4 : bytes) (chunk : bytes) :
  length h1 = 2%nat -> length h2 = 2%nat -> length h3 = 4%nat ->
  length h4 = 4%nat -> length chunk = c ->
  copyInto (copyInto (copyInto (copyInto (copyInto (make (12 + c)) 0 2 h1)
                                         2 4 h2) 4 8 h3) 8 12 h4)
           12 (12 + c) chunk
  = h1 ++ h2 ++ h3 ++ h4 ++ chunk.
Proof.
  intros H1 H2 H3 H4 Hc.
  destruct h1 as [|a1 [|a2 [|]]]; try discriminate.
  destruct h2 as [|b1 [|b2 [|]]]; try discriminate.
  destruct h3 as [|c1 [|c2 [|c3 [|c4 [|]]]]]; try discriminate.
  destruct h4 as [|d1 [|d2 [|d3 [|d4 [|]]]]]; try discriminate.
  unfold copyInto, make. cbn [repeat Nat.add length Nat.sub Nat.min firstn skipn app].
  rewrite Hc, Nat.sub_0_r, Nat.min_id.
  rewrite <- Hc at 1. rewrite firstn_all.
  rewrite skipn_all2 by (rewrite repeat_length; lia).
  rewrite app_nil_r. reflexivity.
Qed.

Lemma length_putUint16 v : length (putUint16 v) = 2%nat.
Proof. reflexivity. Qed.

Lemma length_putUint32 v : length (putUint32 v) = 4%nat.
Proof. reflexivity. Qed.

Lemma buildSdkCmdPacket_layout xmlData offset :
  (offset <= length xmlData)%nat ->
  let chunkSize := sdkCmdChunkSize (length xmlData) offset in
  buildSdkCmdPacket xmlData offset =
  sdkFrame CmdSdkCmdAsk (length xmlData) offset
           (slice xmlData offset (offset + chunkSize)).
Proof.
  intros Hoff chunkSize.
  assert (Hc : (chunkSize <= length xmlData - offset)%nat /\
               (chunkSize <= MaxContentLength)%nat).
  { unfold chunkSize. rewrite sdkCmdChunkSize_spec. lia. }
  assert (Hlen : length (slice xmlData offset (offset + chunkSize)) = chunkSize).
  { rewrite length_slice by lia. lia. }
  unfold buildSdkCmdPacket, sdkFrame. fold chunkSize.
  change sdkCmdHeaderLength with 12%nat.
  rewrite copyInto_header by (auto using length_putUint16, length_putUint32).
  rewrite Hlen.
  rewrite uint16_small.
  - rewrite (uint16_small CmdSdkCmdAsk) by (unfold CmdSdkCmdAsk; lia).
    reflexivity.
  - rewrite MaxContentLength_val in Hc. lia.
Qed.

(** ** C2: fragmentation of a request *)

Lemma sdkCmdLoop_fragments xmlData :
  forall fuel offset packets,
    (offset <= length xmlData)%nat ->
    (length xmlData - offset <= fuel)%nat ->
    exists rest,
      sdkCmdLoop fuel xmlData offset packets = packets ++ rest /\
      sdkFragments xmlData offset rest.
Proof.
  induction fuel as [|fuel IH]; intros offset packets Hle Hfuel.
  - exists []. cbn [sdkCmdLoop sdkFragments]. rewrite app_nil_r. split; [reflexivity | lia].
  - cbn [sdkCmdLoop].
    destruct (Nat.ltb_spec offset (length xmlData)) as [Hlt | Hge].
    + set (c := sdkCmdChunkSize (length xmlData) offset).
      assert (Hc : (1 <= c <= MaxContentLength)%nat /\ (offset + c <= length xmlData)%nat).
      { unfold c. rewrite sdkCmdChunkSize_spec, MaxContentLength_val. lia. }
      destruct (IH (offset + c)%nat (packets ++ [buildSdkCmdPacket xmlData offset]))
        as [rest [Hrun Hrest]]; [lia | lia |].
      exists (buildSdkCmdPacket xmlData offset :: rest). split.
      * rewrite Hrun, <- app_assoc. reflexivity.
      * cbn [sdkFragments].
        exists (slice xmlData offset (offset + c)).
        assert (Hlen : length (slice xmlData offset (offset + c)) = c).
        { rewrite length_slice by lia. lia. }
        rewrite Hlen.
        repeat split; try lia; try assumption.
        apply buildSdkCmdPacket_layout. lia.
    + exists []. cbn [sdkFragments]. rewrite app_nil_r. split; [reflexivity | lia].
Qed.

Lemma sdkChunk_sdkFrame cmd totalLen offset chunk :
  sdkChunk (sdkFrame cmd totalLen offset chunk) = chunk.
Proof. reflexivity. Qed.

Lemma sdkFragments_concat xmlData :
  forall frames offset,
    sdkFragments xmlData offset frames ->
    concat (map sdkChunk frames) = skipn offset xmlData.
Proof.
  induction frames as [|f rest IH]; intros offset H; cbn [sdkFragments] in H.
  - subst offset. rewrite skipn_all. reflexivity.
  - destruct H as [chunk [Hf [Hlen [Hchunk [Hle Hrest]]]]].
    cbn [map concat]. rewrite (IH _ Hrest), Hf, sdkChunk_sdkFrame.
    rewrite Hchunk at 1. apply slice_app_skipn. lia.
Qed.

Lemma buildSdkCmdPackets_sdkFragments (xmlData : bytes) :
  sdkFragments xmlData 0 (buildSdkCmdPackets xmlData).
Proof.
  unfold buildSdkCmdPackets.
  destruct (Nat.eqb_spec (length xmlData) 0) as [H0 | Hn].
  - cbn [sdkFragments]. lia.
  - destruct (sdkCmdLoop_fragments xmlData (length xmlData) 0 [])
      as [rest [Hrun Hrest]]; [lia | lia |].
    rewrite Hrun. exact Hrest.
Qed.

(** C2. [buildSdkCmdPackets] yields no frame on empty input; on any input the
    frames it yields are fragments of at most [MaxContentLength] (8000)
    bytes each, every one non-empty, that start at offset 0, follow one
    another without gap or overlap and end at [len(xmlData)]; each frame is
    the 12-byte header (frame length, [CmdSdkCmdAsk], total XML length,
    chunk offset, the last two as the [uint32] the source writes) followed
    by its chunk, and the chunks put together are the input. *)
Theorem buildSdkCmdPackets_fragments (xmlData : bytes) :
  buildSdkCmdPackets [] = [] /\
  sdkFragments xmlData 0 (buildSdkCmdPackets xmlData) /\
  concat (map sdkChunk (buildSdkCmdPackets xmlData)) = xmlData.
Proof.
  split; [reflexivity |].
  pose proof (buildSdkCmdPackets_sdkFragments xmlData) as H.
  split; [exact H |].
  rewrite (sdkFragments_concat _ _ _ H). reflexivity.
Qed.

(** ** Little-endian fields read back *)

Lemma land_255 v : Z.land v 255 = v mod 2 ^ 8.
Proof. change 255 with (Z.ones 8). apply Z.land_ones. lia. Qed.

Lemma lor_shiftl_add a b n :
  0 <= n -> 0 <= a < 2 ^ n -> Z.lor a (Z.shiftl b n) = a + b * 2 ^ n.
Proof.
  intros Hn Ha.
  rewrite Z.shiftl_mul_pow2 by lia.
  rewrite <- Z.lxor_lor, <- Z.add_nocarry_lxor; try reflexivity.
  all: apply Z.bits_inj'; intros i Hi; rewrite Z.land_spec, Z.bits_0;
    destruct (Z.lt_ge_cases i n) as [Hlt | Hge];
    [ rewrite Z.mul_pow2_bits_low by lia; apply andb_false_r
    | destruct (Z.eq_dec a 0) as [-> | Hnz]; [rewrite Z.bits_0; reflexivity |];
      rewrite (Z.bits_above_log2 a i); [reflexivity | lia |];
      apply Z.lt_le_trans with n; [apply Z.log2_lt_pow2; lia | lia] ].
Qed.

Ltac pow2_consts :=
  change (2 ^ 8) with 256 in *; change (2 ^ 16) with 65536 in *;
  change (2 ^ 24) with 16777216 in *; change (2 ^ 32) with 4294967296 in *.

Lemma getUint16_putUint16 v : 0 <= v < 2 ^ 16 -> getUint16 (putUint16 v) = v.
Proof.
  intros H. unfold getUint16, putUint16. cbn [nth].
  rewrite !land_255, Z.shiftr_div_pow2 by lia.
  rewrite lor_shiftl_add by (try lia; apply Z.mod_pos_bound; lia).
  pow2_consts. Z.div_mod_to_equations. lia.
Qed.

Lemma getUint32_putUint32 v : 0 <= v < 2 ^ 32 -> getUint32 (putUint32 v) = v.
Proof.
  intros H. unfold getUint32, putUint32. cbn [nth].
  rewrite !land_255, !Z.shiftr_div_pow2 by lia.
  rewrite (lor_shiftl_add _ _ 8) by (try lia; apply Z.mod_pos_bound; lia).
  rewrite (lor_shiftl_add _ _ 16);
    [| lia | pow2_consts; Z.div_mod_to_equations; lia].
  rewrite (lor_shiftl_add _ _ 24);
    [| lia | pow2_consts; Z.div_mod_to_equations; lia].
  pow2_consts. Z.div_mod_to_equations. lia.
Qed.

Lemma uint32_range n : 0 <= uint32 n < 2 ^ 32.
Proof. unfold uint32. apply Z.mod_pos_bound. lia. Qed.

(** ** Reading one frame *)

Lemma copyInto_frame n (lenBuf data : bytes) :
  length lenBuf = 2%nat -> length data = (n - 2)%nat -> (2 <= n)%nat ->
  copyInto (copyInto (make n) 0 2 lenBuf) 2 n data = lenBuf ++ data.
Proof.
  intros H1 H2 Hn.
  destruct lenBuf as [|a [|b [|]]]; try discriminate.
  destruct n as [|[|n]]; try lia.
  unfold copyInto, make.
  cbn [repeat Nat.add length Nat.sub Nat.min firstn skipn app].
  cbn [Nat.sub] in H2. rewrite Nat.sub_0_r in H2.
  rewrite H2, Nat.sub_0_r, Nat.min_id.
  rewrite <- H2 at 1. rewrite firstn_all.
  rewrite skipn_all2 by (rewrite repeat_length; lia).
  rewrite app_nil_r. reflexivity.
Qed.

Lemma length_peerFrame cmd payload :
  length (peerFrame cmd payload) = (tcpHeaderLength + length payload)%nat.
Proof. reflexivity. Qed.

Lemma readPacket_peerFrame (w : World) (c : Conn) cmd payload rest :
  conn (dev w) = Some c -> cclosed c = false ->
  rx c = peerFrame cmd payload ++ rest ->
  Z.of_nat (tcpHeaderLength + length payload) < 2 ^ 16 ->
  0 <= cmd < 2 ^ 16 ->
  readPacket w = (Ok (peerFrame cmd payload, cmd), setRx c rest w).
Proof.
  intros Hconn Hopen Hrx Hlen Hcmd.
  unfold readPacket. rewrite Hconn, Hopen, Hrx.
  set (L := (tcpHeaderLength + length payload)%nat) in *.
  assert (HL : (4 <= L)%nat) by (unfold L, tcpHeaderLength; lia).
  unfold peerFrame. fold L.
  change (putUint16 (Z.of_nat L) ++ putUint16 cmd ++ payload)
    with (Z.land (Z.of_nat L) 255 :: Z.land (Z.shiftr (Z.of_nat L) 8) 255 ::
          putUint16 cmd ++ payload).
  cbn [app length firstn skipn].
  match goal with
  | |- context [(?a <? 2)%nat] =>
      destruct (Nat.ltb_spec a 2) as [Hbad | _]; [cbn [length] in Hbad; lia |]
  end.
  change [Z.land (Z.of_nat L) 255; Z.land (Z.shiftr (Z.of_nat L) 8) 255]
    with (putUint16 (Z.of_nat L)).
  rewrite getUint16_putUint16 by lia.
  rewrite Nat2Z.id.
  destruct (Nat.ltb_spec L tcpHeaderLength) as [Hbad | _];
    [unfold tcpHeaderLength in Hbad; lia |].
  assert (Hrest : length (putUint16 cmd ++ payload) = (L - 2)%nat).
  { rewrite length_app, length_putUint16. unfold L, tcpHeaderLength. lia. }
  destruct (Nat.ltb_spec (length ((putUint16 cmd ++ payload) ++ rest)) (L - 2))
    as [Hbad | _].
  { rewrite length_app in Hbad. lia. }
  rewrite <- Hrest.
  rewrite firstn_app, Nat.sub_diag, firstn_all, firstn_O, app_nil_r.
  rewrite skipn_app, Nat.sub_diag, skipn_all, skipn_O.
  rewrite copyInto_frame by (auto using length_putUint16; lia).
  cbn [app].
  replace (getUint16 (slice (putUint16 (Z.of_nat L) ++ putUint16 cmd ++ payload) 2 4))
    with (getUint16 (putUint16 cmd)) by reflexivity.
  rewrite getUint16_putUint16 by lia.
  reflexivity.
Qed.

(** ** One fragment through the assembler *)

Lemma length_copyInto dst lo hi src :
  (lo <= hi <= length dst)%nat -> length (copyInto dst lo hi src) = length dst.
Proof.
  intros H. unfold copyInto.
  rewrite !length_app, !length_firstn, length_skipn. lia.
Qed.

Lemma setRx_setRx c c' r r' w :
  wleft c' = wleft c -> cclosed c' = cclosed c ->
  setRx c' r' (setRx c r w) = setRx c r' w.
Proof. intros H1 H2. unfold setRx, withDev, setConn. cbn. rewrite H1, H2. reflexivity. Qed.

Lemma conn_setRx c r w : conn (dev (setRx c r w)) = Some (mkConn r (wleft c) (cclosed c)).
Proof. reflexivity. Qed.

Lemma parseSdkCmdHeader_answer totalLen offset chunk :
  0 <= totalLen < 2 ^ 32 -> 0 <= offset < 2 ^ 32 ->
  parseSdkCmdHeader (sdkAnswerFrame totalLen offset chunk) = Some (totalLen, offset).
Proof.
  intros Ht Ho. unfold parseSdkCmdHeader.
  destruct (Nat.ltb_spec (length (sdkAnswerFrame totalLen offset chunk)) sdkCmdHeaderLength)
    as [Hbad | _].
  { unfold sdkAnswerFrame in Hbad. rewrite length_peerFrame in Hbad.
    rewrite !length_app, !length_putUint32 in Hbad.
    unfold sdkCmdHeaderLength, tcpHeaderLength in Hbad. lia. }
  replace (slice (sdkAnswerFrame totalLen offset chunk) 4 8)
    with (putUint32 totalLen) by reflexivity.
  replace (slice (sdkAnswerFrame totalLen offset chunk) 8 12)
    with (putUint32 offset) by reflexivity.
  rewrite !getUint32_putUint32 by assumption. reflexivity.
Qed.

Lemma sdkAnswerStep_fragment xmlBuf totalExpected (f : fragment) :
  let buf := match xmlBuf with None => make (Z.to_nat (fTotal f)) | Some b => b end in
  let total := match xmlBuf with None => fTotal f | Some _ => totalExpected end in
  fragmentFits (length buf) f ->
  sdkAnswerStep xmlBuf totalExpected (fragmentFrame f) =
  if completes total f then Complete (copyFragment buf f)
  else Continue (Some (copyFragment buf f)) total.
Proof.
  intros buf total [Ht [Ho [Hl Hin]]].
  unfold sdkAnswerStep, fragmentFrame.
  rewrite parseSdkCmdHeader_answer by assumption.
  replace (skipn sdkCmdHeaderLength (sdkAnswerFrame (fTotal f) (fOffset f) (fChunk f)))
    with (fChunk f) by reflexivity.
  unfold completes, copyFragment.
  subst buf total. destruct xmlBuf as [b |].
  - destruct (Nat.ltb_spec (length b) (Z.to_nat (fOffset f))); [lia | reflexivity].
  - destruct (Nat.ltb_spec (length (make (Z.to_nat (fTotal f)))) (Z.to_nat (fOffset f)));
      [lia | reflexivity].
Qed.

Lemma fragmentFrame_peer f :
  fragmentFrame f =
  peerFrame CmdSdkCmdAnswer (putUint32 (fTotal f) ++ putUint32 (fOffset f) ++ fChunk f).
Proof. reflexivity. Qed.

(** One iteration of the loop on a fragment frame. *)
Lemma assembleLoop_fragment fuel xmlBuf totalExpected (f : fragment) (w : World) c rest :
  let buf := match xmlBuf with None => make (Z.to_nat (fTotal f)) | Some b => b end in
  let total := match xmlBuf with None => fTotal f | Some _ => totalExpected end in
  conn (dev w) = Some c -> cclosed c = false ->
  rx c = fragmentFrame f ++ rest ->
  fragmentFits (length buf) f ->
  assembleLoop (S fuel) xmlBuf totalExpected w =
  if completes total f then (Ok (cleanXML (copyFragment buf f)), setRx c rest w)
  else assembleLoop fuel (Some (copyFragment buf f)) total (setRx c rest w).
Proof.
  intros buf total Hconn Hopen Hrx Hfit.
  cbn [assembleLoop]. unfold bind.
  rewrite fragmentFrame_peer in Hrx.
  rewrite (readPacket_peerFrame w c _ _ rest Hconn Hopen Hrx).
  - rewrite Z.eqb_refl. rewrite <- fragmentFrame_peer.
    rewrite (sdkAnswerStep_fragment xmlBuf totalExpected f Hfit).
    fold buf total. destruct (completes total f); reflexivity.
  - destruct Hfit as [_ [_ [Hl _]]].
    rewrite !length_app, !length_putUint32.
    unfold sdkCmdHeaderLength, tcpHeaderLength in *. lia.
  - unfold CmdSdkCmdAnswer. lia.
Qed.

Lemma setRx_same c w : conn (dev w) = Some c -> setRx c (rx c) w = w.
Proof.
  destruct w as [d wi lo pr nc cc hs]. destruct d as [co g cn sh i hl hp].
  cbn. intros ->. destruct c. reflexivity.
Qed.

Lemma length_copyFragment buf f :
  (Z.to_nat (fOffset f) <= length buf)%nat ->
  length (copyFragment buf f) = length buf.
Proof. intros H. unfold copyFragment. apply length_copyInto. lia. Qed.

Lemma length_fold_copyFragment frames :
  forall buf,
    Forall (fragmentFits (length buf)) frames ->
    length (fold_left copyFragment frames buf) = length buf.
Proof.
  induction frames as [|f fs IH]; intros buf Hfit; cbn [fold_left].
  - reflexivity.
  - inversion Hfit as [|? ? Hf Hfs]; subst.
    assert (Hl : length (copyFragment buf f) = length buf).
    { apply length_copyFragment. apply Hf. }
    rewrite IH; [exact Hl | rewrite Hl; exact Hfs].
Qed.

(** Fragments that do not pass the completion test are copied one after
    another and the loop goes on. *)
Lemma assembleLoop_fragments k total :
  forall frames (buf : bytes) (w : World) c (rest : bytes),
    conn (dev w) = Some c -> cclosed c = false ->
    rx c = fragmentStream frames ++ rest ->
    Forall (fragmentFits (length buf)) frames ->
    Forall (fun f => completes total f = false) frames ->
    assembleLoop (length frames + k) (Some buf) total w =
    assembleLoop k (Some (fold_left copyFragment frames buf)) total (setRx c rest w).
Proof.
  induction frames as [|f fs IH]; intros buf w c rest Hconn Hopen Hrx Hfit Hnc.
  - cbn [fragmentStream map concat app] in Hrx. cbn [length Nat.add fold_left].
    rewrite <- Hrx, setRx_same by assumption. reflexivity.
  - inversion Hfit as [|? ? Hf Hfs]; subst.
    inversion Hnc as [|? ? Hcf Hcfs]; subst.
    cbn [length Nat.add fold_left].
    unfold fragmentStream in Hrx. cbn [map concat] in Hrx. rewrite <- app_assoc in Hrx.
    fold (fragmentStream fs) in Hrx.
    rewrite (assembleLoop_fragment _ (Some buf) total f w c _ Hconn Hopen Hrx Hf).
    rewrite Hcf. fold (fragmentStream fs).
    rewrite (IH (copyFragment buf f) (setRx c (fragmentStream fs ++ rest) w)
                (mkConn (fragmentStream fs ++ rest) (wleft c) (cclosed c)) rest).
    + rewrite setRx_setRx by reflexivity. reflexivity.
    + reflexivity.
    + exact Hopen.
    + reflexivity.
    + rewrite length_copyFragment by apply Hf. exact Hfs.
    + exact Hcfs.
Qed.

Lemma length_fragmentFrame f :
  length (fragmentFrame f) = (sdkCmdHeaderLength + length (fChunk f))%nat.
Proof.
  rewrite fragmentFrame_peer, length_peerFrame, !length_app, !length_putUint32.
  unfold sdkCmdHeaderLength, tcpHeaderLength. lia.
Qed.

Lemma length_fragmentStream frames :
  (length frames <= length (fragmentStream frames))%nat.
Proof.
  induction frames as [|f fs IH]; [cbn; lia |].
  unfold fragmentStream in *. cbn [map concat length].
  rewrite length_app, length_fragmentFrame. unfold sdkCmdHeaderLength. lia.
Qed.

(** Reading from a socket that delivers nothing more fails. *)
Lemma assembleLoop_end_of_stream fuel xmlBuf total (w : World) c :
  conn (dev w) = Some c -> cclosed c = false -> rx c = [] ->
  fst (assembleLoop (S fuel) xmlBuf total w) = Err (ErrWrap WrapReadLength ErrIO).
Proof.
  intros Hconn Hopen Hrx. cbn [assembleLoop]. unfold bind, readPacket.
  rewrite Hconn, Hopen, Hrx. reflexivity.
Qed.

(** ** C1: the assembler does not check a fragment against the total *)

(** C1, counterexample. A first fragment that declares a total of 4 bytes
    and carries the 4 bytes [abcd] at offset 2 has offset + length = 6 > 4.
    It is not rejected: the two bytes that fit are copied and the
    response is complete. *)
Lemma assemble_overrun_accepted :
  let f := mkFragment 4 2 (str "abcd") in
  let w := onSocket (mkConn (fragmentFrame f) 0 false) in
  fOffset f + Z.of_nat (length (fChunk f)) > fTotal f /\
  fst (assembleSdkXml w) = Ok [0; 0; 97; 98].
Proof. split; reflexivity. Qed.

(** C1, as the code has it. A fragment frame whose declared offset lies
    inside the buffer is never rejected for its length: [copy] writes the
    bytes of the chunk that fit between the offset and the end of the
    buffer, the buffer keeps its length, and the loop either returns the
    cleaned buffer (when [uint32(offset + len(chunk)) >= totalExpected]) or
    goes on reading. In particular a fragment with
    [offset + len(chunk) > total] completes the response. *)
Theorem fragment_accepted_without_bounds_check
        fuel xmlBuf totalExpected (f : fragment) (w : World) c (rest : bytes) :
  let buf := match xmlBuf with None => make (Z.to_nat (fTotal f)) | Some b => b end in
  let total := match xmlBuf with None => fTotal f | Some _ => totalExpected end in
  let off := Z.to_nat (fOffset f) in
  let n := Nat.min (length buf - off) (length (fChunk f)) in
  conn (dev w) = Some c -> cclosed c = false ->
  rx c = fragmentFrame f ++ rest ->
  fragmentFits (length buf) f ->
  copyFragment buf f = firstn off buf ++ firstn n (fChunk f) ++ skipn (off + n) buf /\
  length (copyFragment buf f) = length buf /\
  assembleLoop (S fuel) xmlBuf totalExpected w =
    (if completes total f then (Ok (cleanXML (copyFragment buf f)), setRx c rest w)
     else assembleLoop fuel (Some (copyFragment buf f)) total (setRx c rest w)) /\
  (total < fOffset f + Z.of_nat (length (fChunk f)) < 2 ^ 32 ->
   assembleLoop (S fuel) xmlBuf totalExpected w =
     (Ok (cleanXML (copyFragment buf f)), setRx c rest w)).
Proof.
  intros buf total off n Hconn Hopen Hrx Hfit.
  assert (Hloop := assembleLoop_fragment fuel xmlBuf totalExpected f w c rest
                                         Hconn Hopen Hrx Hfit).
  cbv zeta in Hloop. fold buf total in Hloop.
  split; [reflexivity |].
  split; [apply length_copyFragment; apply Hfit |].
  split; [exact Hloop |].
  intros Hover. rewrite Hloop.
  destruct Hfit as [_ [Hoff _]].
  unfold completes. rewrite uint32_small by lia.
  destruct (Z.leb_spec total (fOffset f + Z.of_nat (length (fChunk f)))); [reflexivity | lia].
Qed.

Lemma fragment_accepted_without_bounds_check_witness :
  let f := mkFragment 4 2 (str "abcd") in
  let c := mkConn (fragmentFrame f) 0 false in
  assembleLoop 1 None 0 (onSocket c) =
  (Ok (cleanXML (copyFragment (make 4) f)), setRx c [] (onSocket c)).
Proof.
  intros f c.
  refine (proj2 (proj2 (proj2
    (fragment_accepted_without_bounds_check 0 None 0 f (onSocket c) c [] _ _ _ _))) _).
  - reflexivity.
  - reflexivity.
  - reflexivity.
  - repeat split; vm_compute; try congruence; lia.
  - vm_compute. split; reflexivity.
Defined.

(** ** C4: when the assembler returns *)

(** C4, counterexample. The result is not tied to the number of bytes
    received. A single fragment [cd] at offset 2 of a declared total of 4
    yields a result after 2 bytes; and two fragments [ab] at offset 0 of a
    total of 4 bring in 4 bytes without completing the response, which
    ends in a read error when nothing more arrives. *)
Lemma assemble_not_by_byte_count :
  let early := [mkFragment 4 2 (str "cd")] in
  let twice := [mkFragment 4 0 (str "ab"); mkFragment 4 0 (str "ab")] in
  (Z.of_nat (length (concat (map fChunk early))) < 4 /\
   fst (assembleSdkXml (onSocket (mkConn (fragmentStream early) 0 false)))
   = Ok [0; 0; 99; 100]) /\
  (Z.of_nat (length (concat (map fChunk twice))) >= 4 /\
   fst (assembleSdkXml (onSocket (mkConn (fragmentStream twice) 0 false)))
   = Err (ErrWrap WrapReadLength ErrIO)).
Proof. repeat split; vm_compute; congruence. Qed.

Lemma fragmentStream_app a b :
  fragmentStream (a ++ b) = fragmentStream a ++ fragmentStream b.
Proof. unfold fragmentStream. rewrite map_app, concat_app. reflexivity. Qed.

Lemma fragmentStream_cons f fs :
  fragmentStream (f :: fs) = fragmentFrame f ++ fragmentStream fs.
Proof. reflexivity. Qed.

(** The loop from its start over the fragments [pre ++ [lastf]], none of
    [pre] passing the completion test: it arrives at [lastf] with every
    fragment of [pre] copied into the buffer made for the first one. *)
Lemma assembleSdkXml_upto_last (pre : list fragment) (lastf : fragment)
      (w : World) c (rest : bytes) :
  let total := fTotal (hd lastf pre) in
  conn (dev w) = Some c -> cclosed c = false ->
  rx c = fragmentStream (pre ++ [lastf]) ++ rest ->
  Forall (fragmentFits (Z.to_nat total)) (pre ++ [lastf]) ->
  Forall (fun f => completes total f = false) pre ->
  exists k,
    assembleSdkXml w =
    if completes total lastf
    then (Ok (cleanXML (fold_left copyFragment (pre ++ [lastf]) (make (Z.to_nat total)))),
          setRx c rest w)
    else assembleLoop (S k)
           (Some (fold_left copyFragment (pre ++ [lastf]) (make (Z.to_nat total))))
           total (setRx c rest w).
Proof.
  intros total Hconn Hopen Hrx Hfit Hnc.
  unfold assembleSdkXml, rxLength. rewrite Hconn.
  assert (Hlen : (sdkCmdHeaderLength * length (pre ++ [lastf]) <= length (rx c))%nat).
  { rewrite Hrx, (length_app (fragmentStream (pre ++ [lastf])) rest).
    assert (H : forall fs, (sdkCmdHeaderLength * length fs <= length (fragmentStream fs))%nat).
    { induction fs as [|f fs IH]; [cbn; lia |].
      rewrite fragmentStream_cons, length_app, length_fragmentFrame.
      cbn [length]. unfold sdkCmdHeaderLength in *. lia. }
    specialize (H (pre ++ [lastf])). lia. }
  rewrite length_app in Hlen. cbn [length] in Hlen. unfold sdkCmdHeaderLength in Hlen.
  destruct pre as [|first mid].
  - (* the first fragment is the completing one *)
    cbn [app hd] in *. rewrite fragmentStream_cons in Hrx.
    cbn [fragmentStream map concat] in Hrx. rewrite app_nil_r in Hrx.
    inversion Hfit as [|? ? Hf _]; subst.
    assert (Hf' : fragmentFits (length (make (Z.to_nat (fTotal lastf)))) lastf)
      by (rewrite length_make; exact Hf).
    destruct (length (rx c)) as [|k] eqn:Hk; [cbn in Hlen; lia |].
    exists k.
    rewrite (assembleLoop_fragment (S k) None 0 lastf w c rest Hconn Hopen Hrx Hf').
    cbn [fold_left]. reflexivity.
  - cbn [hd] in total. cbn [app] in Hrx, Hfit.
    rewrite fragmentStream_cons, fragmentStream_app, <- !app_assoc in Hrx.
    rewrite (fragmentStream_cons lastf []) in Hrx.
    change (fragmentStream []) with (@nil Z) in Hrx. rewrite app_nil_r in Hrx.
    inversion Hfit as [|? ? Hf Hfs]; subst.
    inversion Hnc as [|? ? Hc Hcs]; subst.
    apply Forall_app in Hfs. destruct Hfs as [Hmid Hlast].
    inversion Hlast as [|? ? Hl _]; subst.
    set (buf0 := make (Z.to_nat total)) in *.
    assert (Hb0 : length buf0 = Z.to_nat total) by apply length_make.
    assert (Hf' : fragmentFits
                    (length (match @None bytes with
                             | None => make (Z.to_nat (fTotal first))
                             | Some b => b
                             end)) first)
      by (fold total; fold buf0; rewrite Hb0; exact Hf).
    rewrite (assembleLoop_fragment _ None 0 first w c _ Hconn Hopen Hrx Hf').
    fold total. fold buf0. rewrite Hc.
    cbn [length] in Hlen.
    assert (Hk : exists k, length (rx c) = (length mid + S (S k))%nat).
    { exists (length (rx c) - length mid - 2)%nat. lia. }
    destruct Hk as [k Hk]. rewrite Hk. exists k.
    set (buf1 := copyFragment buf0 first).
    assert (Hb1 : length buf1 = Z.to_nat total).
    { unfold buf1. rewrite length_copyFragment; [exact Hb0 | rewrite Hb0; apply Hf]. }
    set (r1 := fragmentStream mid ++ fragmentFrame lastf ++ rest) in *.
    rewrite (assembleLoop_fragments (S (S k)) total mid buf1 (setRx c r1 w)
               (mkConn r1 (wleft c) (cclosed c)) (fragmentFrame lastf ++ rest));
      [| reflexivity | exact Hopen | reflexivity | rewrite Hb1; exact Hmid | exact Hcs].
    rewrite setRx_setRx by reflexivity.
    set (buf2 := fold_left copyFragment mid buf1).
    assert (Hb2 : length buf2 = Z.to_nat total).
    { unfold buf2. rewrite length_fold_copyFragment; [exact Hb1 | rewrite Hb1; exact Hmid]. }
    rewrite (assembleLoop_fragment (S k) (Some buf2) total lastf
               (setRx c (fragmentFrame lastf ++ rest) w)
               (mkConn (fragmentFrame lastf ++ rest) (wleft c) (cclosed c)) rest);
      [| reflexivity | exact Hopen | reflexivity | rewrite Hb2; exact Hl].
    rewrite setRx_setRx by reflexivity.
    cbn [fold_left]. rewrite fold_left_app. cbn [fold_left].
    fold buf0. fold buf1. fold buf2. reflexivity.
Qed.

(** C4, as the code has it. The buffer is made once, with the total
    length the first fragment declares, and every fragment is copied into
    it at its declared offset. The result is returned at the first
    fragment for which [uint32(offset + len(chunk)) >= totalExpected] and
    no earlier: with such a fragment last, the cleaned buffer is the result
    and the bytes after that frame stay unread; with no such fragment the
    loop reads on, and fails when the peer sends nothing more. No count
    of received bytes is kept. *)
Theorem assembleSdkXml_returns_at_completing_fragment
        (pre : list fragment) (lastf : fragment) (w : World) c (rest : bytes) :
  let frames := pre ++ [lastf] in
  let total := fTotal (hd lastf pre) in
  let buf := fold_left copyFragment frames (make (Z.to_nat total)) in
  conn (dev w) = Some c -> cclosed c = false ->
  rx c = fragmentStream frames ++ rest ->
  Forall (fragmentFits (Z.to_nat total)) frames ->
  Forall (fun f => completes total f = false) pre ->
  length buf = Z.to_nat total /\
  (completes total lastf = true ->
   assembleSdkXml w = (Ok (cleanXML buf), setRx c rest w)) /\
  (completes total lastf = false -> rest = [] ->
   fst (assembleSdkXml w) = Err (ErrWrap WrapReadLength ErrIO)).
Proof.
  intros frames total buf Hconn Hopen Hrx Hfit Hnc.
  destruct (assembleSdkXml_upto_last pre lastf w c rest Hconn Hopen Hrx Hfit Hnc)
    as [k Hrun].
  fold total in Hrun. fold frames in Hrun. fold buf in Hrun.
  split; [| split].
  - unfold buf. rewrite length_fold_copyFragment; rewrite length_make;
      [reflexivity | exact Hfit].
  - intros Hc. rewrite Hrun, Hc. reflexivity.
  - intros Hc ->. rewrite Hrun, Hc.
    apply (assembleLoop_end_of_stream k (Some buf) total (setRx c [] w)
             (mkConn [] (wleft c) (cclosed c))); [reflexivity | exact Hopen | reflexivity].
Qed.

Lemma assembleSdkXml_returns_at_completing_fragment_witness :
  let pre := [mkFragment 6 0 (str "<a"); mkFragment 6 2 (str "b>")] in
  let lastf := mkFragment 6 4 (str "c/") in
  let c := mkConn (fragmentStream (pre ++ [lastf]) ++ [1; 2; 3]) 0 false in
  assembleSdkXml (onSocket c) = (Ok (str "<ab>c/"), setRx c [1; 2; 3] (onSocket c)).
Proof.
  intros pre lastf c.
  refine (proj1 (proj2
    (assembleSdkXml_returns_at_completing_fragment pre lastf (onSocket c) c [1; 2; 3]
       _ _ _ _ _)) _).
  - reflexivity.
  - reflexivity.
  - reflexivity.
  - repeat constructor; vm_compute; try congruence; lia.
  - repeat constructor.
  - reflexivity.
Defined.

(** ** C3: request fragments through the assembler *)

Lemma firstn_add_slice (s : bytes) o l :
  (o + l <= length s)%nat -> firstn (o + l) s = firstn o s ++ slice s o (o + l).
Proof.
  intros H. unfold slice.
  rewrite <- (firstn_skipn o s) at 1.
  rewrite firstn_app, firstn_firstn, length_firstn.
  replace (Nat.min (o + l) o) with o by lia.
  replace (o + l - Nat.min o (length s))%nat with (o + l - o)%nat by lia.
  reflexivity.
Qed.

Lemma skipn_make l n : skipn l (make n) = make (n - l).
Proof.
  unfold make. revert n. induction l as [|l IH]; intros n.
  - rewrite Nat.sub_0_r. reflexivity.
  - destruct n as [|n]; [reflexivity | cbn [repeat skipn Nat.sub]; apply IH].
Qed.

(** Copying the chunk [xml[o : o+l]] at offset [o] into a buffer that
    holds the first [o] bytes of [xml] extends the prefix to [o + l]. *)
Lemma copyInto_prefix (xml : bytes) o l :
  (o + l <= length xml)%nat ->
  copyInto (firstn o xml ++ make (length xml - o)) o (length xml)
           (slice xml o (o + l))
  = firstn (o + l) xml ++ make (length xml - (o + l)).
Proof.
  intros H. unfold copyInto.
  assert (Hs : length (slice xml o (o + l)) = l) by (rewrite length_slice; lia).
  assert (Hf : length (firstn o xml) = o) by (rewrite length_firstn; lia).
  rewrite Hs. replace (Nat.min (length xml - o) l) with l by lia.
  rewrite firstn_app, Hf, Nat.sub_diag, firstn_O, app_nil_r.
  rewrite <- Hf at 1. rewrite firstn_all.
  rewrite <- Hs at 1. rewrite firstn_all.
  rewrite skipn_app, Hf.
  rewrite (skipn_all2 (firstn o xml)) by lia. cbn [app].
  replace (o + l - o)%nat with l by lia.
  rewrite skipn_make, app_assoc, <- firstn_add_slice by lia.
  f_equal. f_equal. lia.
Qed.

Lemma echoFrame_sdkFrame totalLen offset chunk :
  echoFrame (sdkFrame CmdSdkCmdAsk totalLen offset chunk) =
  fragmentFrame (mkFragment (uint32 (Z.of_nat totalLen)) (uint32 (Z.of_nat offset)) chunk).
Proof. reflexivity. Qed.

Lemma echoPeer_cons f fs : echoPeer (f :: fs) = echoFrame f ++ echoPeer fs.
Proof. reflexivity. Qed.

Lemma assembleLoop_echo (xml : bytes) :
  Z.of_nat (length xml) < 2 ^ 32 ->
  forall frames offset k xmlBuf totalExpected (w : World) c (rest : bytes),
    frames <> [] ->
    sdkFragments xml offset frames ->
    assembledUpTo xml offset xmlBuf totalExpected ->
    conn (dev w) = Some c -> cclosed c = false ->
    rx c = echoPeer frames ++ rest ->
    assembleLoop (length frames + k) xmlBuf totalExpected w =
    (Ok (cleanXML xml), setRx c rest w).
Proof.
  intros HN. induction frames as [|f fs IH];
    intros offset k xmlBuf totalExpected w c rest Hne Hfr Hst Hconn Hopen Hrx;
    [congruence |].
  cbn [sdkFragments] in Hfr.
  destruct Hfr as [chunk [Hf [Hlen [Hchunk [Hle Hrest]]]]].
  set (l := length chunk) in *.
  rewrite echoPeer_cons, Hf, echoFrame_sdkFrame, <- app_assoc in Hrx.
  rewrite !uint32_small in Hrx by lia.
  set (frag := mkFragment (Z.of_nat (length xml)) (Z.of_nat offset) chunk) in *.
  set (buf := firstn offset xml ++ make (length xml - offset)).
  assert (Hbuflen : length buf = length xml).
  { unfold buf. rewrite length_app, length_firstn, length_make. lia. }
  assert (Hbuf : match xmlBuf with
                 | None => make (Z.to_nat (fTotal frag))
                 | Some b => b
                 end = buf).
  { unfold assembledUpTo in Hst. destruct xmlBuf as [b |].
    - apply Hst.
    - subst offset. unfold buf, frag. cbn [fTotal firstn app].
      rewrite Nat2Z.id, Nat.sub_0_r. reflexivity. }
  assert (Htot : match xmlBuf with
                 | None => fTotal frag
                 | Some _ => totalExpected
                 end = Z.of_nat (length xml)).
  { unfold assembledUpTo in Hst. destruct xmlBuf as [b |]; [apply Hst | reflexivity]. }
  assert (Hfit : fragmentFits (length buf) frag).
  { unfold fragmentFits, frag. cbn [fTotal fOffset fChunk]. fold l.
    rewrite MaxContentLength_val in Hlen. unfold sdkCmdHeaderLength.
    rewrite Hbuflen, Nat2Z.id. repeat split; lia. }
  cbn [length Nat.add].
  pose proof (assembleLoop_fragment (length fs + k) xmlBuf totalExpected frag w c
                                    (echoPeer fs ++ rest) Hconn Hopen Hrx) as Hstep.
  cbv zeta in Hstep. rewrite Hbuf, Htot in Hstep. rewrite (Hstep Hfit).
  assert (Hcopy : copyFragment buf frag
                  = firstn (offset + l) xml ++ make (length xml - (offset + l))).
  { unfold copyFragment, frag. cbn [fOffset fChunk].
    rewrite Nat2Z.id, Hbuflen.
    unfold buf. rewrite Hchunk. apply copyInto_prefix. exact Hle. }
  unfold completes. unfold frag at 1 2. cbn [fOffset fChunk]. fold l.
  rewrite uint32_small by lia.
  destruct fs as [|f' fs'].
  - (* the last fragment ends at len(xml) and completes the buffer *)
    cbn [sdkFragments] in Hrest.
    destruct (Z.leb_spec (Z.of_nat (length xml)) (Z.of_nat offset + Z.of_nat l)); [| lia].
    rewrite Hcopy, Hrest, firstn_all, Nat.sub_diag. cbn [make repeat].
    rewrite app_nil_r. cbn [echoPeer map concat app]. reflexivity.
  - assert (Hmore : (offset + l < length xml)%nat).
    { cbn [sdkFragments] in Hrest. destruct Hrest as [ch' [_ [Hl' [_ [Hle' _]]]]]. lia. }
    destruct (Z.leb_spec (Z.of_nat (length xml)) (Z.of_nat offset + Z.of_nat l)); [lia |].
    rewrite (IH (offset + l)%nat k _ _ _
                (mkConn (echoPeer (f' :: fs') ++ rest) (wleft c) (cclosed c)) rest).
    + rewrite setRx_setRx by reflexivity. reflexivity.
    + discriminate.
    + exact Hrest.
    + unfold assembledUpTo. split; [exact Hcopy | reflexivity].
    + reflexivity.
    + exact Hopen.
    + reflexivity.
Qed.

Lemma length_echoPeer (xml : bytes) :
  forall frames offset,
    sdkFragments xml offset frames ->
    (length frames <= length (echoPeer frames))%nat.
Proof.
  induction frames as [|f fs IH]; intros offset H; [cbn; lia |].
  cbn [sdkFragments] in H. destruct H as [chunk [Hf [_ [_ [_ Hrest]]]]].
  rewrite echoPeer_cons, length_app, Hf, echoFrame_sdkFrame, length_fragmentFrame.
  specialize (IH _ Hrest). cbn [length]. unfold sdkCmdHeaderLength. lia.
Qed.

(** C3, counterexample. For the empty payload (N = 0) there is no frame to
    feed back and the assembler fails on its first read; a payload that is
    a single space (N = 1) comes back empty, because the cleanup trims it;
    and frames fed back as they were built, with the command type of a
    request, are refused. *)
Lemma roundtrip_fails :
  (buildSdkCmdPackets [] = [] /\
   fst (assembleSdkXml (onSocket (mkConn (echoPeer (buildSdkCmdPackets [])) 0 false)))
   = Err (ErrWrap WrapReadLength ErrIO)) /\
  fst (assembleSdkXml (onSocket (mkConn (echoPeer (buildSdkCmdPackets [32])) 0 false)))
  = Ok [] /\
  fst (assembleSdkXml (onSocket (mkConn (concat (buildSdkCmdPackets (str "x"))) 0 false)))
  = Err (ErrUnexpectedCmd CmdSdkCmdAsk).
Proof. repeat split; vm_compute; reflexivity. Qed.

(** C3, as the code has it. For every non-empty payload (so for the sizes
    1, 8000, 8001 and 24000) whose length fits the 32-bit header field,
    the fragments of [buildSdkCmdPackets], sent back by a peer that marks
    them as answers, are reassembled into [cleanXML] of the payload: the
    payload itself when it has no byte order mark and no white space at
    either end. The bytes that follow the last fragment stay unread. *)
Theorem echoed_request_reassembles (xml : bytes) (w : World) c (rest : bytes) :
  (1 <= length xml)%nat -> Z.of_nat (length xml) < 2 ^ 32 ->
  conn (dev w) = Some c -> cclosed c = false ->
  rx c = echoPeer (buildSdkCmdPackets xml) ++ rest ->
  assembleSdkXml w = (Ok (cleanXML xml), setRx c rest w) /\
  (cleanXML xml = xml -> fst (assembleSdkXml w) = Ok xml).
Proof.
  intros Hne HN Hconn Hopen Hrx.
  assert (Hrun : assembleSdkXml w = (Ok (cleanXML xml), setRx c rest w)).
  { pose proof (buildSdkCmdPackets_sdkFragments xml) as Hfr.
    assert (Hnil : buildSdkCmdPackets xml <> []).
    { intros E. rewrite E in Hfr. cbn [sdkFragments] in Hfr. lia. }
    pose proof (length_echoPeer xml _ _ Hfr) as Hlen.
    unfold assembleSdkXml, rxLength. rewrite Hconn.
    replace (S (length (rx c)))
      with (length (buildSdkCmdPackets xml)
            + (S (length (rx c)) - length (buildSdkCmdPackets xml)))%nat
      by (rewrite Hrx, length_app; lia).
    apply (assembleLoop_echo xml HN _ 0%nat _ None 0 w c rest Hnil Hfr);
      [reflexivity | assumption | assumption | assumption]. }
  split; [exact Hrun |].
  intros Hclean. rewrite Hrun, Hclean. reflexivity.
Qed.

Lemma echoed_request_reassembles_witness :
  let xml := repeat 120 (Z.to_nat 8001) in
  let c := mkConn (echoPeer (buildSdkCmdPackets xml) ++ [7]) 0 false in
  fst (assembleSdkXml (onSocket c)) = Ok xml.
Proof.
  intros xml c.
  refine (proj2 (echoed_request_reassembles xml (onSocket c) c [7] _ _ _ _ _) _).
  - unfold xml. rewrite repeat_length. lia.
  - unfold xml. rewrite repeat_length. lia.
  - reflexivity.
  - reflexivity.
  - reflexivity.
  - vm_compute. reflexivity.
Defined.

(** ** Steps of the monad on an open socket *)

Lemma bind_Ok {A B} (c : M A) (k : A -> M B) w a w' :
  c w = (Ok a, w') -> bind c k w = k a w'.
Proof. intros H. unfold bind. rewrite H. reflexivity. Qed.

Lemma bind_Err {A B} (c : M A) (k : A -> M B) w e w' :
  c w = (Err e, w') -> bind c k w = (Err e, w').
Proof. intros H. unfold bind. rewrite H. reflexivity. Qed.

Lemma wrapErr_Ok {A} site (c : M A) w a w' :
  c w = (Ok a, w') -> wrapErr site c w = (Ok a, w').
Proof. intros H. unfold wrapErr. rewrite H. reflexivity. Qed.

Lemma logf_spec m w :
  exists w', logf m w = (Ok tt, w') /\ dev w' = dev w /\ wire w' = wire w.
Proof.
  unfold logf. destruct (hasLogger (dev w)); eexists; repeat split; reflexivity.
Qed.

Lemma logf_run m w : logf m w = (Ok tt, snd (logf m w)).
Proof. reflexivity. Qed.

Lemma logf_fields m w :
  dev (snd (logf m w)) = dev w /\
  nextChan (snd (logf m w)) = nextChan w /\
  hbStarted (snd (logf m w)) = hbStarted w /\
  logs (snd (logf m w)) = (if hasLogger (dev w) then logs w ++ [m] else logs w).
Proof. unfold logf. destruct (hasLogger (dev w)); cbn; repeat split; reflexivity. Qed.

Lemma try_Ok {A} (c : M A) w a w' : c w = (Ok a, w') -> try c w = (Ok (None, Some a), w').
Proof. intros E. unfold try. rewrite E. reflexivity. Qed.

Lemma try_Err {A} (c : M A) w e w' : c w = (Err e, w') -> try c w = (Ok (Some e, None), w').
Proof. intros E. unfold try. rewrite E. reflexivity. Qed.

Lemma onProgress_spec sent total w :
  exists w', onProgress sent total w = (Ok tt, w') /\ dev w' = dev w /\ wire w' = wire w.
Proof.
  unfold onProgress. destruct (hasOnProgress (dev w)); eexists; repeat split; reflexivity.
Qed.

Lemma onConn_dev w w' r n : dev w' = dev w -> onConn w r n -> onConn w' r n.
Proof. unfold onConn. intros ->. trivial. Qed.

Lemma sendRaw_onConn data w r n :
  onConn w r (S n) ->
  exists w', sendRaw data w = (Ok tt, w') /\ onConn w' r n /\
             wire w' = wire w ++ [data] /\
             connected (dev w') = connected (dev w).
Proof.
  unfold onConn, sendRaw. intros ->. cbn.
  eexists; repeat split; reflexivity.
Qed.

Lemma readPacket_onConn w cmd payload rest n :
  onConn w (peerFrame cmd payload ++ rest) n ->
  Z.of_nat (tcpHeaderLength + length payload) < 2 ^ 16 ->
  0 <= cmd < 2 ^ 16 ->
  exists w', readPacket w = (Ok (peerFrame cmd payload, cmd), w') /\
             onConn w' rest n /\ wire w' = wire w.
Proof.
  intros Hc Hl Hcmd.
  rewrite (readPacket_peerFrame w _ cmd payload rest Hc eq_refl eq_refl Hl Hcmd).
  eexists; repeat split; reflexivity.
Qed.

Lemma readPacket_wire w : wire (snd (readPacket w)) = wire w.
Proof.
  unfold readPacket. destruct (conn (dev w)) as [c |]; [| reflexivity].
  destruct (cclosed c); [reflexivity |].
  repeat match goal with
         | |- context [if ?b then _ else _] => destruct b
         end; reflexivity.
Qed.

(** ** C5: the content frames of an upload *)

Lemma copyInto_content n (h1 h2 data : bytes) :
  length h1 = 2%nat -> length h2 = 2%nat -> length data = n ->
  copyInto (copyInto (copyInto (make (4 + n)) 0 2 h1) 2 4 h2) 4 (4 + n) data
  = h1 ++ h2 ++ data.
Proof.
  intros H1 H2 Hn.
  destruct h1 as [|a1 [|a2 [|]]]; try discriminate.
  destruct h2 as [|b1 [|b2 [|]]]; try discriminate.
  unfold copyInto, make. cbn [repeat Nat.add length Nat.sub Nat.min firstn skipn app].
  rewrite Hn, Nat.sub_0_r, Nat.min_id.
  rewrite <- Hn at 1. rewrite firstn_all.
  rewrite skipn_all2 by (rewrite repeat_length; lia).
  rewrite app_nil_r. reflexivity.
Qed.

Lemma buildFileContentPacket_layout (data : bytes) :
  (length data <= MaxContentLength)%nat ->
  buildFileContentPacket data =
  putUint16 (Z.of_nat (tcpHeaderLength + length data)) ++
  putUint16 CmdFileContentAsk ++ data.
Proof.
  intros H. rewrite MaxContentLength_val in H.
  unfold buildFileContentPacket. change tcpHeaderLength with 4%nat.
  rewrite copyInto_content by (auto using length_putUint16).
  rewrite uint16_small by lia.
  rewrite (uint16_small CmdFileContentAsk) by (unfold CmdFileContentAsk; lia).
  reflexivity.
Qed.

Lemma contentEnd_spec total offset :
  contentEnd total offset = Nat.min total (offset + MaxContentLength).
Proof.
  unfold contentEnd.
  destruct (Nat.ltb_spec total (offset + MaxContentLength)); lia.
Qed.

(** Phase 2 on a socket that accepts the writes: the frames written are
    the content frames from [offset] on, and nothing is read. *)
Lemma sendContent_frames (fileData : bytes) :
  forall fuel offset w r n,
    (length fileData - offset <= fuel)%nat ->
    (length fileData - offset <= n)%nat ->
    onConn w r n ->
    exists frames w',
      sendContent fuel fileData offset w = (Ok tt, w') /\
      wire w' = wire w ++ frames /\
      ((offset <= length fileData)%nat -> contentFrames fileData offset frames) /\
      onConn w' r (n - length frames) /\
      (length frames <= length fileData - offset)%nat.
Proof.
  induction fuel as [|fuel IH]; intros offset w r n Hfuel Hn Hc.
  - exists [], w. cbn [sendContent contentFrames length]. rewrite app_nil_r, Nat.sub_0_r.
    repeat split; first [assumption | lia | reflexivity].
  - cbn [sendContent].
    destruct (Nat.ltb_spec offset (length fileData)) as [Hlt | Hge].
    + set (e := contentEnd (length fileData) offset).
      assert (He : (offset < e <= length fileData)%nat /\ (e - offset <= MaxContentLength)%nat).
      { unfold e. rewrite contentEnd_spec, MaxContentLength_val. lia. }
      set (payload := slice fileData offset e).
      assert (Hpl : length payload = (e - offset)%nat).
      { unfold payload. rewrite length_slice; lia. }
      destruct n as [|n]; [lia |].
      destruct (sendRaw_onConn (buildFileContentPacket payload) w r n Hc)
        as [w1 [Hs [Hc1 [Hw1 _]]]].
      destruct (onProgress_spec e (length fileData) w1) as [w2 [Hp [Hd2 Hw2]]].
      destruct (IH e w2 r n) as [frames [w' [Hrun [Hw' [Hfr [Hc' Hlen]]]]]];
        [lia | lia | exact (onConn_dev _ _ _ _ Hd2 Hc1) |].
      specialize (Hfr (proj2 (proj1 He))).
      exists (buildFileContentPacket payload :: frames), w'.
      split; [| split; [| split; [| split]]].
      * rewrite (bind_Ok _ _ w tt w1) by (apply wrapErr_Ok; exact Hs).
        rewrite (bind_Ok _ _ w1 tt w2 Hp). exact Hrun.
      * rewrite Hw', Hw2, Hw1, <- app_assoc. reflexivity.
      * intros _. cbn [contentFrames]. exists payload.
        split; [apply buildFileContentPacket_layout; lia |].
        rewrite Hpl. replace (offset + (e - offset))%nat with e by lia.
        pose proof (contentEnd_spec (length fileData) offset) as Hes. fold e in Hes.
        repeat split; first [lia | assumption | reflexivity].
      * cbn [length]. exact Hc'.
      * cbn [length]. lia.
    + exists [], w. cbn [contentFrames length]. rewrite app_nil_r, Nat.sub_0_r.
      repeat split; first [assumption | lia | reflexivity].
Qed.

Lemma contentFrames_concat (fileData : bytes) :
  forall frames offset,
    contentFrames fileData offset frames ->
    concat (map contentPayload frames) = skipn offset fileData.
Proof.
  induction frames as [|f rest IH]; intros offset H; cbn [contentFrames] in H.
  - subst offset. rewrite skipn_all. reflexivity.
  - destruct H as [payload [Hf [Hlen [_ [Hp [Hle Hrest]]]]]].
    cbn [map concat]. rewrite (IH _ Hrest), Hf.
    replace (contentPayload (putUint16 (Z.of_nat (tcpHeaderLength + length payload)) ++
                             putUint16 CmdFileContentAsk ++ payload))
      with payload by reflexivity.
    rewrite Hp at 1. apply slice_app_skipn. lia.
Qed.

Lemma parseFileStartResponse_answer code existBytes extra :
  0 <= code < 2 ^ 16 -> 0 <= existBytes < 2 ^ 32 ->
  parseFileStartResponse (fileStartAnswer code existBytes extra) = Some (code, existBytes).
Proof.
  intros Hc He. unfold parseFileStartResponse.
  destruct (Nat.ltb_spec (length (fileStartAnswer code existBytes extra)) 10) as [Hbad | _].
  { unfold fileStartAnswer in Hbad. rewrite length_peerFrame in Hbad.
    rewrite !length_app, length_putUint16, length_putUint32 in Hbad.
    unfold tcpHeaderLength in Hbad. lia. }
  replace (slice (fileStartAnswer code existBytes extra) 4 6)
    with (putUint16 code) by reflexivity.
  replace (slice (fileStartAnswer code existBytes extra) 6 10)
    with (putUint32 existBytes) by reflexivity.
  rewrite getUint16_putUint16, getUint32_putUint32 by assumption. reflexivity.
Qed.

Lemma parseFileEndResponse_answer code extra :
  0 <= code < 2 ^ 16 ->
  parseFileEndResponse (fileEndAnswer code extra) = Some code.
Proof.
  intros Hc. unfold parseFileEndResponse.
  destruct (Nat.ltb_spec (length (fileEndAnswer code extra)) 6) as [Hbad | _].
  { unfold fileEndAnswer in Hbad. rewrite length_peerFrame in Hbad.
    rewrite !length_app, length_putUint16 in Hbad.
    unfold tcpHeaderLength in Hbad. lia. }
  replace (slice (fileEndAnswer code extra) 4 6) with (putUint16 code) by reflexivity.
  rewrite getUint16_putUint16 by assumption. reflexivity.
Qed.

(** Phases 1 and 2 of [UploadFileData] when the device accepts the start
    and reports [K] bytes it already holds: the start packet and the
    content frames from [K] on are written, and the upload goes on with
    phase 3. *)
Lemma UploadFileData_upto_end `{GoRuntime} (fileName fileData : bytes) (fileType : Z)
      (w : World) (K : Z) (extra rest : bytes) (n : nat) :
  onConn w (fileStartAnswer ErrSuccess K extra ++ rest) n ->
  connected (dev w) = true ->
  0 <= K < 2 ^ 32 ->
  Z.of_nat (10 + length extra) < 2 ^ 16 ->
  (length fileData + 2 <= n)%nat ->
  exists frames w2,
    UploadFileData fileName fileData fileType w =
      (fileEndPhase ;;; logf (LogUploadDone fileName (length fileData))) w2 /\
    wire w2 = wire w ++ [startPacketOf fileName fileData fileType] ++ frames /\
    (K <= Z.of_nat (length fileData) -> contentFrames fileData (Z.to_nat K) frames) /\
    onConn w2 rest (n - 1 - length frames) /\
    (length frames <= length fileData)%nat.
Proof.
  intros Hc Hconn HK Hlen Hn.
  unfold UploadFileData.
  assert (He : ensureConnected w = (Ok tt, w)).
  { unfold ensureConnected, bind, getDev. rewrite Hc, Hconn. reflexivity. }
  rewrite (bind_Ok _ _ w tt w He).
  destruct (logf_spec (LogUploadStart fileName (length fileData)) w) as [w0 [Hl [Hd0 Hw0]]].
  rewrite (bind_Ok _ _ w tt w0 Hl).
  destruct n as [|n]; [lia |].
  destruct (sendRaw_onConn (startPacketOf fileName fileData fileType) w0 _ n
                           (onConn_dev _ _ _ _ Hd0 Hc))
    as [w1 [Hs [Hc1 [Hw1 _]]]].
  fold (startPacketOf fileName fileData fileType).
  rewrite (bind_Ok _ _ w0 tt w1) by (apply wrapErr_Ok; exact Hs).
  unfold fileStartAnswer in Hc1.
  destruct (readPacket_onConn w1 CmdFileStartAnswer _ rest n Hc1) as [wr [Hr [Hcr Hwr]]].
  { rewrite !length_app, length_putUint16, length_putUint32.
    unfold tcpHeaderLength. lia. }
  { unfold CmdFileStartAnswer. lia. }
  rewrite (bind_Ok _ _ w1 _ wr) by (apply wrapErr_Ok; exact Hr).
  cbv beta iota. rewrite Z.eqb_refl. cbn [negb].
  fold (fileStartAnswer ErrSuccess K extra).
  rewrite parseFileStartResponse_answer by (unfold ErrSuccess; lia).
  rewrite Z.eqb_refl. cbn [negb].
  destruct (sendContent_frames fileData (length fileData) (Z.to_nat K) wr rest n)
    as [frames [w2 [Hrun [Hw2 [Hfr [Hc2 Hfl]]]]]]; [lia | lia | exact Hcr |].
  exists frames, w2.
  split; [| split; [| split; [| split]]].
  - rewrite (bind_Ok _ _ wr tt w2 Hrun). reflexivity.
  - rewrite Hw2, Hwr, Hw1, Hw0, <- app_assoc. reflexivity.
  - intros HKle. apply Hfr. lia.
  - replace (S n - 1 - length frames)%nat with (n - length frames)%nat by lia. exact Hc2.
  - lia.
Qed.

Lemma fileEndPhase_wire w r n :
  onConn w r (S n) -> wire (snd (fileEndPhase w)) = wire w ++ [buildFileEndPacket].
Proof.
  intros Hc. unfold fileEndPhase.
  destruct (sendRaw_onConn buildFileEndPacket w r n Hc) as [w1 [Hs [_ [Hw1 _]]]].
  rewrite (bind_Ok _ _ w tt w1) by (apply wrapErr_Ok; exact Hs).
  rewrite <- Hw1, <- (readPacket_wire w1).
  unfold bind, wrapErr.
  destruct (readPacket w1) as [[[data cmdType] | e |] w1']; cbn [snd]; try reflexivity.
  destruct (negb (cmdType =? CmdFileEndAnswer)); [reflexivity |].
  destruct (parseFileEndResponse data) as [code |]; [| reflexivity].
  destruct (negb (code =? ErrSuccess) && negb (code =? ErrWriteFinish)); reflexivity.
Qed.

Lemma fileEndPhase_result w code extra rest n :
  onConn w (fileEndAnswer code extra ++ rest) (S n) ->
  0 <= code < 2 ^ 16 ->
  Z.of_nat (6 + length extra) < 2 ^ 16 ->
  exists w',
    fileEndPhase w =
    ((if (code =? ErrSuccess) || (code =? ErrWriteFinish)
      then Ok tt else Err (ErrFileEnd code)), w').
Proof.
  intros Hc Hcode Hlen. unfold fileEndPhase.
  destruct (sendRaw_onConn buildFileEndPacket w _ n Hc) as [w1 [Hs [Hc1 _]]].
  rewrite (bind_Ok _ _ w tt w1) by (apply wrapErr_Ok; exact Hs).
  unfold fileEndAnswer in Hc1.
  destruct (readPacket_onConn w1 CmdFileEndAnswer _ rest n Hc1) as [wr [Hr _]].
  { rewrite !length_app, length_putUint16. unfold tcpHeaderLength. lia. }
  { unfold CmdFileEndAnswer. lia. }
  rewrite (bind_Ok _ _ w1 _ wr) by (apply wrapErr_Ok; exact Hr).
  cbv beta iota. rewrite Z.eqb_refl. cbn [negb].
  fold (fileEndAnswer code extra).
  rewrite parseFileEndResponse_answer by assumption.
  exists wr.
  destruct (code =? ErrSuccess), (code =? ErrWriteFinish); reflexivity.
Qed.

Lemma contentPayload_frame payload :
  contentPayload (putUint16 (Z.of_nat (tcpHeaderLength + length payload)) ++
                  putUint16 CmdFileContentAsk ++ payload) = payload.
Proof. reflexivity. Qed.

(** A 20000-byte upload from offset 0 has exactly three content frames,
    of 8000, 8000 and 4000 bytes. *)
Lemma contentFrames_20000 (fileData : bytes) frames :
  Z.of_nat (length fileData) = 20000 ->
  contentFrames fileData 0 frames ->
  map (fun f => Z.of_nat (length (contentPayload f))) frames = [8000; 8000; 4000].
Proof.
  intros HS H.
  pose proof MaxContentLength_val as HM.
  destruct frames as [|f1 frames]; cbn [contentFrames] in H; [lia |].
  destruct H as [p1 [Hf1 [Hb1 [Hl1 [_ [_ H]]]]]].
  destruct frames as [|f2 frames]; cbn [contentFrames] in H; [lia |].
  destruct H as [p2 [Hf2 [Hb2 [Hl2 [_ [_ H]]]]]].
  destruct frames as [|f3 frames]; cbn [contentFrames] in H; [lia |].
  destruct H as [p3 [Hf3 [Hb3 [Hl3 [_ [_ H]]]]]].
  destruct frames as [|f4 frames]; cbn [contentFrames] in H.
  - subst f1 f2 f3. cbn [map]. rewrite !contentPayload_frame.
    repeat f_equal; lia.
  - destruct H as [p4 [_ [Hb4 [Hl4 _]]]]. lia.
Qed.

(** C5. When the device accepts the file start and reports [K] bytes it
    already holds, [0 <= K <= len(fileData)], and the socket takes the
    writes, [UploadFileData] writes the start packet, then content frames
    whose payloads are, in order, the pieces of at most 8000 bytes of
    [fileData[K:]] (each piece starts where the one before ended, the last
    one ends at [len(fileData)]), then the end packet, and nothing else; for
    20000 bytes and [K = 0] the payloads have 8000, 8000 and 4000 bytes. *)
Theorem UploadFileData_sends_remaining_bytes `{GoRuntime}
        (fileName fileData : bytes) (fileType : Z)
        (w : World) (K : Z) (extra rest : bytes) (n : nat) :
  onConn w (fileStartAnswer ErrSuccess K extra ++ rest) n ->
  connected (dev w) = true ->
  0 <= K <= Z.of_nat (length fileData) -> K < 2 ^ 32 ->
  Z.of_nat (10 + length extra) < 2 ^ 16 ->
  (length fileData + 2 <= n)%nat ->
  exists frames,
    wire (snd (UploadFileData fileName fileData fileType w)) =
      wire w ++ [startPacketOf fileName fileData fileType] ++ frames ++
      [buildFileEndPacket] /\
    contentFrames fileData (Z.to_nat K) frames /\
    concat (map contentPayload frames) = skipn (Z.to_nat K) fileData /\
    Forall (fun f => (length (contentPayload f) <= MaxContentLength)%nat) frames /\
    (Z.of_nat (length fileData) = 20000 -> K = 0 ->
     map (fun f => Z.of_nat (length (contentPayload f))) frames = [8000; 8000; 4000]).
Proof.
  intros Hc Hconn HK HK32 Hlen Hn.
  destruct (UploadFileData_upto_end fileName fileData fileType w K extra rest n
              Hc Hconn (conj (proj1 HK) HK32) Hlen Hn)
    as [frames [w2 [Hrun [Hw2 [Hfr [Hc2 Hfl]]]]]].
  specialize (Hfr (proj2 HK)).
  exists frames.
  split; [| split; [exact Hfr | split; [apply contentFrames_concat; exact Hfr | split]]].
  - rewrite Hrun.
    assert (Hend : wire (snd (fileEndPhase w2)) = wire w2 ++ [buildFileEndPacket]).
    { apply (fileEndPhase_wire w2 rest (n - 2 - length frames)).
      replace (S (n - 2 - length frames)) with (n - 1 - length frames)%nat by lia.
      exact Hc2. }
    unfold bind. destruct (fileEndPhase w2) as [[[] | e |] w3]; cbn [snd] in *.
    + destruct (logf_spec (LogUploadDone fileName (length fileData)) w3)
        as [w4 [Hl [_ Hw4]]].
      rewrite Hl. cbn [snd]. rewrite Hw4, Hend, Hw2, <- !app_assoc. reflexivity.
    + rewrite Hend, Hw2, <- !app_assoc. reflexivity.
    + rewrite Hend, Hw2, <- !app_assoc. reflexivity.
  - clear - Hfr. revert Hfr. generalize (Z.to_nat K).
    induction frames as [|f fs IH]; intros o Hfr; constructor.
    + cbn [contentFrames] in Hfr. destruct Hfr as [p [Hf [Hb _]]].
      rewrite Hf, contentPayload_frame. lia.
    + cbn [contentFrames] in Hfr. destruct Hfr as [p [_ [_ [_ [_ [_ Hrest]]]]]].
      exact (IH _ Hrest).
  - intros HS HK0. subst K. apply (contentFrames_20000 fileData); assumption.
Qed.

Lemma UploadFileData_sends_remaining_bytes_witness :
  let fileData := repeat 7 (Z.to_nat 20000) in
  let w := onSocket (mkConn (fileStartAnswer 0 0 [] ++ fileEndAnswer 0 [])
                            (Z.to_nat 30000) false) in
  exists frames,
    wire (snd (UploadFileData (H := exampleRuntime) (str "a.jpg") fileData 0 w)) =
      [startPacketOf (H := exampleRuntime) (str "a.jpg") fileData 0] ++ frames ++
      [buildFileEndPacket] /\
    concat (map contentPayload frames) = fileData /\
    map (fun f => Z.of_nat (length (contentPayload f))) frames = [8000; 8000; 4000].
Proof.
  intros fileData w.
  destruct (UploadFileData_sends_remaining_bytes (H := exampleRuntime)
              (str "a.jpg") fileData 0 w 0 [] (fileEndAnswer 0 []) (Z.to_nat 30000))
    as [frames [Hw [_ [Hcat [_ Hsz]]]]].
  - reflexivity.
  - reflexivity.
  - unfold fileData. rewrite repeat_length. lia.
  - lia.
  - cbn [length]. lia.
  - unfold fileData. rewrite repeat_length. lia.
  - exists frames. split; [exact Hw | split; [exact Hcat |]].
    apply Hsz; [unfold fileData; rewrite repeat_length; lia | reflexivity].
Defined.

(** ** C6: the result code of the end phase *)

(** C6. When an upload reaches its end phase and the device answers with
    a file-end answer that carries the result code [code],
    [UploadFileData] returns [nil] for [ErrSuccess] (0) and for
    [ErrWriteFinish] (1), and the end-phase error with that code for any
    other code. *)
Theorem UploadFileData_end_code `{GoRuntime}
        (fileName fileData : bytes) (fileType : Z)
        (w : World) (K code : Z) (extra extra2 rest : bytes) (n : nat) :
  onConn w (fileStartAnswer ErrSuccess K extra ++ fileEndAnswer code extra2 ++ rest) n ->
  connected (dev w) = true ->
  0 <= K < 2 ^ 32 ->
  Z.of_nat (10 + length extra) < 2 ^ 16 ->
  0 <= code < 2 ^ 16 ->
  Z.of_nat (6 + length extra2) < 2 ^ 16 ->
  (length fileData + 2 <= n)%nat ->
  fst (UploadFileData fileName fileData fileType w) =
  if (code =? ErrSuccess) || (code =? ErrWriteFinish)
  then Ok tt else Err (ErrFileEnd code).
Proof.
  intros Hc Hconn HK Hlen Hcode Hlen2 Hn.
  destruct (UploadFileData_upto_end fileName fileData fileType w K extra _ n
              Hc Hconn HK Hlen Hn)
    as [frames [w2 [Hrun [_ [_ [Hc2 Hfl]]]]]].
  rewrite Hrun.
  replace (n - 1 - length frames)%nat with (S (n - 2 - length frames)) in Hc2 by lia.
  destruct (fileEndPhase_result w2 code extra2 rest _ Hc2 Hcode Hlen2) as [w3 Hend].
  unfold bind. rewrite Hend.
  destruct ((code =? ErrSuccess) || (code =? ErrWriteFinish)); [| reflexivity].
  destruct (logf_spec (LogUploadDone fileName (length fileData)) w3) as [w4 [Hl _]].
  rewrite Hl. reflexivity.
Qed.

Lemma UploadFileData_end_code_witness :
  let w code := onSocket (mkConn (fileStartAnswer 0 3 [] ++ fileEndAnswer code [])
                                 10 false) in
  let upload code :=
    fst (UploadFileData (H := exampleRuntime) (str "a.bin") (str "content") FileTypeAuto
                        (w code)) in
  upload 0 = Ok tt /\ upload 1 = Ok tt /\ upload 11 = Err (ErrFileEnd 11).
Proof.
  intros w upload.
  assert (Hrun : forall code, 0 <= code < 2 ^ 16 ->
                   upload code = if (code =? ErrSuccess) || (code =? ErrWriteFinish)
                                 then Ok tt else Err (ErrFileEnd code)).
  { intros code Hcode.
    apply (UploadFileData_end_code (H := exampleRuntime) (str "a.bin") (str "content")
             FileTypeAuto (w code) 3 code [] [] [] 10).
    - reflexivity.
    - reflexivity.
    - lia.
    - cbn [length]. lia.
    - exact Hcode.
    - cbn [length]. lia.
    - cbn [length str map list_ascii_of_string]. lia. }
  repeat split; rewrite Hrun by lia; reflexivity.
Defined.

(** ** C7: the session identifier in the requests *)

Lemma utf8First_bounds p0 sz lo hi :
  utf8First p0 = Some (sz, lo, hi) -> 0x80 <= lo /\ (2 <= sz <= 4)%nat.
Proof.
  unfold utf8First.
  repeat match goal with
         | |- context [if ?b then _ else _] => destruct b
         end; intros E; inversion E; subst; lia.
Qed.

Lemma escapeFor_quote width : escapeFor 34 width = Some (str "&#34;").
Proof. reflexivity. Qed.

Lemma escapeFor_RuneError_1 : escapeFor RuneError 1 = Some [0xEF; 0xBF; 0xBD].
Proof. reflexivity. Qed.

(** The bytes [EscapeText] copies as they are hold no double quote. *)
Lemma decodeRune_copied (s : bytes) r width :
  decodeRune s = (r, width) -> escapeFor r width = None ->
  ~ In 34 (firstn width s).
Proof.
  intros Hd He Hin.
  destruct s as [|p0 t]; [destruct width; exact Hin |].
  unfold decodeRune in Hd.
  destruct (Z.ltb_spec p0 0x80) as [Hascii | Hhigh].
  { inversion Hd; subst. cbn [firstn In] in Hin.
    destruct Hin as [E | []]. subst. rewrite escapeFor_quote in He. discriminate. }
  destruct (utf8First p0) as [[[sz lo] hi] |] eqn:Hfirst;
    [| inversion Hd; subst; rewrite escapeFor_RuneError_1 in He; discriminate].
  destruct (utf8First_bounds _ _ _ _ Hfirst) as [Hlo Hsz].
  destruct (Nat.ltb_spec (length (p0 :: t)) sz) as [Hshort | Hlong];
    [inversion Hd; subst; rewrite escapeFor_RuneError_1 in He; discriminate |].
  destruct t as [|b1 t]; [cbn [length] in Hlong; lia |].
  cbn [nth] in Hd.
  destruct (Z.ltb_spec b1 lo) as [Hb1 | Hb1]; cbn [orb] in Hd;
    [inversion Hd; subst; rewrite escapeFor_RuneError_1 in He; discriminate |].
  destruct (hi <? b1);
    [inversion Hd; subst; rewrite escapeFor_RuneError_1 in He; discriminate |].
  destruct (sz <=? 2)%nat.
  { inversion Hd; subst. cbn [firstn In] in Hin. lia. }
  destruct t as [|b2 t]; cbn [nth] in Hd.
  { change (isContinuation 0) with false in Hd. cbn [negb] in Hd.
    inversion Hd; subst. rewrite escapeFor_RuneError_1 in He. discriminate. }
  destruct (isContinuation b2) eqn:Hc2; cbn [negb] in Hd;
    [| inversion Hd; subst; rewrite escapeFor_RuneError_1 in He; discriminate].
  assert (Hb2 : 0x80 <= b2) by (unfold isContinuation in Hc2; lia).
  destruct (sz <=? 3)%nat.
  { inversion Hd; subst. cbn [firstn In] in Hin. lia. }
  destruct t as [|b3 t]; cbn [nth] in Hd.
  { change (isContinuation 0) with false in Hd. cbn [negb] in Hd.
    inversion Hd; subst. rewrite escapeFor_RuneError_1 in He. discriminate. }
  destruct (isContinuation b3) eqn:Hc3; cbn [negb] in Hd;
    [| inversion Hd; subst; rewrite escapeFor_RuneError_1 in He; discriminate].
  assert (Hb3 : 0x80 <= b3) by (unfold isContinuation in Hc3; lia).
  inversion Hd; subst. cbn [firstn In] in Hin. lia.
Qed.

Lemma escapeFor_no_quote r width esc :
  escapeFor r width = Some esc -> ~ In 34 esc.
Proof.
  unfold escapeFor.
  repeat match goal with
         | |- context [if ?b then _ else _] => destruct b
         end; intros E; inversion E; subst; cbn; intuition discriminate.
Qed.

Lemma escapeText_no_quote : forall fuel s, ~ In 34 (escapeText fuel s).
Proof.
  induction fuel as [|fuel IH]; intros s; cbn [escapeText]; [exact (fun H => H) |].
  destruct s as [|p0 t]; [exact (fun H => H) |].
  destruct (decodeRune (p0 :: t)) as [r width] eqn:Hd.
  destruct (escapeFor r width) as [esc |] eqn:He; intros Hin;
    apply in_app_or in Hin; destruct Hin as [Hin | Hin].
  - exact (escapeFor_no_quote _ _ _ He Hin).
  - exact (IH _ Hin).
  - exact (decodeRune_copied _ _ _ Hd He Hin).
  - exact (IH _ Hin).
Qed.

Lemma xmlEscape_no_quote s : ~ In 34 (xmlEscape s).
Proof. apply escapeText_no_quote. Qed.

(** The first quote after a text without quotes. *)
Lemma index_quote (s rest : bytes) :
  ~ In 34 s -> index (s ++ dq ++ rest) dq = Some (length s).
Proof.
  induction s as [|x s IH]; intros Hno.
  - cbn. reflexivity.
  - cbn [app index hasPrefix length dq].
    destruct (Z.eqb_spec x 34) as [-> | _]; [exfalso; apply Hno; left; reflexivity |].
    cbn [andb]. change (s ++ 34 :: rest) with (s ++ dq ++ rest).
    rewrite IH; [reflexivity |].
    intros Hin. apply Hno. right. exact Hin.
Qed.

Lemma extractGUID_buildSdkXML guid method innerXML :
  extractGUID (buildSdkXML guid method innerXML) = xmlEscape guid.
Proof.
  unfold extractGUID, buildSdkXML.
  set (tail := str ">" ++ (crlf ++ str "  ") ++
               (str "<in method=" ++ dq ++ method ++ dq ++ str ">") ++
               match innerXML with
               | [] => []
               | _ :: _ => (crlf ++ str "    ") ++ innerXML ++ crlf ++ str "  "
               end ++ str "</in>" ++ crlf ++ str "</sdk>").
  replace (index _ (str "guid=" ++ dq)) with (Some 45%nat) by reflexivity.
  replace (skipn (45 + 6) _) with (xmlEscape guid ++ dq ++ tail)
    by (unfold tail; rewrite <- !app_assoc; reflexivity).
  rewrite index_quote by apply xmlEscape_no_quote.
  unfold slice.
  replace (skipn (45 + 6) _) with (xmlEscape guid ++ dq ++ tail)
    by (unfold tail; rewrite <- !app_assoc; reflexivity).
  replace (45 + 6 + length (xmlEscape guid) - (45 + 6))%nat
    with (length (xmlEscape guid)) by lia.
  rewrite firstn_app, Nat.sub_diag, firstn_all, firstn_O, app_nil_r. reflexivity.
Qed.

(** ** The session across the calls *)

Lemma sameSession_refl w : sameSession w w.
Proof. unfold sameSession. repeat split; reflexivity. Qed.

Lemma sameSession_trans w1 w2 w3 :
  sameSession w1 w2 -> sameSession w2 w3 -> sameSession w1 w3.
Proof.
  unfold sameSession. intros H12 H23.
  repeat match goal with H : _ /\ _ |- _ => destruct H end.
  repeat split; congruence.
Qed.

Lemma keepsSession_bind {A B} (c : M A) (k : A -> M B) :
  keepsSession c -> (forall a, keepsSession (k a)) -> keepsSession (bind c k).
Proof.
  intros Hc Hk w. unfold bind. specialize (Hc w).
  destruct (c w) as [[a | e |] w1]; cbn [snd] in *; try exact Hc.
  eapply sameSession_trans; [exact Hc | apply Hk].
Qed.

Lemma keepsSession_wrapErr {A} site (c : M A) :
  keepsSession c -> keepsSession (wrapErr site c).
Proof.
  intros Hc w. unfold wrapErr. specialize (Hc w).
  destruct (c w) as [[a | e |] w1]; exact Hc.
Qed.

Lemma keepsSession_try {A} (c : M A) : keepsSession c -> keepsSession (try c).
Proof.
  intros Hc w. unfold try. specialize (Hc w).
  destruct (c w) as [[a | e |] w1]; exact Hc.
Qed.

Lemma keepsSession_ret {A} (a : A) : keepsSession (ret a).
Proof. intros w. apply sameSession_refl. Qed.

Lemma keepsSession_fail {A} e : keepsSession (@fail A e).
Proof. intros w. apply sameSession_refl. Qed.

Lemma keepsSession_panic {A} : keepsSession (@panic A).
Proof. intros w. apply sameSession_refl. Qed.

Lemma keepsSession_getDev : keepsSession getDev.
Proof. intros w. apply sameSession_refl. Qed.

Lemma keepsSession_logf m : keepsSession (logf m).
Proof.
  intros w. unfold logf. destruct (hasLogger (dev w)) eqn:E; cbn [snd];
    unfold sameSession; cbn; repeat split; reflexivity.
Qed.

Lemma keepsSession_setSdkGUID g : keepsSession (modifyDev (setSdkGUID g)).
Proof. intros w. unfold sameSession. cbn. repeat split; reflexivity. Qed.

Lemma keepsSession_sendRaw data : keepsSession (sendRaw data).
Proof.
  intros w. unfold sendRaw.
  destruct (conn (dev w)) as [c |] eqn:Hc; [| apply sameSession_refl].
  destruct (cclosed c) eqn:Hcl; [apply sameSession_refl |].
  destruct (wleft c); [apply sameSession_refl |].
  unfold sameSession. cbn. rewrite Hc. cbn. rewrite Hcl. repeat split; reflexivity.
Qed.

Lemma sameSession_setRx c r w : conn (dev w) = Some c -> sameSession w (setRx c r w).
Proof.
  intros Hc. unfold sameSession. cbn. rewrite Hc. cbn. repeat split; reflexivity.
Qed.

Lemma keepsSession_readPacket : keepsSession readPacket.
Proof.
  intros w. unfold readPacket.
  destruct (conn (dev w)) as [c |] eqn:Hc; [| apply sameSession_refl].
  destruct (cclosed c); [apply sameSession_refl |].
  repeat match goal with
         | |- context [if ?b then _ else _] => destruct b
         end; cbn [snd]; apply sameSession_setRx; exact Hc.
Qed.

Lemma keepsSession_sendAll packets : keepsSession (sendAll packets).
Proof.
  induction packets as [|p ps IH]; cbn [sendAll].
  - apply keepsSession_ret.
  - apply keepsSession_bind; [apply keepsSession_sendRaw | intros _; exact IH].
Qed.

Lemma keepsSession_assembleLoop :
  forall fuel xmlBuf totalExpected, keepsSession (assembleLoop fuel xmlBuf totalExpected).
Proof.
  induction fuel as [|fuel IH]; intros xmlBuf totalExpected; cbn [assembleLoop].
  - apply keepsSession_fail.
  - apply keepsSession_bind; [apply keepsSession_readPacket |].
    intros [data cmdType].
    destruct (cmdType =? CmdSdkCmdAnswer).
    + destruct (sdkAnswerStep xmlBuf totalExpected data);
        [apply IH | apply keepsSession_ret | apply keepsSession_fail
         | apply keepsSession_panic].
    + destruct (cmdType =? CmdErrorAnswer); [apply keepsSession_fail |].
      destruct (cmdType =? CmdHeartbeatAnswer); [| apply keepsSession_fail].
      apply keepsSession_bind; [apply keepsSession_logf | intros _; apply IH].
Qed.

Lemma keepsSession_sendSdkCmdAndReceive `{GoRuntime} xmlData :
  keepsSession (sendSdkCmdAndReceive xmlData).
Proof.
  unfold sendSdkCmdAndReceive, readSdkResponse, sendSdkCmd.
  apply keepsSession_bind;
    [apply keepsSession_wrapErr, keepsSession_sendAll | intros _].
  apply keepsSession_bind.
  - intros w. unfold assembleSdkXml. apply keepsSession_assembleLoop.
  - intros xmlStr. unfold liftParse.
    destruct (parseSdkResponse xmlStr); [apply keepsSession_ret | apply keepsSession_fail].
Qed.

Lemma keepsSession_handshakeVersion : keepsSession handshakeVersion.
Proof.
  unfold handshakeVersion.
  apply keepsSession_bind;
    [apply keepsSession_wrapErr, keepsSession_sendRaw | intros _].
  apply keepsSession_bind;
    [apply keepsSession_wrapErr, keepsSession_readPacket | intros [data cmdType]].
  destruct (cmdType =? CmdServiceAnswer).
  - destruct (parseVersionResponse data);
      [apply keepsSession_logf | apply keepsSession_fail].
  - destruct (cmdType =? CmdErrorAnswer); apply keepsSession_fail.
Qed.

Lemma keepsSession_handshakeSdkVersion `{GoRuntime} uuid :
  keepsSession (handshakeSdkVersion uuid).
Proof.
  unfold handshakeSdkVersion.
  apply keepsSession_bind; [apply keepsSession_sendSdkCmdAndReceive | intros resp].
  apply keepsSession_bind; [apply keepsSession_setSdkGUID | intros _].
  apply keepsSession_bind; [apply keepsSession_getDev | intros d].
  apply keepsSession_bind.
  - destruct (bytes_eqb (sdkGUID d) [] || bytes_eqb (sdkGUID d) placeholderGUID);
      [apply keepsSession_setSdkGUID | apply keepsSession_ret].
  - intros _. apply keepsSession_bind; [apply keepsSession_getDev | intros d'].
    apply keepsSession_logf.
Qed.

Lemma bind_Err_inv {A B} (c : M A) (k : A -> M B) w e w' :
  bind c k w = (Err e, w') ->
  c w = (Err e, w') \/ exists a w1, c w = (Ok a, w1) /\ k a w1 = (Err e, w').
Proof.
  unfold bind. destruct (c w) as [[a | e1 |] w1]; intros E.
  - right. exists a, w1. split; [reflexivity | exact E].
  - left. inversion E; subst. reflexivity.
  - discriminate.
Qed.

(** A failed [handshakeDeviceInfo] has not touched the cached descriptor
    (nor the rest of the session). *)
Lemma handshakeDeviceInfo_failed `{GoRuntime} w e w' :
  handshakeDeviceInfo w = (Err e, w') -> sameSession w w'.
Proof.
  intros Hrun. unfold handshakeDeviceInfo in Hrun.
  apply bind_Err_inv in Hrun. destruct Hrun as [Hrun | [d [w0 [Hd Hrun]]]];
    [discriminate |].
  inversion Hd; subst d w0. clear Hd.
  apply bind_Err_inv in Hrun.
  pose proof (keepsSession_sendSdkCmdAndReceive
                (buildSdkXML (sdkGUID (dev w)) MethodGetDeviceInfo []) w) as Hs.
  destruct Hrun as [Hrun | [resp [w1 [Hsend Hrun]]]].
  - rewrite Hrun in Hs. exact Hs.
  - rewrite Hsend in Hs. cbn [snd] in Hs.
    destruct (negb (IsSuccess resp)).
    + inversion Hrun; subst. exact Hs.
    + apply bind_Err_inv in Hrun. destruct Hrun as [Hrun | [u [w2 [_ Hrun]]]];
        [discriminate |].
      destruct (logf_spec (LogDevice (parseDeviceInfoXML (InnerXML resp))) w2)
        as [w3 [Hl _]].
      rewrite Hl in Hrun. discriminate.
Qed.

Lemma writesNothing_bind {A B} (c : M A) (k : A -> M B) :
  writesNothing c -> (forall a, writesNothing (k a)) -> writesNothing (bind c k).
Proof.
  intros Hc Hk w. unfold bind. specialize (Hc w).
  destruct (c w) as [[a | e |] w1]; cbn [snd] in *; try exact Hc.
  rewrite Hk. exact Hc.
Qed.

Lemma writesNothing_ret {A} (a : A) : writesNothing (ret a).
Proof. intros w. reflexivity. Qed.

Lemma writesNothing_fail {A} e : writesNothing (@fail A e).
Proof. intros w. reflexivity. Qed.

Lemma writesNothing_panic {A} : writesNothing (@panic A).
Proof. intros w. reflexivity. Qed.

Lemma writesNothing_logf m : writesNothing (logf m).
Proof. intros w. unfold logf. destruct (hasLogger (dev w)); reflexivity. Qed.

Lemma writesNothing_modifyDev f : writesNothing (modifyDev f).
Proof. intros w. reflexivity. Qed.

Lemma writesNothing_readPacket : writesNothing readPacket.
Proof. intros w. apply readPacket_wire. Qed.

Lemma writesNothing_assembleLoop :
  forall fuel xmlBuf totalExpected, writesNothing (assembleLoop fuel xmlBuf totalExpected).
Proof.
  induction fuel as [|fuel IH]; intros xmlBuf totalExpected; cbn [assembleLoop].
  - apply writesNothing_fail.
  - apply writesNothing_bind; [apply writesNothing_readPacket |].
    intros [data cmdType].
    destruct (cmdType =? CmdSdkCmdAnswer).
    + destruct (sdkAnswerStep xmlBuf totalExpected data);
        [apply IH | apply writesNothing_ret | apply writesNothing_fail
         | apply writesNothing_panic].
    + destruct (cmdType =? CmdErrorAnswer); [apply writesNothing_fail |].
      destruct (cmdType =? CmdHeartbeatAnswer); [| apply writesNothing_fail].
      apply writesNothing_bind; [apply writesNothing_logf | intros _; apply IH].
Qed.

Lemma writesNothing_readSdkResponse `{GoRuntime} : writesNothing readSdkResponse.
Proof.
  unfold readSdkResponse. apply writesNothing_bind.
  - intros w. unfold assembleSdkXml. apply writesNothing_assembleLoop.
  - intros xmlStr. unfold liftParse.
    destruct (parseSdkResponse xmlStr); [apply writesNothing_ret | apply writesNothing_fail].
Qed.

Lemma sendAll_onConn packets :
  forall w r n,
    onConn w r n -> (length packets <= n)%nat ->
    exists w', sendAll packets w = (Ok tt, w') /\
               wire w' = wire w ++ packets /\
               onConn w' r (n - length packets).
Proof.
  induction packets as [|p ps IH]; intros w r n Hc Hn; cbn [sendAll length] in *.
  - exists w. rewrite app_nil_r, Nat.sub_0_r. repeat split; assumption.
  - destruct n as [|n]; [lia |].
    destruct (sendRaw_onConn p w r n Hc) as [w1 [Hs [Hc1 [Hw1 _]]]].
    destruct (IH w1 r n Hc1) as [w' [Hrun [Hw' Hc']]]; [lia |].
    exists w'. rewrite (bind_Ok _ _ w tt w1 Hs).
    repeat split; [exact Hrun | | exact Hc'].
    rewrite Hw', Hw1, <- app_assoc. reflexivity.
Qed.




(** ** C8: a failure of phase 3 does not fail [Connect] *)

Lemma connectPrefix_spec (c : Conn) (w : World) :
  exists w0,
    connectPrefix c w = (Ok tt, w0) /\
    conn (dev w0) = Some c /\ connected (dev w0) = true /\
    info (dev w0) = info (dev w) /\ hasLogger (dev w0) = hasLogger (dev w) /\
    nextChan w0 = nextChan w /\ hbStarted w0 = hbStarted w.
Proof.
  unfold connectPrefix, bind, getDev, try, closeInternal, logf, modifyDev, ret.
  destruct w as [d wi lo pr nc cc hs]. destruct d as [co g cn sh i hl hp].
  cbn. destruct co as [c0 |]; cbn.
  - destruct (cclosed c0); cbn; destruct hl; cbn;
      eexists; repeat split; reflexivity.
  - destruct hl; cbn; eexists; repeat split; reflexivity.
Qed.

Lemma Connect_dialed `{GoRuntime} (c : Conn) (uuid : bytes) (w w0 : World) :
  connectPrefix c w = (Ok tt, w0) ->
  Connect (Some c) uuid w = connectPhases uuid w0.
Proof.
  unfold connectPrefix, Connect, bind, getDev, try, closeInternal, logf, modifyDev, ret.
  destruct w as [d wi lo pr nc cc hs]. destruct d as [co g cn sh i hl hp].
  cbn. destruct co as [c0 |]; cbn.
  - destruct (cclosed c0); cbn; destruct hl; cbn; intros E; inversion E; reflexivity.
  - destruct hl; cbn; intros E; inversion E; reflexivity.
Qed.

(** C8, counterexample. A device that connected once (all three phases
    succeeded and the descriptor was cached), was closed, and connects
    again to a peer that answers phase 3 with an error: [Connect] returns
    [nil], and the descriptor of the first connection is still cached. *)
Lemma reconnect_keeps_stale_descriptor :
  let good := versionAnswer transportVersion ++ sdkAnswerOf versionReplyDoc ++
              sdkAnswerOf deviceInfoReplyDoc in
  let bad := versionAnswer transportVersion ++ sdkAnswerOf versionReplyDoc ++
             errorAnswer 23 in
  let run := (Connect (H := exampleRuntime) (Some (mkConn good 10 false)) (str "id-1") ;;;
              Close ;;;
              Connect (H := exampleRuntime) (Some (mkConn bad 10 false)) (str "id-2"))
               (newWorld NewDevice) in
  fst run = Ok tt /\
  connected (dev (snd run)) = true /\
  info (dev (snd run)) =
    Some (mkDeviceInfo (str "imx6") [] [] [] [] [] [] 0 0 0).
Proof. vm_compute. repeat split; reflexivity. Qed.

(** C8, as the code has it. When the socket is dialed, phases 1 and 2
    succeed and phase 3 fails with an error, [Connect] returns [nil]; the
    device is marked connected over the open socket, a new stop channel is
    in place and one more heartbeat goroutine is started; the failure is
    logged as a warning (when a logger is set) and nothing else is done
    about it. The cached descriptor is the one the device had before the
    call: absent on a device that had none. *)
Theorem Connect_device_info_failure_not_fatal `{GoRuntime}
        (c : Conn) (uuid : bytes) (w w1 w2 w3 : World) (e : error) :
  cclosed c = false ->
  handshakeVersion (snd (connectPrefix c w)) = (Ok tt, w1) ->
  handshakeSdkVersion uuid (snd (logf LogPhase2 w1)) = (Ok tt, w2) ->
  handshakeDeviceInfo (snd (logf LogPhase3 w2)) = (Err e, w3) ->
  exists w',
    Connect (Some c) uuid w = (Ok tt, w') /\
    connected (dev w') = true /\
    (exists c', conn (dev w') = Some c' /\ cclosed c' = false) /\
    stopHeartbeat (dev w') = Some (nextChan w) /\
    hbStarted w' = S (hbStarted w) /\
    info (dev w') = info (dev w) /\
    (info (dev w) = None -> info (dev w') = None) /\
    logs w' = (if hasLogger (dev w)
               then logs w3 ++ [LogDeviceInfoWarning e; LogConnected (sdkGUID (dev w3))]
               else logs w3).
Proof.
  intros Hopen H1 H2 H3.
  destruct (connectPrefix_spec c w) as [w0 [Hp [Hc0 [Hcn0 [Hi0 [Hl0 [Hn0 Hh0]]]]]]].
  rewrite Hp in H1. cbn [snd] in H1.
  rewrite (Connect_dialed c uuid w w0 Hp).
  (* the session from the first phase to the failure of the third *)
  assert (Hs : sameSession w0 w3).
  { pose proof (keepsSession_handshakeVersion w0) as S1. rewrite H1 in S1.
    pose proof (keepsSession_logf LogPhase2 w1) as S2.
    pose proof (keepsSession_handshakeSdkVersion uuid (snd (logf LogPhase2 w1))) as S3.
    rewrite H2 in S3.
    pose proof (keepsSession_logf LogPhase3 w2) as S4.
    pose proof (handshakeDeviceInfo_failed _ _ _ H3) as S5.
    cbn [snd] in *.
    repeat (eapply sameSession_trans; [eassumption |]). apply sameSession_refl. }
  destruct Hs as [Hcl [Hcn [_ [Hi [Hl [Hn [_ Hh]]]]]]].
  unfold connectPhases.
  rewrite (bind_Ok _ _ w0 _ w1 (try_Ok _ _ _ _ H1)). cbn [fst].
  rewrite (bind_Ok _ _ w1 _ _ (logf_run LogPhase2 w1)).
  rewrite (bind_Ok _ _ _ _ w2 (try_Ok _ _ _ _ H2)). cbn [fst].
  rewrite (bind_Ok _ _ w2 _ _ (logf_run LogPhase3 w2)).
  rewrite (bind_Ok _ _ _ _ w3 (try_Err _ _ _ _ H3)). cbn [fst].
  rewrite (bind_Ok _ _ w3 _ _ (logf_run (LogDeviceInfoWarning e) w3)).
  destruct (logf_fields (LogDeviceInfoWarning e) w3) as [Hd4 [Hn4 [Hh4 Hlog4]]].
  set (w4 := snd (logf (LogDeviceInfoWarning e) w3)) in *.
  unfold bind at 1. unfold startHeartbeat at 1.
  unfold bind at 1. unfold getDev at 1. cbn [dev].
  eexists. split; [apply logf_run |].
  match goal with
  | |- context [logf ?m ?w5] =>
      destruct (logf_fields m w5) as [Hd6 [Hn6 [Hh6 Hlog6]]]
  end.
  rewrite Hd6, Hh6, Hlog6. cbn [dev hbStarted logs] in *.
  cbn [connected conn stopHeartbeat info hasLogger sdkGUID setStopHeartbeat].
  rewrite Hd4, Hn4, Hh4, Hlog4, Hcn, Hcn0, Hn, Hn0, Hh, Hh0, Hi, Hi0, Hl, Hl0.
  rewrite Hc0 in Hcl. cbn [option_map] in Hcl. rewrite Hopen in Hcl.
  repeat split.
  - destruct (conn (dev w3)) as [c3 |]; [| discriminate].
    exists c3. split; [reflexivity |]. cbn [option_map] in Hcl. congruence.
  - intros Hnone. exact Hnone.
  - destruct (hasLogger (dev w)); [rewrite <- app_assoc |]; reflexivity.
Qed.

Lemma Connect_device_info_failure_not_fatal_witness :
  let bad := versionAnswer transportVersion ++ sdkAnswerOf versionReplyDoc ++
             errorAnswer 23 in
  let run := Connect (H := exampleRuntime) (Some (mkConn bad 10 false)) (str "id-1")
                     (newWorld NewDevice) in
  fst run = Ok tt /\
  connected (dev (snd run)) = true /\
  stopHeartbeat (dev (snd run)) = Some 0%nat /\
  info (dev (snd run)) = None.
Proof.
  intros bad run.
  set (c := mkConn bad 10 false).
  set (w := newWorld NewDevice).
  set (w1 := snd (handshakeVersion (snd (connectPrefix c w)))).
  set (w2 := snd (handshakeSdkVersion (H := exampleRuntime) (str "id-1")
                                      (snd (logf LogPhase2 w1)))).
  set (w3 := snd (handshakeDeviceInfo (H := exampleRuntime) (snd (logf LogPhase3 w2)))).
  destruct (Connect_device_info_failure_not_fatal (H := exampleRuntime)
              c (str "id-1") w w1 w2 w3 (ErrSdkAnswer (Some 23)))
    as [w' [Hrun [Hc [_ [Hstop [_ [_ [Hnone _]]]]]]]].
  - reflexivity.
  - vm_compute. reflexivity.
  - vm_compute. reflexivity.
  - vm_compute. reflexivity.
  - unfold run. fold c w. rewrite Hrun. cbn [fst snd].
    repeat split; [exact Hc | exact Hstop | apply Hnone; reflexivity].
Defined.

(** ** C9: the heartbeat loop and [Close] *)

(** Behind its nil test, [sendRaw] is the write. *)
Lemma sendRaw_connWrite data w c :
  conn (dev w) = Some c -> sendRaw data w = connWrite c data w.
Proof. intros Hc. unfold sendRaw, connWrite. rewrite Hc. reflexivity. Qed.







Lemma doMoves_run ms : forall s evs s', doMoves ms s = Some (evs, s') -> run s evs s'.
Proof.
  induction ms as [|m ms IH]; intros s evs s' H; cbn [doMoves] in H.
  - inversion H; subst. constructor.
  - destruct (doMove m s) as [[ev s1] |] eqn:Hm; [| discriminate].
    destruct (doMoves ms s1) as [[evs1 s2] |] eqn:Hms; [| discriminate].
    inversion H; subst. apply run_cons with s1; [| apply IH; exact Hms].
    destruct m as [tick |]; cbn [doMove] in Hm.
    + exact (step_hb tick s ev s1 Hm).
    + destruct (closeNext s) as [sc |] eqn:Hc; [| discriminate].
      cbn [option_map] in Hm. inversion Hm; subst. exact (step_close s s1 Hc).
Qed.

Lemma run_reachable s evs s' : run s evs s' -> reachable s -> reachable s'.
Proof.
  induction 1 as [s | s ev s1 evs s2 Hstep _ IH]; intros Hr; [exact Hr |].
  apply IH. exact (reach_step s ev s1 Hr Hstep).
Qed.

(** [Close] step by step, with no other step in between, is [closeInternal]. *)
Lemma closeNext_closeInternal (s : Sys) :
  cl s = ClNotCalled -> muHeld s = false ->
  exists evs s',
    doMoves [MoveClose; MoveClose; MoveClose; MoveClose; MoveClose; MoveClose] s
    = Some (evs, s') /\
    world s' = snd (closeInternal (world s)) /\
    cl s' = ClReturned /\ hb s' = hb s /\ muHeld s' = false.
Proof.
  destruct s as [w pc c mu]. cbn [cl muHeld world hb]. intros -> ->.
  destruct w as [d wi lo pr nc cc hs]. destruct d as [co g cn sh i hl hp].
  eexists _, _. split; [reflexivity |]. unfold closeInternal. cbn.
  destruct co as [c0 |]; [destruct (cclosed c0) |]; destruct sh;
    repeat split; reflexivity.
Qed.

(** The call of [sendRaw] in the loop, with no step of [Close] in between,
    is [sendRaw]: one step when there is no socket, three when there is
    one, with the outcome and the world [sendRaw] gives. *)
Lemma hbNext_sendRaw (s : Sys) (t1 t2 t3 : bool) :
  hb s = HbSend ->
  match sendRaw buildHeartbeat (world s) with
  | (Ok _, w') =>
      doMoves [MoveHb t1; MoveHb t2; MoveHb t3] s =
      Some ([EvSilent; EvSilent; EvHeartbeatWrite buildHeartbeat],
            mkSys (snd (logf LogHeartbeatSent w')) HbSelect (cl s) (muHeld s))
  | (Err e, w') =>
      match conn (dev (world s)) with
      | None =>
          doMoves [MoveHb t1] s =
          Some ([EvSilent],
                mkSys (snd (logf (LogHeartbeatFailed e) w')) HbDone (cl s) (muHeld s))
      | Some _ =>
          doMoves [MoveHb t1; MoveHb t2; MoveHb t3] s =
          Some ([EvSilent; EvSilent; EvSilent],
                mkSys (snd (logf (LogHeartbeatFailed e) w')) HbDone (cl s) (muHeld s))
      end
  | (Panic, _) => False
  end.
Proof.
  destruct s as [w pc c mu]. cbn [hb world cl muHeld]. intros ->.
  unfold sendRaw, doMoves, doMove, hbNext. cbn [hb world cl muHeld].
  destruct (conn (dev w)) as [c0 |] eqn:Hc; [| reflexivity].
  cbn [hb world cl muHeld]. rewrite Hc. cbn [hb world cl muHeld]. rewrite Hc.
  unfold connWrite.
  destruct (cclosed c0); [reflexivity |].
  destruct (wleft c0); reflexivity.
Qed.


(** A loop that is inside [sendRaw], behind the nil test, when [Close]
    runs: [Close] does not wait for it, clears the socket and returns, and
    the next step of the loop calls a method of the nil socket. *)
Lemma heartbeat_panics_after_close_returned :
  let w := snd (Connect (H := exampleRuntime)
                  (Some (mkConn (versionAnswer transportVersion ++
                                 sdkAnswerOf versionReplyDoc ++
                                 sdkAnswerOf deviceInfoReplyDoc) 10 false))
                  (str "id-1") (newWorld NewDevice)) in
  let s0 := mkSys w HbSelect ClNotCalled false in
  exists evs s s',
    initialSys s0 /\
    doMoves [MoveHb false; MoveHb true; MoveHb false; MoveHb false;
             MoveClose; MoveClose; MoveClose; MoveClose; MoveClose; MoveClose] s0
    = Some (evs, s) /\
    reachable s /\ cl s = ClReturned /\ hb s = HbDeadline /\
    step s EvSilent s' /\ hb s' = HbPanicked /\
    wire (world s') = wire (world s0).
Proof.
  intros w s0.
  assert (Hinit : initialSys s0).
  { unfold initialSys. repeat split; try reflexivity.
    - eexists. split; vm_compute; reflexivity.
    - exists 0%nat. split; vm_compute; reflexivity. }
  destruct (doMoves [MoveHb false; MoveHb true; MoveHb false; MoveHb false;
                     MoveClose; MoveClose; MoveClose; MoveClose; MoveClose; MoveClose] s0)
    as [[evs s] |] eqn:Hmoves; [| vm_compute in Hmoves; discriminate].
  destruct (hbNext false s) as [[ev s'] |] eqn:Hlast;
    [| vm_compute in Hmoves; inversion Hmoves; subst; vm_compute in Hlast; discriminate].
  exists evs, s, s'.
  assert (Hreach : reachable s).
  { apply (run_reachable s0 evs s (doMoves_run _ _ _ _ Hmoves)).
    apply reach_init. exact Hinit. }
  pose proof (step_hb false s ev s' Hlast) as Hstep.
  vm_compute in Hmoves. inversion Hmoves; subst.
  vm_compute in Hlast. inversion Hlast; subst.
  repeat split; try assumption; try reflexivity.
  - eexists. split; vm_compute; reflexivity.
  - exists 0%nat. split; vm_compute; reflexivity.
Qed.



(** ** C10: what [parseSdkResponse] accepts *)

Lemma lastAttr_from name (l : list (bytes * bytes)) : forall o d,
  match fold_left (fun acc a => if bytes_eqb (fst a) name then Some (snd a) else acc)
                  l (Some o) with
  | Some v => v | None => d end =
  match lastAttr name l with Some v => v | None => o end.
Proof.
  unfold lastAttr. induction l as [|x l IH]; intros o d; cbn [fold_left]; [reflexivity |].
  destruct (bytes_eqb (fst x) name); [| apply IH].
  rewrite (IH (snd x) d), (IH (snd x) o). reflexivity.
Qed.

Lemma sdkAttrs_fields attrs : forall r,
  GUID (sdkAttrs attrs r) =
    match lastAttr (str "guid") attrs with Some v => v | None => GUID r end /\
  Method (sdkAttrs attrs r) = Method r /\ Result (sdkAttrs attrs r) = Result r /\
  RawXML (sdkAttrs attrs r) = RawXML r.
Proof.
  unfold sdkAttrs.
  induction attrs as [|a attrs IH]; intros r; cbn [fold_left].
  - repeat split; reflexivity.
  - unfold lastAttr. cbn [fold_left].
    destruct (bytes_eqb (fst a) (str "guid")); [| apply IH].
    destruct (IH (setGUID (snd a) r)) as [Hg [Hm [Hr Hx]]].
    rewrite Hg, Hm, Hr, Hx. cbn [GUID Method Result RawXML setGUID].
    repeat split; try reflexivity.
    symmetry. apply (lastAttr_from (str "guid") attrs (snd a) (GUID r)).
Qed.

Lemma outAttrs_fields attrs : forall r,
  GUID (outAttrs attrs r) = GUID r /\
  Method (outAttrs attrs r) =
    match lastAttr (str "method") attrs with Some v => v | None => Method r end /\
  Result (outAttrs attrs r) =
    match lastAttr (str "result") attrs with Some v => v | None => Result r end /\
  RawXML (outAttrs attrs r) = RawXML r.
Proof.
  unfold outAttrs.
  induction attrs as [|a attrs IH]; intros r; cbn [fold_left].
  - repeat split; reflexivity.
  - unfold lastAttr. cbn [fold_left].
    destruct (bytes_eqb (fst a) (str "method")) eqn:Em.
    + assert (Er : bytes_eqb (fst a) (str "result") = false).
      { destruct (fst a) as [|c0 k]; [reflexivity |].
        cbn in Em |- *. destruct (c0 =? 109) eqn:E0; [| discriminate].
        apply Z.eqb_eq in E0. subst c0. reflexivity. }
      rewrite Er.
      destruct (IH (setMethod (snd a) r)) as [Hg [Hm [Hr Hx]]].
      rewrite Hg, Hm, Hr, Hx. cbn [GUID Method Result RawXML setMethod].
      repeat split; try reflexivity.
      symmetry. apply (lastAttr_from (str "method") attrs (snd a) (Method r)).
    + destruct (bytes_eqb (fst a) (str "result")) eqn:Er.
      * destruct (IH (setResult (snd a) r)) as [Hg [Hm [Hr Hx]]].
        rewrite Hg, Hm, Hr, Hx. cbn [GUID Method Result RawXML setResult].
        repeat split; try reflexivity.
        symmetry. apply (lastAttr_from (str "result") attrs (snd a) (Result r)).
      * apply IH.
Qed.

Lemma noStart_cons name t toks :
  noStart name (t :: toks) ->
  match t with
  | StartElement local _ => bytes_eqb local name = false
  | _ => True
  end /\ noStart name toks.
Proof. intros H. inversion H; subst. split; assumption. Qed.

(** Tokens without an [sdk] start element leave the GUID as it is. *)
Lemma parseTokens_GUID toks : forall inner resp,
  noStart (str "sdk") toks ->
  GUID (parseTokens toks inner resp) = GUID resp.
Proof.
  induction toks as [|t toks IH]; intros inner resp Hno; cbn [parseTokens].
  - destruct inner as [[d b] |]; reflexivity.
  - apply noStart_cons in Hno. destruct Hno as [Ht Hno].
    destruct inner as [[depth buf] |].
    + destruct t as [l a | l | c |]; try (apply IH; exact Hno).
      destruct (depth - 1)%nat; rewrite IH by exact Hno; reflexivity.
    + destruct t as [l a | l | c |]; try (apply IH; exact Hno).
      rewrite Ht.
      destruct (bytes_eqb l (str "out")); rewrite IH by exact Hno;
        [apply outAttrs_fields | reflexivity].
Qed.

(** Tokens without an [out] start element leave method and result as they are. *)
Lemma parseTokens_Method toks : forall inner resp,
  noStart (str "out") toks ->
  Method (parseTokens toks inner resp) = Method resp /\
  Result (parseTokens toks inner resp) = Result resp.
Proof.
  induction toks as [|t toks IH]; intros inner resp Hno; cbn [parseTokens].
  - destruct inner as [[d b] |]; split; reflexivity.
  - apply noStart_cons in Hno. destruct Hno as [Ht Hno].
    destruct inner as [[depth buf] |].
    + destruct t as [l a | l | c |]; try (apply IH; exact Hno).
      destruct (depth - 1)%nat; destruct (IH None (setInnerXML (TrimSpace buf) resp) Hno);
        try (apply IH; exact Hno); split; assumption.
    + destruct t as [l a | l | c |]; try (apply IH; exact Hno).
      rewrite Ht.
      destruct (bytes_eqb l (str "sdk")); [| apply IH; exact Hno].
      destruct (IH None (sdkAttrs a resp) Hno) as [Hm Hr].
      destruct (sdkAttrs_fields a resp) as [_ [Hm' [Hr' _]]].
      split; congruence.
Qed.

(** The outer loop runs through tokens without an [out] start element and
    stays the outer loop. *)
Lemma parseTokens_outer pre : forall rest resp,
  noStart (str "out") pre ->
  parseTokens (pre ++ rest) None resp = parseTokens rest None (parseTokens pre None resp).
Proof.
  induction pre as [|t pre IH]; intros rest resp Hno; cbn [app parseTokens].
  - reflexivity.
  - apply noStart_cons in Hno. destruct Hno as [Ht Hno].
    destruct t as [l a | l | c |]; try (apply IH; exact Hno).
    rewrite Ht. destruct (bytes_eqb l (str "sdk")); apply IH; exact Hno.
Qed.

Lemma parseTokens_RawXML toks : forall inner resp,
  RawXML (parseTokens toks inner resp) = RawXML resp.
Proof.
  induction toks as [|t toks IH]; intros inner resp; cbn [parseTokens].
  - destruct inner as [[d b] |]; reflexivity.
  - destruct inner as [[depth buf] |].
    + destruct t as [l a | l | c |]; try apply IH.
      destruct (depth - 1)%nat; rewrite IH; reflexivity.
    + destruct t as [l a | l | c |]; try apply IH.
      destruct (bytes_eqb l (str "sdk")); [rewrite IH; apply sdkAttrs_fields |].
      destruct (bytes_eqb l (str "out")); rewrite IH; [apply outAttrs_fields | reflexivity].
Qed.

Lemma parseSdkResponse_Some `{GoRuntime} rawXML :
  GUID (scanSdkResponse rawXML) <> [] \/ Method (scanSdkResponse rawXML) <> [] ->
  parseSdkResponse rawXML = Some (scanSdkResponse rawXML).
Proof.
  unfold parseSdkResponse. intros [Hne | Hne];
    destruct (GUID (scanSdkResponse rawXML)), (Method (scanSdkResponse rawXML));
    try reflexivity; congruence.
Qed.

(** C10, counterexample. The input is an [sdk] element with a guid
    attribute whose value is empty: it contains an sdk guid attribute, the
    decoder delivers its start and end tags, and [parseSdkResponse]
    returns the error. *)
Lemma empty_guid_rejected :
  index emptyGuidDoc (str "<sdk guid=") = Some 0%nat /\
  xmlTokens (GoRuntime := exampleRuntime) emptyGuidDoc =
    [StartElement (str "sdk") [(str "guid", [])]; EndElement (str "sdk")] /\
  parseSdkResponse (H := exampleRuntime) emptyGuidDoc = None.
Proof. repeat split; reflexivity. Qed.

(** C10, as the code has it. [parseSdkResponse] returns the error exactly
    when the GUID and the method it has collected are both empty, and
    otherwise the collected fields with the input as [RawXML], whatever the
    result string. The GUID is collected from an [sdk] start tag the
    decoder delivers before any [out] element (the value of its last guid
    attribute) and stays when no [sdk] start tag follows; so such an input
    with a non-empty guid is accepted whatever follows, also when the input
    is cut off or malformed after that tag. Likewise an [out] start tag
    with a non-empty method, before which and after which there is no other
    [out] start tag, makes the input a response whose result is the value
    of its result attribute, success or not. *)
Theorem parseSdkResponse_accepts `{GoRuntime} (rawXML : bytes) :
  (parseSdkResponse rawXML = None <->
   GUID (scanSdkResponse rawXML) = [] /\ Method (scanSdkResponse rawXML) = []) /\
  (forall resp, parseSdkResponse rawXML = Some resp ->
                resp = scanSdkResponse rawXML /\ RawXML resp = rawXML) /\
  (forall pre attrs rest g,
      xmlTokens rawXML = pre ++ StartElement (str "sdk") attrs :: rest ->
      noStart (str "out") pre -> noStart (str "sdk") rest ->
      lastAttr (str "guid") attrs = Some g -> g <> [] ->
      exists resp, parseSdkResponse rawXML = Some resp /\ GUID resp = g) /\
  (forall pre attrs rest m,
      xmlTokens rawXML = pre ++ StartElement (str "out") attrs :: rest ->
      noStart (str "out") pre -> noStart (str "out") rest ->
      lastAttr (str "method") attrs = Some m -> m <> [] ->
      exists resp,
        parseSdkResponse rawXML = Some resp /\ Method resp = m /\
        Result resp = match lastAttr (str "result") attrs with
                      | Some r => r
                      | None => []
                      end).
Proof.
  split; [| split; [| split]].
  - unfold parseSdkResponse.
    destruct (GUID (scanSdkResponse rawXML)) eqn:Eg,
             (Method (scanSdkResponse rawXML)) eqn:Em;
      split; intros Hx; try reflexivity; try discriminate;
      try (split; reflexivity); destruct Hx; discriminate.
  - intros resp Hp. unfold parseSdkResponse in Hp.
    assert (E : resp = scanSdkResponse rawXML).
    { destruct (GUID (scanSdkResponse rawXML)), (Method (scanSdkResponse rawXML));
        inversion Hp; reflexivity. }
    split; [exact E |]. rewrite E. unfold scanSdkResponse.
    rewrite parseTokens_RawXML. reflexivity.
  - intros pre attrs rest g Htoks Hpre Hrest Hg Hne.
    exists (scanSdkResponse rawXML).
    assert (Eg : GUID (scanSdkResponse rawXML) = g).
    { unfold scanSdkResponse. rewrite Htoks, parseTokens_outer by exact Hpre.
      cbn [parseTokens]. change (bytes_eqb (str "sdk") (str "sdk")) with true. cbv iota.
      rewrite parseTokens_GUID by exact Hrest.
      destruct (sdkAttrs_fields attrs
                  (parseTokens pre None (mkSdkResponse [] [] [] [] rawXML))) as [E _].
      rewrite E, Hg. reflexivity. }
    split; [| exact Eg].
    apply parseSdkResponse_Some. left. rewrite Eg. exact Hne.
  - intros pre attrs rest m Htoks Hpre Hrest Hm Hne.
    exists (scanSdkResponse rawXML).
    assert (Em : Method (scanSdkResponse rawXML) = m /\
                 Result (scanSdkResponse rawXML) =
                 match lastAttr (str "result") attrs with Some r => r | None => [] end).
    { unfold scanSdkResponse. rewrite Htoks, parseTokens_outer by exact Hpre.
      cbn [parseTokens]. change (bytes_eqb (str "out") (str "sdk")) with false.
      change (bytes_eqb (str "out") (str "out")) with true. cbv iota.
      destruct (parseTokens_Method rest (Some (1%nat, []))
                  (outAttrs attrs (parseTokens pre None (mkSdkResponse [] [] [] [] rawXML)))
                  Hrest) as [E1 E2].
      rewrite E1, E2.
      destruct (outAttrs_fields attrs
                  (parseTokens pre None (mkSdkResponse [] [] [] [] rawXML)))
        as [_ [F1 [F2 _]]].
      rewrite F1, F2, Hm.
      destruct (parseTokens_Method pre None (mkSdkResponse [] [] [] [] rawXML) Hpre)
        as [_ G2].
      rewrite G2. split; reflexivity. }
    destruct Em as [Em Er].
    split; [| split; [exact Em | exact Er]].
    apply parseSdkResponse_Some. right. rewrite Em. exact Hne.
Qed.

Lemma parseSdkResponse_accepts_witness :
  exists resp,
    parseSdkResponse (H := exampleRuntime) versionReplyDoc = Some resp /\
    GUID resp = str "abc-123".
Proof.
  apply (proj1 (proj2 (proj2 (parseSdkResponse_accepts (H := exampleRuntime)
                                versionReplyDoc)))
               [] [(str "guid", str "abc-123")]
               [StartElement (str "out")
                  [(str "method", str "GetIFVersion"); (str "result", str "kSuccess")];
                EndElement (str "out"); EndElement (str "sdk")]).
  - reflexivity.
  - constructor.
  - repeat constructor.
  - reflexivity.
  - discriminate.
Defined.
(** * Further properties *)

(** ** Frames and their headers *)

Lemma uint16_range n : 0 <= uint16 n < 2 ^ 16.
Proof. unfold uint16. apply Z.mod_pos_bound. lia. Qed.

Lemma copyInto_at (dst src a b c : bytes) lo hi :
  dst = a ++ b ++ c -> length a = lo -> (lo + length b <= hi)%nat ->
  length src = length b ->
  copyInto dst lo hi src = a ++ src ++ c.
Proof.
  intros -> Ha Hhi Hsrc. unfold copyInto.
  replace (Nat.min (hi - lo) (length src)) with (length src) by lia.
  rewrite firstn_app, Ha, Nat.sub_diag, firstn_O, app_nil_r.
  rewrite <- Ha at 1. rewrite firstn_all, firstn_all.
  rewrite skipn_app, Ha.
  rewrite (skipn_all2 a) by lia.
  replace (lo + length src - lo)%nat with (length b) by lia.
  rewrite skipn_app, skipn_all, Nat.sub_diag, skipn_O. reflexivity.
Qed.

Lemma firstn_make k n : (k <= n)%nat -> firstn k (make n) = make k.
Proof.
  intros H. replace n with (k + (n - k))%nat by lia.
  unfold make. rewrite repeat_app, firstn_app, repeat_length, Nat.sub_diag, firstn_O.
  rewrite app_nil_r. rewrite <- (repeat_length 0 k) at 1. apply firstn_all.
Qed.

Lemma copyInto_pad (dst src a c : bytes) n lo hi :
  dst = a ++ make n ++ c -> length a = lo -> hi = (lo + n)%nat ->
  copyInto dst lo hi src = a ++ firstn n (src ++ make n) ++ c.
Proof.
  intros -> Ha ->. unfold copyInto.
  replace (lo + n - lo)%nat with n by lia.
  rewrite firstn_app, Ha, Nat.sub_diag, firstn_O, app_nil_r.
  rewrite <- Ha at 1. rewrite firstn_all.
  rewrite skipn_app, Ha, (skipn_all2 a) by lia.
  replace (lo + Nat.min n (length src) - lo)%nat with (Nat.min n (length src)) by lia.
  rewrite skipn_app, length_make, skipn_make. cbn [app].
  rewrite firstn_app.
  destruct (Nat.le_ge_cases n (length src)) as [Hle | Hge].
  - replace (Nat.min n (length src)) with n by lia.
    replace (n - length src)%nat with 0%nat by lia.
    rewrite Nat.sub_diag. cbn [make repeat firstn skipn app].
    rewrite app_nil_r. reflexivity.
  - replace (Nat.min n (length src)) with (length src) by lia.
    rewrite !firstn_all2 by lia.
    replace (length src - n)%nat with 0%nat by lia. rewrite skipn_O.
    rewrite firstn_make by lia.
    rewrite <- app_assoc. reflexivity.
Qed.

Lemma make_add n m : make (n + m) = make n ++ make m.
Proof. unfold make. apply repeat_app. Qed.

Lemma setByte_last (a : bytes) v x : setByte (a ++ [x]) (length a) v = a ++ [v].
Proof.
  unfold setByte. rewrite firstn_app, Nat.sub_diag, firstn_O, app_nil_r, firstn_all.
  rewrite skipn_all2 by (rewrite length_app; cbn; lia). reflexivity.
Qed.

Lemma parsePacketHeader_app (len cmd : Z) (body : bytes) :
  0 <= len < 2 ^ 16 -> 0 <= cmd < 2 ^ 16 ->
  parsePacketHeader (putUint16 len ++ putUint16 cmd ++ body) = Some (len, cmd).
Proof.
  intros Hl Hc. unfold parsePacketHeader.
  pose proof (getUint16_putUint16 len Hl) as E1.
  pose proof (getUint16_putUint16 cmd Hc) as E2.
  unfold putUint16 in *. cbn [app slice Nat.sub skipn firstn length].
  destruct (Nat.ltb_spec (S (S (S (S (length body))))) tcpHeaderLength) as [Hlt | _].
  - unfold tcpHeaderLength in Hlt. lia.
  - rewrite E1, E2. reflexivity.
Qed.

(** X1. The frames with no variable part declare their own length and
    command: [parsePacketHeader] reads back [(len, cmd)] from the version
    packet (8, [CmdServiceAsk]), the heartbeat (4, [CmdHeartbeatAsk]), the
    file end packet (4, [CmdFileEndAsk]) and the UDP scan packet
    (8, [CmdSearchDeviceAsk]); the version packet and the scan packet carry
    [transportVersion], which [parseVersionResponse] reads back. *)
Theorem fixed_frames_declare_their_length :
  parsePacketHeader buildVersionPacket =
    Some (Z.of_nat (length buildVersionPacket), CmdServiceAsk) /\
  parsePacketHeader buildHeartbeat =
    Some (Z.of_nat (length buildHeartbeat), CmdHeartbeatAsk) /\
  parsePacketHeader buildFileEndPacket =
    Some (Z.of_nat (length buildFileEndPacket), CmdFileEndAsk) /\
  parsePacketHeader buildUDPScanPacket =
    Some (Z.of_nat (length buildUDPScanPacket), CmdSearchDeviceAsk) /\
  parseVersionResponse buildVersionPacket = Some transportVersion /\
  parseVersionResponse buildUDPScanPacket = Some transportVersion /\
  buildVersionPacket = [8; 0; 0x01; 0x20; 0x05; 0; 0; 0x01] /\
  buildHeartbeat = [4; 0; 0x5f; 0].
Proof. repeat split; reflexivity. Qed.

Lemma sdkFrame_parse (totalLen offset : nat) (chunk : bytes) :
  (length chunk <= MaxContentLength)%nat ->
  parsePacketHeader (sdkFrame CmdSdkCmdAsk totalLen offset chunk) =
    Some (Z.of_nat (length (sdkFrame CmdSdkCmdAsk totalLen offset chunk)), CmdSdkCmdAsk) /\
  length (sdkFrame CmdSdkCmdAsk totalLen offset chunk) = (sdkCmdHeaderLength + length chunk)%nat /\
  parseSdkCmdHeader (sdkFrame CmdSdkCmdAsk totalLen offset chunk) =
    Some (uint32 (Z.of_nat totalLen), uint32 (Z.of_nat offset)) /\
  sdkChunk (sdkFrame CmdSdkCmdAsk totalLen offset chunk) = chunk.
Proof.
  intros Hc. rewrite MaxContentLength_val in Hc.
  assert (Hlen : length (sdkFrame CmdSdkCmdAsk totalLen offset chunk)
                 = (sdkCmdHeaderLength + length chunk)%nat).
  { unfold sdkFrame. rewrite !length_app, !length_putUint16, !length_putUint32.
    unfold sdkCmdHeaderLength. lia. }
  split; [| split; [exact Hlen | split; [| reflexivity]]].
  - rewrite Hlen. unfold sdkFrame.
    apply parsePacketHeader_app; unfold sdkCmdHeaderLength, CmdSdkCmdAsk; lia.
  - unfold parseSdkCmdHeader.
    destruct (Nat.ltb_spec (length (sdkFrame CmdSdkCmdAsk totalLen offset chunk))
                           sdkCmdHeaderLength) as [Hlt | _]; [lia |].
    pose proof (getUint32_putUint32 _ (uint32_range (Z.of_nat totalLen))) as E1.
    pose proof (getUint32_putUint32 _ (uint32_range (Z.of_nat offset))) as E2.
    unfold sdkFrame, putUint16.
    unfold putUint32 in *. cbn [app slice Nat.sub skipn firstn].
    rewrite E1, E2. reflexivity.
Qed.

Lemma sdkFragments_parse (xmlData : bytes) :
  Z.of_nat (length xmlData) < 2 ^ 32 ->
  forall frames offset,
    sdkFragments xmlData offset frames ->
    Forall (fun f =>
              parsePacketHeader f = Some (Z.of_nat (length f), CmdSdkCmdAsk) /\
              (sdkCmdHeaderLength < length f <= sdkCmdHeaderLength + MaxContentLength)%nat /\
              exists off,
                parseSdkCmdHeader f = Some (Z.of_nat (length xmlData), Z.of_nat off) /\
                sdkChunk f = slice xmlData off (off + (length f - sdkCmdHeaderLength)))
           frames.
Proof.
  intros HN. induction frames as [|f rest IH]; intros offset H; [constructor |].
  cbn [sdkFragments] in H.
  destruct H as [chunk [Hf [Hlen [Hchunk [Hle Hrest]]]]].
  constructor; [| exact (IH _ Hrest)].
  destruct (sdkFrame_parse (length xmlData) offset chunk) as [P1 [P2 [P3 P4]]]; [lia |].
  rewrite Hf. split; [exact P1 |]. rewrite P2. split; [lia |].
  exists offset. rewrite P3, P4.
  rewrite !uint32_small by lia.
  split; [reflexivity |].
  replace (sdkCmdHeaderLength + length chunk - sdkCmdHeaderLength)%nat
    with (length chunk) by lia.
  exact Hchunk.
Qed.

Lemma sdkCmdLoop_count (xmlData : bytes) :
  forall fuel offset packets,
    (offset <= length xmlData)%nat ->
    (length xmlData - offset <= fuel)%nat ->
    Z.of_nat (length (sdkCmdLoop fuel xmlData offset packets)) =
    Z.of_nat (length packets) + (Z.of_nat (length xmlData - offset) + 7999) / 8000.
Proof.
  induction fuel as [|fuel IH]; intros offset packets Hoff Hfuel; cbn [sdkCmdLoop].
  - replace (length xmlData - offset)%nat with 0%nat by lia. cbn. lia.
  - destruct (Nat.ltb_spec offset (length xmlData)) as [Hlt | Hge].
    + pose proof (sdkCmdChunkSize_spec (length xmlData) offset) as Hc.
      rewrite MaxContentLength_val in Hc.
      rewrite IH by lia.
      rewrite length_app. cbn [length].
      set (r := (length xmlData - offset)%nat) in *.
      set (k := sdkCmdChunkSize (length xmlData) offset) in *.
      replace (length xmlData - (offset + k))%nat with (r - k)%nat by lia.
      destruct (Nat.le_ge_cases r (Z.to_nat 8000)) as [Hsmall | Hbig].
      * replace (r - k)%nat with 0%nat by lia.
        assert (E : (Z.of_nat r + 7999) / 8000 = 1).
        { symmetry. apply (Z.div_unique _ _ 1 (Z.of_nat r - 1)); lia. }
        rewrite E. cbn. lia.
      * assert (Hk : k = Z.to_nat 8000) by lia.
        replace (Z.of_nat r + 7999) with (Z.of_nat (r - k) + 7999 + 1 * 8000) by lia.
        rewrite Z.div_add by lia. lia.
    + replace (length xmlData - offset)%nat with 0%nat by lia. cbn. lia.
Qed.

(** X2. Every frame of [buildSdkCmdPackets] reads back through the two
    header parsers: [parsePacketHeader] gives the length of the frame and
    [CmdSdkCmdAsk] (the 16-bit length field never wraps, a frame has at most
    12 + 8000 bytes), [parseSdkCmdHeader] gives the total length of the XML
    and the offset at which the chunk of the frame lies in it (for inputs
    below 4 GiB). The number of frames is the length divided by 8000,
    rounded up. *)
Theorem sdk_fragments_parse_back (xmlData : bytes) :
  Z.of_nat (length xmlData) < 2 ^ 32 ->
  Forall (fun f =>
            parsePacketHeader f = Some (Z.of_nat (length f), CmdSdkCmdAsk) /\
            (sdkCmdHeaderLength < length f <= sdkCmdHeaderLength + MaxContentLength)%nat /\
            exists off,
              parseSdkCmdHeader f = Some (Z.of_nat (length xmlData), Z.of_nat off) /\
              sdkChunk f = slice xmlData off (off + (length f - sdkCmdHeaderLength)))
         (buildSdkCmdPackets xmlData) /\
  Z.of_nat (length (buildSdkCmdPackets xmlData)) =
    (Z.of_nat (length xmlData) + 7999) / 8000.
Proof.
  intros HN. split.
  - exact (sdkFragments_parse xmlData HN _ _ (buildSdkCmdPackets_sdkFragments xmlData)).
  - unfold buildSdkCmdPackets.
    destruct (Nat.eqb_spec (length xmlData) 0) as [H0 | Hn].
    + rewrite H0. reflexivity.
    + rewrite sdkCmdLoop_count by lia. rewrite Nat.sub_0_r. cbn [length]. lia.
Qed.

Lemma sdk_fragments_parse_back_witness :
  Z.of_nat (length (buildSdkCmdPackets (repeat 60 (Z.to_nat 20000)))) = 3.
Proof.
  refine (eq_trans (proj2 (sdk_fragments_parse_back (repeat 60 (Z.to_nat 20000)) _)) _).
  - rewrite repeat_length. rewrite Z2Nat.id; lia.
  - rewrite repeat_length. rewrite Z2Nat.id by lia. reflexivity.
Defined.

Lemma buildFileContentPacket_app (data : bytes) :
  buildFileContentPacket data =
  putUint16 (uint16 (Z.of_nat (tcpHeaderLength + length data))) ++
  putUint16 CmdFileContentAsk ++ data.
Proof.
  unfold buildFileContentPacket. change tcpHeaderLength with 4%nat.
  rewrite copyInto_content by (auto using length_putUint16).
  rewrite (uint16_small CmdFileContentAsk) by (unfold CmdFileContentAsk; lia).
  reflexivity.
Qed.

(** X3. A content frame is its 4-byte header followed by the data, whatever
    the length of the data; the length field holds the frame length modulo
    65536, so it is the true length for the pieces an upload sends (at most
    [MaxContentLength] bytes) and wraps for a piece of 65532 bytes or more. *)
Theorem file_content_length_field_wraps (data : bytes) :
  parsePacketHeader (buildFileContentPacket data) =
    Some (Z.of_nat (tcpHeaderLength + length data) mod 2 ^ 16, CmdFileContentAsk) /\
  contentPayload (buildFileContentPacket data) = data /\
  length (buildFileContentPacket data) = (tcpHeaderLength + length data)%nat /\
  ((length data <= MaxContentLength)%nat ->
   parsePacketHeader (buildFileContentPacket data) =
     Some (Z.of_nat (length (buildFileContentPacket data)), CmdFileContentAsk)) /\
  (length data = Z.to_nat 65532 ->
   parsePacketHeader (buildFileContentPacket data) = Some (0, CmdFileContentAsk)).
Proof.
  assert (Hp : parsePacketHeader (buildFileContentPacket data) =
               Some (Z.of_nat (tcpHeaderLength + length data) mod 2 ^ 16, CmdFileContentAsk)).
  { rewrite buildFileContentPacket_app.
    apply parsePacketHeader_app; [apply uint16_range | unfold CmdFileContentAsk; lia]. }
  assert (Hl : length (buildFileContentPacket data) = (tcpHeaderLength + length data)%nat).
  { rewrite buildFileContentPacket_app, !length_app, !length_putUint16.
    unfold tcpHeaderLength. lia. }
  split; [exact Hp |]. split; [rewrite buildFileContentPacket_app; reflexivity |].
  split; [exact Hl |]. split.
  - intros Hle. rewrite MaxContentLength_val in Hle. rewrite Hp, Hl.
    rewrite Z.mod_small; [reflexivity |]. unfold tcpHeaderLength. lia.
  - intros H65. rewrite Hp, H65. unfold tcpHeaderLength.
    replace (Z.of_nat (4 + Z.to_nat 65532)) with 65536 by lia. reflexivity.
Qed.

Lemma file_content_length_field_wraps_witness :
  parsePacketHeader (buildFileContentPacket (str "abc")) = Some (7, CmdFileContentAsk) /\
  parsePacketHeader (buildFileContentPacket (repeat 1 (Z.to_nat 65532)))
  = Some (0, CmdFileContentAsk).
Proof.
  split.
  - refine (eq_trans (proj1 (proj2 (proj2 (proj2
      (file_content_length_field_wraps (str "abc"))))) _) _).
    + rewrite MaxContentLength_val. cbn. lia.
    + reflexivity.
  - refine (proj2 (proj2 (proj2 (proj2
      (file_content_length_field_wraps (repeat 1 (Z.to_nat 65532)))))) _).
    apply repeat_length.
Defined.

(** X4. The layout of the file start packet: the length field is the
    frame length modulo 65536, then [CmdFileStartAsk], the digest cut or
    zero-padded to 32 bytes, a zero byte, the file size modulo 2^32 (a file
    of 4 GiB or more declares a wrong size), four zero bytes, the file type
    as a 16-bit value ([FileTypeAuto], -1, would go out as 0xffff), the file
    name and its terminating zero byte. The frame has 48 bytes more than
    the name. *)
Theorem buildFileStartPacket_layout (fileName : bytes) (fileSize : nat) (fileType : Z)
        (md5Hash : bytes) :
  buildFileStartPacket fileName fileSize fileType md5Hash =
    putUint16 (uint16 (Z.of_nat (48 + length fileName))) ++
    putUint16 CmdFileStartAsk ++
    md5Field md5Hash ++ [0] ++
    putUint32 (uint32 (Z.of_nat fileSize)) ++ [0; 0; 0; 0] ++
    putUint16 (uint16 fileType) ++
    fileName ++ [0] /\
  length (buildFileStartPacket fileName fileSize fileType md5Hash)
    = (48 + length fileName)%nat /\
  putUint16 (uint16 FileTypeAuto) = [255; 255].
Proof.
  assert (Hmd5 : length (md5Field md5Hash) = 32%nat).
  { unfold md5Field. rewrite firstn_length_le; [reflexivity |].
    rewrite length_app, length_make. lia. }
  assert (E : buildFileStartPacket fileName fileSize fileType md5Hash =
    putUint16 (uint16 (Z.of_nat (48 + length fileName))) ++
    putUint16 CmdFileStartAsk ++
    md5Field md5Hash ++ [0] ++
    putUint32 (uint32 (Z.of_nat fileSize)) ++ [0; 0; 0; 0] ++
    putUint16 (uint16 fileType) ++
    fileName ++ [0]).
  { unfold buildFileStartPacket.
    set (n := length fileName).
    set (h1 := putUint16 (uint16 (Z.of_nat (47 + n + 1)))).
    set (h2 := putUint16 (uint16 CmdFileStartAsk)).
    set (sz := putUint32 (uint32 (Z.of_nat fileSize))).
    set (ty := putUint16 (uint16 fileType)).
    assert (M : make (47 + n + 1) =
                make 2 ++ make 2 ++ make 32 ++ make 1 ++ make 4 ++ make 4 ++ make 2 ++
                make n ++ make 1).
    { rewrite <- !make_add. reflexivity. }
    rewrite M.
    rewrite (copyInto_at _ h1 [] (make 2)
               (make 2 ++ make 32 ++ make 1 ++ make 4 ++ make 4 ++ make 2 ++ make n ++ make 1))
      by (try reflexivity; cbn; lia).
    cbn [app].
    rewrite (copyInto_at _ h2 h1 (make 2)
               (make 32 ++ make 1 ++ make 4 ++ make 4 ++ make 2 ++ make n ++ make 1))
      by (try reflexivity; cbn; lia).
    rewrite (copyInto_pad _ md5Hash (h1 ++ h2)
               (make 1 ++ make 4 ++ make 4 ++ make 2 ++ make n ++ make 1) 32)
      by (rewrite <- ?app_assoc; reflexivity).
    fold (md5Field md5Hash).
    rewrite (copyInto_at _ sz ((h1 ++ h2) ++ md5Field md5Hash ++ make 1) (make 4)
               (make 4 ++ make 2 ++ make n ++ make 1))
      by (rewrite <- ?app_assoc; try reflexivity;
          rewrite ?length_app, ?Hmd5; cbn; lia).
    rewrite (copyInto_at _ ty
               ((((h1 ++ h2) ++ md5Field md5Hash ++ make 1) ++ sz) ++ make 4) (make 2)
               (make n ++ make 1))
      by (rewrite <- ?app_assoc; try reflexivity;
          rewrite ?length_app, ?Hmd5; cbn; lia).
    rewrite (copyInto_at _ fileName
               (((((h1 ++ h2) ++ md5Field md5Hash ++ make 1) ++ sz) ++ make 4) ++ ty)
               (make n) (make 1))
      by (rewrite <- ?app_assoc; try reflexivity;
          rewrite ?length_app, ?Hmd5, ?length_make; cbn; fold n; lia).
    replace (47 + n + 1 - 1)%nat
      with (length ((((((h1 ++ h2) ++ md5Field md5Hash ++ make 1) ++ sz) ++ make 4) ++ ty)
                    ++ fileName))
      by (rewrite ?length_app, ?Hmd5; cbn; fold n; lia).
    change (make 1) with [0] at 2.
    rewrite app_assoc with (n := [0]).
    rewrite setByte_last.
    subst h1 h2.
    replace (47 + n + 1)%nat with (48 + n)%nat by lia.
    rewrite (uint16_small CmdFileStartAsk) by (unfold CmdFileStartAsk; lia).
    rewrite <- !app_assoc. reflexivity. }
  split; [exact E |]. split; [| reflexivity].
  rewrite E. rewrite !length_app, !length_putUint16, !length_putUint32, Hmd5. cbn. lia.
Qed.

(** ** Reading frames *)

Lemma firstn_2_split (l : bytes) n :
  (2 <= n)%nat -> firstn 2 l ++ firstn (n - 2) (skipn 2 l) = firstn n l.
Proof.
  intros Hn. destruct n as [|[|m]]; try lia.
  cbn [Nat.sub]. rewrite Nat.sub_0_r.
  destruct l as [|a [|b l]]; cbn [firstn skipn app]; rewrite ?firstn_nil; reflexivity.
Qed.

(** X5. What [readPacket] returns when it succeeds: the socket is there
    and open, the frame has at least four bytes, it is exactly the front of
    the stream in the length its first two bytes declare, the bytes after
    it stay in the stream for the next call, the command type is read from
    bytes 2 and 3 of the frame, and nothing is written. *)
Theorem readPacket_returns_declared_frame (w w' : World) (pkt : bytes) (cmd : Z) :
  readPacket w = (Ok (pkt, cmd), w') ->
  exists c,
    conn (dev w) = Some c /\ cclosed c = false /\
    (tcpHeaderLength <= length pkt)%nat /\
    Z.of_nat (length pkt) = getUint16 (firstn 2 (rx c)) /\
    rx c = pkt ++ skipn (length pkt) (rx c) /\
    w' = setRx c (skipn (length pkt) (rx c)) w /\
    cmd = getUint16 (slice pkt 2 4) /\
    wire w' = wire w.
Proof.
  unfold readPacket. intros H.
  destruct (conn (dev w)) as [c |] eqn:Hc; [| discriminate].
  destruct (cclosed c) eqn:Hopen; [discriminate |].
  destruct (Nat.ltb_spec (length (rx c)) 2) as [| H2]; [discriminate |].
  set (pktLen := Z.to_nat (getUint16 (firstn 2 (rx c)))) in *.
  destruct (Nat.ltb_spec pktLen tcpHeaderLength) as [| H4]; [discriminate |].
  destruct (Nat.ltb_spec (length (skipn 2 (rx c))) (pktLen - 2)) as [| Hrest];
    [discriminate |].
  unfold tcpHeaderLength in H4.
  assert (Hpkt : copyInto (copyInto (make pktLen) 0 2 (firstn 2 (rx c))) 2 pktLen
                          (firstn (pktLen - 2) (skipn 2 (rx c)))
                 = firstn pktLen (rx c)).
  { rewrite copyInto_frame.
    - apply firstn_2_split. lia.
    - rewrite length_firstn. lia.
    - rewrite length_firstn. lia.
    - lia. }
  rewrite Hpkt in H.
  assert (Hlen : length (firstn pktLen (rx c)) = pktLen).
  { rewrite length_firstn. rewrite length_skipn in Hrest. lia. }
  injection H as Ep Ecmd Ew. subst pkt.
  exists c. rewrite Hlen.
  split; [reflexivity |]. split; [exact Hopen |].
  split; [unfold tcpHeaderLength; lia |].
  split; [unfold pktLen; rewrite Z2Nat.id; [reflexivity |]; unfold pktLen in H4; lia |].
  split; [symmetry; apply firstn_skipn |].
  assert (Esk : skipn (pktLen - 2) (skipn 2 (rx c)) = skipn pktLen (rx c)).
  { rewrite skipn_skipn. f_equal. lia. }
  change (skipn (pktLen - 2) match rx c with
                             | _ :: _ :: l0 => l0
                             | _ => []
                             end)
    with (skipn (pktLen - 2) (skipn 2 (rx c))) in Ew.
  rewrite Esk in Ew.
  split; [symmetry; exact Ew |].
  split; [symmetry; exact Ecmd |]. rewrite <- Ew. reflexivity.
Qed.

Lemma readPacket_returns_declared_frame_witness :
  let c := mkConn (buildHeartbeat ++ [9; 9]) 0 false in
  exists c',
    conn (dev (onSocket c)) = Some c' /\
    rx c' = buildHeartbeat ++ skipn (length buildHeartbeat) (rx c').
Proof.
  intros c.
  destruct (readPacket_returns_declared_frame (onSocket c) (setRx c [9; 9] (onSocket c))
              buildHeartbeat CmdHeartbeatAsk eq_refl)
    as [c' [H1 [_ [_ [_ [H5 _]]]]]].
  exists c'. split; assumption.
Defined.

Lemma readPacket_length_field (w : World) c (len : Z) (rest : bytes) :
  conn (dev w) = Some c -> cclosed c = false ->
  rx c = putUint16 len ++ rest -> 0 <= len < 2 ^ 16 ->
  readPacket w =
  if (Z.to_nat len <? tcpHeaderLength)%nat
  then (Err (ErrInvalidPacketLength len), setRx c rest w)
  else if (length rest <? Z.to_nat len - 2)%nat
       then (Err (ErrWrap WrapReadData ErrIO), setRx c [] w)
       else
         let pkt := copyInto (copyInto (make (Z.to_nat len)) 0 2 (putUint16 len))
                             2 (Z.to_nat len) (firstn (Z.to_nat len - 2) rest) in
         (Ok (pkt, getUint16 (slice pkt 2 4)),
          setRx c (skipn (Z.to_nat len - 2) rest) w).
Proof.
  intros Hc Hopen Hrx Hlen. unfold readPacket. rewrite Hc, Hopen, Hrx.
  pose proof (getUint16_putUint16 len Hlen) as E.
  unfold putUint16 in *. cbn [app length firstn skipn].
  match goal with
  | |- context [(?a <? 2)%nat] =>
      destruct (Nat.ltb_spec a 2) as [Hbad | _]; [lia |]
  end.
  rewrite E. reflexivity.
Qed.

(** X6. How [readPacket] fails: without a socket it fails at once and
    leaves everything as it is; a stream of fewer than two bytes is a
    failed read of the length; a length field below 4 is refused as an
    invalid packet length after its two bytes were consumed (the rest of
    the stream stays); a stream that ends before the declared length is a
    failed read of the data, and the bytes read so far are lost. *)
Theorem readPacket_rejects (w : World) :
  (conn (dev w) = None -> readPacket w = (Err ErrConnClosed, w)) /\
  (forall c, conn (dev w) = Some c -> cclosed c = false ->
             (length (rx c) < 2)%nat ->
             readPacket w = (Err (ErrWrap WrapReadLength ErrIO), setRx c [] w)) /\
  (forall c len rest,
      conn (dev w) = Some c -> cclosed c = false ->
      rx c = putUint16 len ++ rest -> 0 <= len < 4 ->
      readPacket w = (Err (ErrInvalidPacketLength len), setRx c rest w)) /\
  (forall c len rest,
      conn (dev w) = Some c -> cclosed c = false ->
      rx c = putUint16 len ++ rest -> 4 <= len < 2 ^ 16 ->
      Z.of_nat (length rest) < len - 2 ->
      readPacket w = (Err (ErrWrap WrapReadData ErrIO), setRx c [] w)).
Proof.
  split; [| split; [| split]].
  - intros Hc. unfold readPacket. rewrite Hc. reflexivity.
  - intros c Hc Hopen Hlen. unfold readPacket. rewrite Hc, Hopen.
    destruct (Nat.ltb_spec (length (rx c)) 2); [reflexivity | lia].
  - intros c len rest Hc Hopen Hrx Hlen.
    rewrite (readPacket_length_field w c len rest Hc Hopen Hrx) by lia.
    destruct (Nat.ltb_spec (Z.to_nat len) tcpHeaderLength) as [_ | Hbad];
      [reflexivity | unfold tcpHeaderLength in Hbad; lia].
  - intros c len rest Hc Hopen Hrx Hlen Hshort.
    rewrite (readPacket_length_field w c len rest Hc Hopen Hrx) by lia.
    destruct (Nat.ltb_spec (Z.to_nat len) tcpHeaderLength) as [Hbad | _];
      [unfold tcpHeaderLength in Hbad; lia |].
    destruct (Nat.ltb_spec (length rest) (Z.to_nat len - 2)) as [_ | Hbad];
      [reflexivity | lia].
Qed.

Lemma readPacket_rejects_witness :
  let c1 := mkConn [3; 0; 7; 7] 0 false in
  let c2 := mkConn [8; 0; 1; 32; 5] 0 false in
  readPacket (onSocket c1) = (Err (ErrInvalidPacketLength 3), setRx c1 [7; 7] (onSocket c1)) /\
  readPacket (onSocket c2) = (Err (ErrWrap WrapReadData ErrIO), setRx c2 [] (onSocket c2)) /\
  readPacket (newWorld NewDevice) = (Err ErrConnClosed, newWorld NewDevice).
Proof.
  intros c1 c2. split; [| split].
  - apply (proj1 (proj2 (proj2 (readPacket_rejects (onSocket c1)))) c1 3 [7; 7]);
      try reflexivity; lia.
  - apply (proj2 (proj2 (proj2 (readPacket_rejects (onSocket c2)))) c2 8 [1; 32; 5]);
      try reflexivity; cbn; lia.
  - apply (proj1 (readPacket_rejects (newWorld NewDevice))). reflexivity.
Defined.

(** ** Frames other than fragments while a response is read *)

(** X7. A heartbeat answer that arrives while an SDK response is awaited is
    consumed and skipped: the loop goes on with the frames behind it, with
    the buffer and the expected total as they were (and one log line, when
    a logger is configured). *)
Theorem heartbeat_answer_is_skipped fuel xmlBuf totalExpected (w : World) c
        (payload rest : bytes) :
  conn (dev w) = Some c -> cclosed c = false ->
  rx c = peerFrame CmdHeartbeatAnswer payload ++ rest ->
  Z.of_nat (tcpHeaderLength + length payload) < 2 ^ 16 ->
  assembleLoop (S fuel) xmlBuf totalExpected w =
    assembleLoop fuel xmlBuf totalExpected
                 (snd (logf LogHeartbeatAnswer (setRx c rest w))) /\
  (hasLogger (dev w) = false ->
   assembleLoop (S fuel) xmlBuf totalExpected w =
     assembleLoop fuel xmlBuf totalExpected (setRx c rest w)).
Proof.
  intros Hc Hopen Hrx Hlen.
  assert (E : assembleLoop (S fuel) xmlBuf totalExpected w =
              assembleLoop fuel xmlBuf totalExpected
                           (snd (logf LogHeartbeatAnswer (setRx c rest w)))).
  { cbn [assembleLoop].
    rewrite (bind_Ok _ _ _ _ _
               (readPacket_peerFrame w c CmdHeartbeatAnswer payload rest Hc Hopen Hrx Hlen
                  ltac:(unfold CmdHeartbeatAnswer; lia))).
    change (CmdHeartbeatAnswer =? CmdSdkCmdAnswer) with false.
    change (CmdHeartbeatAnswer =? CmdErrorAnswer) with false.
    change (CmdHeartbeatAnswer =? CmdHeartbeatAnswer) with true.
    cbv iota.
    rewrite (bind_Ok _ _ _ _ _ (logf_run LogHeartbeatAnswer (setRx c rest w))).
    reflexivity. }
  split; [exact E |].
  intros Hlog. rewrite E. unfold logf. cbn [snd setRx withDev dev hasLogger setConn].
  rewrite Hlog. reflexivity.
Qed.

Lemma heartbeat_answer_is_skipped_witness :
  let f := mkFragment 2 0 (str "ok") in
  let c := mkConn (peerFrame CmdHeartbeatAnswer [] ++ fragmentFrame f) 0 false in
  fst (assembleLoop 2 None 0 (onSocket c)) = Ok (str "ok").
Proof.
  intros f c.
  rewrite (proj2 (heartbeat_answer_is_skipped 1 None 0 (onSocket c) c [] (fragmentFrame f)
                    eq_refl eq_refl eq_refl ltac:(cbn; lia)) eq_refl).
  reflexivity.
Defined.

Lemma parseErrorCode_answer code extra :
  0 <= code < 2 ^ 16 ->
  parseErrorCode (peerFrame CmdErrorAnswer (putUint16 code ++ extra)) = Some code.
Proof.
  intros Hc. unfold parseErrorCode.
  pose proof (getUint16_putUint16 code Hc) as E.
  unfold peerFrame, putUint16 in *. cbn [app length slice Nat.sub skipn firstn].
  match goal with
  | |- context [(?a <? 6)%nat] =>
      destruct (Nat.ltb_spec a 6) as [Hbad | _]; [lia |]
  end.
  rewrite E. reflexivity.
Qed.

(** X8. An error answer of the device ends the reading of an SDK response
    at once, also in the middle of a fragmented response: the error carries
    the device's code (or none, when the frame is too short to hold one),
    the fragments gathered so far are dropped and the frames behind the
    error answer stay in the stream. Any frame that is neither a fragment,
    an error answer nor a heartbeat answer ends it with an unexpected
    command error. *)
Theorem error_answer_ends_response fuel xmlBuf totalExpected (w : World) c :
  conn (dev w) = Some c -> cclosed c = false ->
  (forall code extra rest,
      rx c = peerFrame CmdErrorAnswer (putUint16 code ++ extra) ++ rest ->
      0 <= code < 2 ^ 16 ->
      Z.of_nat (tcpHeaderLength + length (putUint16 code ++ extra)) < 2 ^ 16 ->
      assembleLoop (S fuel) xmlBuf totalExpected w =
      (Err (ErrSdkAnswer (Some code)), setRx c rest w)) /\
  (forall rest,
      rx c = peerFrame CmdErrorAnswer [] ++ rest ->
      assembleLoop (S fuel) xmlBuf totalExpected w =
      (Err (ErrSdkAnswer None), setRx c rest w)) /\
  (forall cmd payload rest,
      rx c = peerFrame cmd payload ++ rest ->
      0 <= cmd < 2 ^ 16 ->
      Z.of_nat (tcpHeaderLength + length payload) < 2 ^ 16 ->
      cmd <> CmdSdkCmdAnswer -> cmd <> CmdErrorAnswer -> cmd <> CmdHeartbeatAnswer ->
      assembleLoop (S fuel) xmlBuf totalExpected w =
      (Err (ErrUnexpectedCmd cmd), setRx c rest w)).
Proof.
  intros Hc Hopen. split; [| split].
  - intros code extra rest Hrx Hcode Hlen. cbn [assembleLoop].
    rewrite (bind_Ok _ _ _ _ _
               (readPacket_peerFrame w c CmdErrorAnswer _ rest Hc Hopen Hrx Hlen
                  ltac:(unfold CmdErrorAnswer; lia))).
    change (CmdErrorAnswer =? CmdSdkCmdAnswer) with false.
    change (CmdErrorAnswer =? CmdErrorAnswer) with true.
    cbv iota. rewrite parseErrorCode_answer by exact Hcode. reflexivity.
  - intros rest Hrx. cbn [assembleLoop].
    rewrite (bind_Ok _ _ _ _ _
               (readPacket_peerFrame w c CmdErrorAnswer [] rest Hc Hopen Hrx
                  ltac:(cbn; lia) ltac:(unfold CmdErrorAnswer; lia))).
    reflexivity.
  - intros cmd payload rest Hrx Hcmd Hlen N1 N2 N3. cbn [assembleLoop].
    rewrite (bind_Ok _ _ _ _ _
               (readPacket_peerFrame w c cmd payload rest Hc Hopen Hrx Hlen Hcmd)).
    destruct (Z.eqb_spec cmd CmdSdkCmdAnswer); [contradiction |].
    destruct (Z.eqb_spec cmd CmdErrorAnswer); [contradiction |].
    destruct (Z.eqb_spec cmd CmdHeartbeatAnswer); [contradiction |].
    reflexivity.
Qed.

Lemma error_answer_ends_response_witness :
  let first := mkFragment 8 0 (str "<sdk") in
  let c := mkConn (fragmentFrame first ++ errorAnswer 23 ++ [1]) 0 false in
  assembleLoop 2 None 0 (onSocket c) = (Err (ErrSdkAnswer (Some 23)), setRx c [1] (onSocket c)).
Proof.
  intros first c.
  assert (H1 : assembleLoop 2 None 0 (onSocket c) =
               assembleLoop 1 (Some (copyFragment (make 8) first)) 8
                            (setRx c (errorAnswer 23 ++ [1]) (onSocket c)))
    by reflexivity.
  rewrite H1.
  rewrite (proj1 (error_answer_ends_response 0 (Some (copyFragment (make 8) first)) 8
                    (setRx c (errorAnswer 23 ++ [1]) (onSocket c))
                    (mkConn (errorAnswer 23 ++ [1]) 0 false) eq_refl eq_refl)
                 23 [] [1] eq_refl ltac:(lia) ltac:(cbn; lia)).
  reflexivity.
Defined.

(** X9. A fragment whose declared offset lies beyond the end of the buffer
    makes the slice expression [xmlBuf[offset:]] panic: for a first
    fragment that is any offset above the total it declares itself. The
    peer can end the calling goroutine this way. *)
Theorem fragment_beyond_buffer_panics fuel xmlBuf totalExpected (f : fragment)
        (w : World) c (rest : bytes) :
  let buf := match xmlBuf with None => make (Z.to_nat (fTotal f)) | Some b => b end in
  conn (dev w) = Some c -> cclosed c = false ->
  rx c = fragmentFrame f ++ rest ->
  0 <= fTotal f < 2 ^ 32 -> 0 <= fOffset f < 2 ^ 32 ->
  Z.of_nat (sdkCmdHeaderLength + length (fChunk f)) < 2 ^ 16 ->
  Z.of_nat (length buf) < fOffset f ->
  assembleLoop (S fuel) xmlBuf totalExpected w = (Panic, setRx c rest w).
Proof.
  intros buf Hc Hopen Hrx Ht Ho Hlen Hbeyond.
  cbn [assembleLoop].
  rewrite fragmentFrame_peer in Hrx.
  rewrite (bind_Ok _ _ _ _ _
             (readPacket_peerFrame w c CmdSdkCmdAnswer _ rest Hc Hopen Hrx
                ltac:(rewrite !length_app, !length_putUint32;
                      unfold tcpHeaderLength, sdkCmdHeaderLength in *; lia)
                ltac:(unfold CmdSdkCmdAnswer; lia))).
  change (CmdSdkCmdAnswer =? CmdSdkCmdAnswer) with true. cbv iota.
  rewrite <- fragmentFrame_peer.
  unfold sdkAnswerStep, fragmentFrame.
  rewrite parseSdkCmdHeader_answer by assumption.
  destruct xmlBuf as [b |]; subst buf.
  - destruct (Nat.ltb_spec (length b) (Z.to_nat (fOffset f))) as [_ | Hbad];
      [reflexivity | lia].
  - destruct (Nat.ltb_spec (length (make (Z.to_nat (fTotal f)))) (Z.to_nat (fOffset f)))
      as [_ | Hbad]; [reflexivity | lia].
Qed.

Lemma fragment_beyond_buffer_panics_witness :
  let f := mkFragment 4 5 (str "x") in
  let c := mkConn (fragmentFrame f) 0 false in
  fst (assembleSdkXml (onSocket c)) = Panic.
Proof.
  intros f c. unfold assembleSdkXml.
  assert (Ht : 0 <= fTotal f < 2 ^ 32) by (cbn; lia).
  assert (Ho : 0 <= fOffset f < 2 ^ 32) by (cbn; lia).
  assert (Hl : Z.of_nat (sdkCmdHeaderLength + length (fChunk f)) < 2 ^ 16) by (cbn; lia).
  assert (Hb : Z.of_nat (length (make (Z.to_nat (fTotal f)))) < fOffset f)
    by (rewrite length_make; cbn; lia).
  rewrite (fragment_beyond_buffer_panics _ None 0 f (onSocket c) c []
             eq_refl eq_refl eq_refl Ht Ho Hl Hb).
  reflexivity.
Defined.

(** X10. Reading an SDK response only reads: whatever arrives, and whether
    the call returns a response, an error or panics, nothing is written to
    the socket, the socket is neither closed nor replaced, and the liveness
    flag, the stop channel, the cached descriptor and the goroutines stay
    as they were. *)
Theorem readSdkResponse_only_reads `{GoRuntime} (w : World) :
  wire (snd (readSdkResponse w)) = wire w /\
  sameSession w (snd (readSdkResponse w)).
Proof.
  split; [apply writesNothing_readSdkResponse |].
  unfold readSdkResponse.
  apply keepsSession_bind.
  - intros w0. unfold assembleSdkXml. apply keepsSession_assembleLoop.
  - intros xmlStr. unfold liftParse.
    destruct (parseSdkResponse xmlStr); [apply keepsSession_ret | apply keepsSession_fail].
Qed.

(** ** The handshake, [Connect] and [Close] *)

Lemma parseVersionResponse_peer cmd (payload : bytes) :
  parseVersionResponse (peerFrame cmd payload) =
  if (length payload <? 4)%nat then None else Some (getUint32 (firstn 4 payload)).
Proof.
  unfold parseVersionResponse, peerFrame, putUint16.
  cbn [app length slice Nat.sub skipn].
  destruct (Nat.ltb_spec (length payload) 4) as [Hs | Hl];
    match goal with
    | |- context [(?a <? 8)%nat] => destruct (Nat.ltb_spec a 8) as [H8 | H8]; try lia
    end; reflexivity.
Qed.

Lemma parseErrorCode_peer cmd (payload : bytes) :
  parseErrorCode (peerFrame cmd payload) =
  if (length payload <? 2)%nat then None else Some (getUint16 (firstn 2 payload)).
Proof.
  unfold parseErrorCode, peerFrame, putUint16.
  cbn [app length slice Nat.sub skipn].
  destruct (Nat.ltb_spec (length payload) 2) as [Hs | Hl];
    match goal with
    | |- context [(?a <? 6)%nat] => destruct (Nat.ltb_spec a 6) as [H6 | H6]; try lia
    end; reflexivity.
Qed.

(** X11. Phase 1 of the handshake, for any frame the peer answers with:
    the version packet is written, the answer is consumed and what
    follows it stays in the stream. A service answer of at least eight
    bytes is accepted whatever version it carries (the version is logged,
    never compared); a shorter one cannot be parsed; an error answer gives
    the device's code when the frame holds one; any other frame is
    unexpected. *)
Theorem handshakeVersion_outcome (w : World) (cmd : Z) (payload rest : bytes) (n : nat) :
  onConn w (peerFrame cmd payload ++ rest) (S n) ->
  0 <= cmd < 2 ^ 16 ->
  Z.of_nat (tcpHeaderLength + length payload) < 2 ^ 16 ->
  exists w',
    handshakeVersion w =
      (if cmd =? CmdServiceAnswer then
         if (length payload <? 4)%nat then Err ErrVersionParse else Ok tt
       else if cmd =? CmdErrorAnswer then
         Err (ErrDeviceAnswer (if (length payload <? 2)%nat then None
                               else Some (getUint16 (firstn 2 payload))))
       else Err (ErrUnexpectedCmd cmd), w') /\
    wire w' = wire w ++ [buildVersionPacket] /\
    onConn w' rest n.
Proof.
  intros Hon Hcmd Hlen.
  destruct (sendRaw_onConn buildVersionPacket w _ _ Hon) as [w1 [Hs [Hon1 [Hw1 _]]]].
  destruct (readPacket_onConn w1 cmd payload rest n Hon1 Hlen Hcmd)
    as [w2 [Hr [Hon2 Hw2]]].
  unfold handshakeVersion.
  rewrite (bind_Ok _ _ _ _ _ (wrapErr_Ok WrapVersionSend _ _ _ _ Hs)).
  rewrite (bind_Ok _ _ _ _ _ (wrapErr_Ok WrapVersionRead _ _ _ _ Hr)).
  rewrite parseVersionResponse_peer, parseErrorCode_peer.
  destruct (cmd =? CmdServiceAnswer).
  - destruct (length payload <? 4)%nat.
    + exists w2. repeat split; [congruence | exact Hon2].
    + destruct (logf_spec (LogTransportVersion (getUint32 (firstn 4 payload))) w2)
        as [w3 [Hl3 [Hd3 Hw3]]].
      exists w3. rewrite Hl3. split; [reflexivity |]. split; [congruence |].
      exact (onConn_dev _ _ _ _ Hd3 Hon2).
  - destruct (cmd =? CmdErrorAnswer); exists w2;
      (split; [reflexivity | split; [congruence | exact Hon2]]).
Qed.

Lemma handshakeVersion_outcome_witness :
  let w ver := onSocket (mkConn (versionAnswer ver) 1 false) in
  fst (handshakeVersion (w 0)) = Ok tt /\
  fst (handshakeVersion (w 0xffffffff)) = Ok tt /\
  fst (handshakeVersion (onSocket (mkConn (errorAnswer 3) 1 false)))
  = Err (ErrDeviceAnswer (Some 3)).
Proof.
  intros w.
  destruct (handshakeVersion_outcome (w 0) CmdServiceAnswer (putUint32 0) [] 0 eq_refl)
    as [w1 [H1 _]]; [unfold CmdServiceAnswer; lia | cbn; lia |].
  destruct (handshakeVersion_outcome (w 0xffffffff) CmdServiceAnswer
              (putUint32 0xffffffff) [] 0 eq_refl)
    as [w2 [H2 _]]; [unfold CmdServiceAnswer; lia | cbn; lia |].
  destruct (handshakeVersion_outcome (onSocket (mkConn (errorAnswer 3) 1 false))
              CmdErrorAnswer (putUint16 3) [] 0 eq_refl)
    as [w3 [H3 _]]; [unfold CmdErrorAnswer; lia | cbn; lia |].
  rewrite H1, H2, H3. repeat split; reflexivity.
Defined.

Lemma closeInternal_fields (w : World) :
  let w1 := snd (closeInternal w) in
  conn (dev w1) = None /\ connected (dev w1) = false /\
  stopHeartbeat (dev w1) = None /\
  wire w1 = wire w /\ logs w1 = logs w /\ nextChan w1 = nextChan w /\
  hbStarted w1 = hbStarted w /\ info (dev w1) = info (dev w) /\
  sdkGUID (dev w1) = sdkGUID (dev w) /\ hasLogger (dev w1) = hasLogger (dev w) /\
  closedChans w1 = match stopHeartbeat (dev w) with
                   | Some ch => ch :: closedChans w
                   | None => closedChans w
                   end /\
  fst (closeInternal w) =
    match conn (dev w) with
    | Some c => if cclosed c then Err ErrIO else Ok tt
    | None => Ok tt
    end.
Proof.
  destruct w as [d wi lo pr nc cc hs]. destruct d as [co g cn sh i hl hp].
  unfold closeInternal. cbn.
  destruct co as [c0 |]; [destruct (cclosed c0) |]; cbn; repeat split; reflexivity.
Qed.

Lemma try_closeInternal (w : World) :
  exists r, try closeInternal w = (Ok r, snd (closeInternal w)).
Proof.
  destruct w as [d wi lo pr nc cc hs]. destruct d as [co g cn sh i hl hp].
  unfold try, closeInternal. cbn.
  destruct co as [c0 |]; [destruct (cclosed c0) |]; cbn; eexists; reflexivity.
Qed.

(** X12. When the dial fails, [Connect] returns the wrapped dial error and
    leaves the device without a socket. A connection that existed before
    the call is gone by then: [Connect] closes it (stop channel closed,
    liveness flag cleared) before it dials, so a failed reconnect loses
    the old session. A device that had no socket is left as it was.
    Nothing is written and no goroutine is started. *)
Theorem Connect_dial_failure `{GoRuntime} (uuid : bytes) (w : World) :
  let r := Connect None uuid w in
  fst r = Err (ErrWrap WrapDial ErrIO) /\
  conn (dev (snd r)) = None /\
  wire (snd r) = wire w /\ hbStarted (snd r) = hbStarted w /\
  info (dev (snd r)) = info (dev w) /\ sdkGUID (dev (snd r)) = sdkGUID (dev w) /\
  match conn (dev w) with
  | None => dev (snd r) = dev w /\ closedChans (snd r) = closedChans w
  | Some _ =>
      connected (dev (snd r)) = false /\ stopHeartbeat (dev (snd r)) = None /\
      closedChans (snd r) = match stopHeartbeat (dev w) with
                            | Some ch => ch :: closedChans w
                            | None => closedChans w
                            end
  end.
Proof.
  destruct w as [d wi lo pr nc cc hs]. destruct d as [co g cn sh i hl hp].
  unfold Connect, bind, getDev, try, closeInternal, logf, modifyDev, ret, fail.
  cbn. destruct co as [c0 |]; cbn.
  - destruct (cclosed c0); cbn; destruct hl; cbn; repeat split; reflexivity.
  - destruct hl; cbn; repeat split; reflexivity.
Qed.

Lemma connectPhases_phase1_failed `{GoRuntime} (uuid : bytes) (w0 w1 : World) e :
  handshakeVersion w0 = (Err e, w1) ->
  connectPhases uuid w0 = (Err (ErrWrap WrapVersion e), snd (closeInternal w1)).
Proof.
  intros H1. unfold connectPhases.
  rewrite (bind_Ok _ _ w0 _ w1 (try_Err _ _ _ _ H1)). cbn [fst].
  destruct (try_closeInternal w1) as [r Hr].
  rewrite (bind_Ok _ _ _ _ _ Hr). reflexivity.
Qed.

Lemma connectPhases_phase2_failed `{GoRuntime} (uuid : bytes) (w0 w1 w2 : World) e :
  handshakeVersion w0 = (Ok tt, w1) ->
  handshakeSdkVersion uuid (snd (logf LogPhase2 w1)) = (Err e, w2) ->
  connectPhases uuid w0 = (Err (ErrWrap WrapSdkVersion e), snd (closeInternal w2)).
Proof.
  intros H1 H2. unfold connectPhases.
  rewrite (bind_Ok _ _ w0 _ w1 (try_Ok _ _ _ _ H1)). cbn [fst].
  rewrite (bind_Ok _ _ w1 _ _ (logf_run LogPhase2 w1)).
  rewrite (bind_Ok _ _ _ _ w2 (try_Err _ _ _ _ H2)). cbn [fst].
  destruct (try_closeInternal w2) as [r Hr].
  rewrite (bind_Ok _ _ _ _ _ Hr). reflexivity.
Qed.

(** X13. A failure of phase 1 or of phase 2 of the handshake is fatal to
    [Connect]: it returns the error of the phase, wrapped, and the
    connection it had just opened is torn down again: no socket, liveness
    flag cleared, no stop channel, and no heartbeat goroutine was
    started. *)
Theorem Connect_handshake_failure_closes `{GoRuntime} (c : Conn) (uuid : bytes)
        (w : World) :
  (forall e w1,
      handshakeVersion (snd (connectPrefix c w)) = (Err e, w1) ->
      exists w',
        Connect (Some c) uuid w = (Err (ErrWrap WrapVersion e), w') /\
        conn (dev w') = None /\ connected (dev w') = false /\
        stopHeartbeat (dev w') = None /\ hbStarted w' = hbStarted w) /\
  (forall e w1 w2,
      handshakeVersion (snd (connectPrefix c w)) = (Ok tt, w1) ->
      handshakeSdkVersion uuid (snd (logf LogPhase2 w1)) = (Err e, w2) ->
      exists w',
        Connect (Some c) uuid w = (Err (ErrWrap WrapSdkVersion e), w') /\
        conn (dev w') = None /\ connected (dev w') = false /\
        stopHeartbeat (dev w') = None /\ hbStarted w' = hbStarted w).
Proof.
  destruct (connectPrefix_spec c w) as [w0 [Hpre [_ [_ [_ [_ [_ Hh0]]]]]]].
  rewrite (Connect_dialed c uuid w w0 Hpre).
  rewrite Hpre. cbn [snd].
  split.
  - intros e w1 H1.
    exists (snd (closeInternal w1)).
    split; [exact (connectPhases_phase1_failed uuid w0 w1 e H1) |].
    destruct (closeInternal_fields w1) as [F1 [F2 [F3 [_ [_ [_ [F7 _]]]]]]].
    pose proof (keepsSession_handshakeVersion w0) as S1. rewrite H1 in S1.
    destruct S1 as [_ [_ [_ [_ [_ [_ [_ S8]]]]]]]. cbn [snd] in S8.
    repeat split; try assumption. congruence.
  - intros e w1 w2 H1 H2.
    exists (snd (closeInternal w2)).
    split; [exact (connectPhases_phase2_failed uuid w0 w1 w2 e H1 H2) |].
    destruct (closeInternal_fields w2) as [F1 [F2 [F3 [_ [_ [_ [F7 _]]]]]]].
    pose proof (keepsSession_handshakeVersion w0) as S1. rewrite H1 in S1.
    destruct S1 as [_ [_ [_ [_ [_ [_ [_ S8]]]]]]]. cbn [snd] in S8.
    pose proof (keepsSession_handshakeSdkVersion uuid (snd (logf LogPhase2 w1))) as S2.
    rewrite H2 in S2.
    destruct S2 as [_ [_ [_ [_ [_ [_ [_ T8]]]]]]]. cbn [snd] in T8.
    destruct (logf_fields LogPhase2 w1) as [_ [_ [L3 _]]].
    repeat split; try assumption. congruence.
Qed.

Lemma Connect_handshake_failure_closes_witness :
  let c := mkConn (errorAnswer 3) 5 false in
  let r := Connect (H := exampleRuntime) (Some c) (str "id") (newWorld NewDevice) in
  fst r = Err (ErrWrap WrapVersion (ErrDeviceAnswer (Some 3))) /\
  conn (dev (snd r)) = None /\ connected (dev (snd r)) = false.
Proof.
  intros c r.
  destruct (proj1 (Connect_handshake_failure_closes (H := exampleRuntime) c (str "id")
                     (newWorld NewDevice))
              (ErrDeviceAnswer (Some 3))
              (snd (handshakeVersion (snd (connectPrefix c (newWorld NewDevice)))))
              eq_refl)
    as [w' [Hrun [Hc [Hn _]]]].
  unfold r. rewrite Hrun. repeat split; assumption.
Defined.

(** X14. [Close] leaves a device without socket, not connected and
    without stop channel, and writes nothing; it returns an error only
    when the socket had been closed before. A second [Close] returns nil
    and changes nothing, and so does a [Close] of a device that never
    connected. *)
Theorem Close_idempotent (w : World) :
  let w1 := snd (Close w) in
  conn (dev w1) = None /\ connected (dev w1) = false /\
  stopHeartbeat (dev w1) = None /\ wire w1 = wire w /\
  Close w1 = (Ok tt, w1) /\
  fst (Close w) = match conn (dev w) with
                  | Some c => if cclosed c then Err ErrIO else Ok tt
                  | None => Ok tt
                  end /\
  Close (newWorld NewDevice) = (Ok tt, newWorld NewDevice).
Proof.
  destruct w as [d wi lo pr nc cc hs]. destruct d as [co g cn sh i hl hp].
  unfold Close, closeInternal. cbn.
  destruct co as [c0 |]; [destruct (cclosed c0) |]; cbn; repeat split; reflexivity.
Qed.

(** ** The stop channels across calls of [Connect] and [Close] *)

Lemma sameChans_refl w : sameChans w w.
Proof. unfold sameChans. repeat split; reflexivity. Qed.












Lemma ensures_bind {A B} P (c : M A) (k : A -> M B) Q1 Q2 E :
  ensures P c Q1 E -> (forall a, ensures (Q1 a) (k a) Q2 E) ->
  ensures P (bind c k) Q2 E.
Proof.
  intros Hc Hk w HP. unfold bind. specialize (Hc w HP).
  destruct (c w) as [[a | e |] w1]; try assumption.
  exact (Hk a w1 Hc).
Qed.



Lemma ensures_ret {A} (a : A) (P : World -> Prop) E : ensures P (ret a) (fun _ => P) E.
Proof. intros w HP. exact HP. Qed.











(** ** Calls on a device that is not connected *)

Lemma ensureConnected_spec (w : World) :
  ensureConnected w =
  (match conn (dev w) with
   | Some _ => if connected (dev w) then Ok tt else Err ErrNotConnected
   | None => Err ErrNotConnected
   end, w).
Proof.
  unfold ensureConnected, bind, getDev.
  destruct (conn (dev w)); [destruct (connected (dev w)) |]; reflexivity.
Qed.

(** X16. Every command checks the connection first: on a device that is
    not marked connected or has no socket, [GetDeviceInfo],
    [UploadFileData] and [SendRawXML] return the not-connected error and
    leave the device, the socket and the log as they are (nothing is
    written, no callback runs). That is the state [Close] leaves, so each
    of them fails after [Close]. *)
Theorem commands_need_connection `{GoRuntime} (w : World) :
  (connected (dev w) = false \/ conn (dev w) = None ->
   GetDeviceInfo w = (Err ErrNotConnected, w) /\
   (forall fileName fileData fileType,
       UploadFileData fileName fileData fileType w = (Err ErrNotConnected, w)) /\
   (forall xmlStr, SendRawXML xmlStr w = (Err ErrNotConnected, w))) /\
  fst (GetDeviceInfo (snd (Close w))) = Err ErrNotConnected /\
  (forall fileName fileData fileType,
      fst (UploadFileData fileName fileData fileType (snd (Close w)))
      = Err ErrNotConnected).
Proof.
  assert (G : forall w0, connected (dev w0) = false \/ conn (dev w0) = None ->
                         ensureConnected w0 = (Err ErrNotConnected, w0)).
  { intros w0 Hn. rewrite ensureConnected_spec.
    destruct Hn as [Hn | Hn]; rewrite Hn; [destruct (conn (dev w0)) |]; reflexivity. }
  split; [| split].
  - intros Hn. specialize (G w Hn). split; [| split].
    + unfold GetDeviceInfo. rewrite (bind_Err _ _ _ _ _ G). reflexivity.
    + intros fileName fileData fileType. unfold UploadFileData.
      rewrite (bind_Err _ _ _ _ _ G). reflexivity.
    + intros xmlStr. unfold SendRawXML. rewrite (bind_Err _ _ _ _ _ G). reflexivity.
  - destruct (closeInternal_fields w) as [F1 _].
    unfold GetDeviceInfo, Close.
    rewrite (bind_Err _ _ _ _ _ (G _ (or_intror F1))). reflexivity.
  - intros fileName fileData fileType.
    destruct (closeInternal_fields w) as [F1 _].
    unfold UploadFileData, Close.
    rewrite (bind_Err _ _ _ _ _ (G _ (or_intror F1))). reflexivity.
Qed.

Lemma commands_need_connection_witness :
  GetDeviceInfo (H := exampleRuntime) (newWorld NewDevice)
  = (Err ErrNotConnected, newWorld NewDevice).
Proof.
  apply (proj1 (commands_need_connection (H := exampleRuntime) (newWorld NewDevice))).
  left. reflexivity.
Defined.

(** ** The heartbeat goroutine *)

Lemma sendRaw_wire data w :
  wire (snd (sendRaw data w)) =
  match fst (sendRaw data w) with
  | Ok _ => wire w ++ [data]
  | _ => wire w
  end.
Proof.
  unfold sendRaw. destruct (conn (dev w)) as [c |]; [| reflexivity].
  destruct (cclosed c); [reflexivity |]. destruct (wleft c); reflexivity.
Qed.

Lemma hbNext_wire tick s ev s' :
  hbNext tick s = Some (ev, s') ->
  wire (world s') = wire (world s) ++ writtenFrames [ev] /\
  (ev = EvSilent \/ ev = EvHeartbeatWrite buildHeartbeat).
Proof.
  unfold hbNext. intros Hstep.
  destruct (hb s) as [| ch | | | | | |].
  - inversion Hstep; subst. cbn. rewrite app_nil_r. auto.
  - destruct tick.
    + inversion Hstep; subst. cbn. rewrite app_nil_r. auto.
    + destruct ch as [c |]; [| discriminate].
      destruct (existsb (Nat.eqb c) (closedChans (world s))); [| discriminate].
      inversion Hstep; subst. cbn. rewrite app_nil_r. auto.
  - destruct (muHeld s); [discriminate |].
    destruct (connected (dev (world s))); inversion Hstep; subst; cbn;
      rewrite app_nil_r; auto.
  - destruct (conn (dev (world s))) as [c |]; inversion Hstep; subst;
      cbn [world writtenFrames]; rewrite app_nil_r; [auto |].
    unfold logf. cbn [snd]. destruct (hasLogger (dev (world s))); auto.
  - destruct (conn (dev (world s))) as [c |]; inversion Hstep; subst;
      cbn [world writtenFrames]; rewrite app_nil_r; auto.
  - destruct (conn (dev (world s))) as [c |] eqn:Hc.
    + rewrite <- (sendRaw_connWrite buildHeartbeat (world s) c Hc) in Hstep.
      pose proof (sendRaw_wire buildHeartbeat (world s)) as Hw.
      destruct (sendRaw buildHeartbeat (world s)) as [[[] | e |] w1]; [| | discriminate];
        inversion Hstep; subst; cbn [world writtenFrames fst snd] in *.
      * unfold logf. cbn [snd]. destruct (hasLogger (dev w1)); cbn [wire]; rewrite Hw; auto.
      * unfold logf. cbn [snd].
        destruct (hasLogger (dev w1)); cbn [wire]; rewrite Hw, app_nil_r; auto.
    + inversion Hstep; subst. cbn [world writtenFrames]. rewrite app_nil_r. auto.
  - discriminate.
  - discriminate.
Qed.

Lemma closeNext_wire s s' : closeNext s = Some s' -> wire (world s') = wire (world s).
Proof.
  unfold closeNext. intros Hstep.
  destruct (cl s); try discriminate;
    try (destruct (muHeld s); try discriminate);
    inversion Hstep; subst; reflexivity.
Qed.

(** X17. Along any run of the heartbeat goroutine beside a call of
    [Close], from any state, the socket receives nothing but heartbeat
    frames: the wire grows exactly by the frames of the write events, and
    each of them is the 4-byte heartbeat. *)
Theorem heartbeat_loop_writes_only_heartbeats (s s' : Sys) (evs : list event) :
  run s evs s' ->
  wire (world s') = wire (world s) ++ writtenFrames evs /\
  Forall (fun frame => frame = buildHeartbeat) (writtenFrames evs).
Proof.
  induction 1 as [s | s ev s1 evs s2 Hstep Hrun [IHw IHf]].
  - cbn. rewrite app_nil_r. split; [reflexivity | constructor].
  - assert (Hev : wire (world s1) = wire (world s) ++ writtenFrames [ev] /\
                  (ev = EvSilent \/ ev = EvHeartbeatWrite buildHeartbeat)).
    { inversion Hstep as [tick s0 ev0 s0' Hn | s0 s0' Hn]; subst.
      - exact (hbNext_wire _ _ _ _ Hn).
      - rewrite (closeNext_wire _ _ Hn). cbn. rewrite app_nil_r. auto. }
    destruct Hev as [Hw [-> | ->]]; cbn [writtenFrames] in *.
    + rewrite app_nil_r in Hw. rewrite IHw, Hw. split; [reflexivity | exact IHf].
    + rewrite IHw, Hw, <- app_assoc. split; [reflexivity |].
      constructor; [reflexivity | exact IHf].
Qed.

Lemma heartbeat_loop_writes_only_heartbeats_witness :
  let c := mkConn [] 5 false in
  let s0 := mkSys (onSocket c) HbSelect ClNotCalled false in
  exists evs s',
    doMoves [MoveHb false; MoveHb true; MoveHb false; MoveHb false; MoveHb false;
             MoveHb false;
             MoveHb false; MoveHb true; MoveHb false; MoveHb false; MoveHb false;
             MoveHb false] s0 = Some (evs, s') /\
    wire (world s') = [buildHeartbeat; buildHeartbeat].
Proof.
  intros c s0.
  eexists. eexists. split; [vm_compute; reflexivity |].
  refine (eq_trans
            (proj1 (heartbeat_loop_writes_only_heartbeats s0 _ _
                      (doMoves_run [MoveHb false; MoveHb true; MoveHb false; MoveHb false;
                                    MoveHb false; MoveHb false;
                                    MoveHb false; MoveHb true; MoveHb false; MoveHb false;
                                    MoveHb false; MoveHb false]
                                   s0 _ _ _))) _).
  - vm_compute. reflexivity.
  - reflexivity.
Defined.

(** X18. A heartbeat that cannot be written ends the goroutine and
    nothing else. The loop is about to call [sendRaw] on a socket that is
    closed or takes no more bytes; its three steps through [sendRaw] (the
    nil test, the deadline, the write), with no step of [Close] in
    between, are silent and end the loop. The device is left exactly as it
    was (still marked connected, the dead socket still in place, the stop
    channel still open), only a log line is added, and the loop takes no
    further step. The commands keep passing their connection check. *)
Theorem failed_heartbeat_leaves_device_connected
        (s : Sys) (c : Conn) (t1 t2 t3 : bool) :
  hb s = HbSend -> conn (dev (world s)) = Some c ->
  cclosed c = true \/ wleft c = 0%nat ->
  exists s',
    doMoves [MoveHb t1; MoveHb t2; MoveHb t3] s
    = Some ([EvSilent; EvSilent; EvSilent], s') /\
    hb s' = HbDone /\
    dev (world s') = dev (world s) /\ wire (world s') = wire (world s) /\
    closedChans (world s') = closedChans (world s) /\
    (forall tick', hbNext tick' s' = None) /\
    (connected (dev (world s)) = true -> ensureConnected (world s') = (Ok tt, world s')).
Proof.
  intros Hpc Hc Hdead.
  assert (Hs : sendRaw buildHeartbeat (world s) = (Err ErrIO, world s)).
  { unfold sendRaw. rewrite Hc.
    destruct Hdead as [Hd | Hd]; rewrite Hd; [reflexivity |].
    destruct (cclosed c); reflexivity. }
  pose proof (hbNext_sendRaw s t1 t2 t3 Hpc) as Hrun.
  rewrite Hs, Hc in Hrun. rewrite Hrun.
  eexists. split; [reflexivity |]. cbn [hb world].
  assert (Hl : dev (snd (logf (LogHeartbeatFailed ErrIO) (world s))) = dev (world s) /\
               wire (snd (logf (LogHeartbeatFailed ErrIO) (world s))) = wire (world s) /\
               closedChans (snd (logf (LogHeartbeatFailed ErrIO) (world s)))
               = closedChans (world s)).
  { unfold logf. cbn [snd]. destruct (hasLogger (dev (world s))); repeat split. }
  destruct Hl as [L1 [L2 L3]].
  repeat split; try assumption.
  intros Hconn. rewrite ensureConnected_spec, L1, Hc, Hconn. reflexivity.
Qed.

Lemma failed_heartbeat_leaves_device_connected_witness :
  let c := mkConn [] 0 false in
  let s := mkSys (onSocket c) HbSend ClNotCalled false in
  exists s',
    doMoves [MoveHb true; MoveHb true; MoveHb true] s
    = Some ([EvSilent; EvSilent; EvSilent], s') /\ hb s' = HbDone /\
    connected (dev (world s')) = true.
Proof.
  intros c s.
  destruct (failed_heartbeat_leaves_device_connected s c true true true eq_refl eq_refl
              (or_intror eq_refl)) as [s' [H1 [H2 [H3 _]]]].
  exists s'. rewrite H3. repeat split; assumption.
Defined.

(** ** Uploads: refusal, resumption and progress *)

Lemma keepsProgress_bind {A B} (c : M A) (k : A -> M B) :
  keepsProgress c -> (forall a, keepsProgress (k a)) -> keepsProgress (bind c k).
Proof.
  intros Hc Hk w. unfold bind. specialize (Hc w).
  destruct (c w) as [[a | e |] w1]; cbn [snd] in *; try assumption.
  destruct (Hk a w1) as [K1 K2]. destruct Hc as [C1 C2]. split; congruence.
Qed.

Lemma keepsProgress_wrapErr {A} site (c : M A) :
  keepsProgress c -> keepsProgress (wrapErr site c).
Proof.
  intros Hc w. unfold wrapErr. specialize (Hc w).
  destruct (c w) as [[a | e |] w1]; exact Hc.
Qed.

Lemma keepsProgress_ret {A} (a : A) : keepsProgress (ret a).
Proof. intros w. split; reflexivity. Qed.

Lemma keepsProgress_fail {A} e : keepsProgress (@fail A e).
Proof. intros w. split; reflexivity. Qed.

Lemma keepsProgress_logf m : keepsProgress (logf m).
Proof. intros w. unfold logf. cbn [snd]. destruct (hasLogger (dev w)); split; reflexivity. Qed.

Lemma keepsProgress_sendRaw data : keepsProgress (sendRaw data).
Proof.
  intros w. unfold sendRaw. destruct (conn (dev w)) as [c |]; [| split; reflexivity].
  destruct (cclosed c); [split; reflexivity |].
  destruct (wleft c); split; reflexivity.
Qed.

Lemma keepsProgress_readPacket : keepsProgress readPacket.
Proof.
  intros w. unfold readPacket.
  destruct (conn (dev w)) as [c |]; [| split; reflexivity].
  destruct (cclosed c); [split; reflexivity |].
  repeat match goal with
         | |- context [if ?b then _ else _] => destruct b
         end; split; reflexivity.
Qed.

Lemma keepsProgress_fileEndPhase : keepsProgress fileEndPhase.
Proof.
  unfold fileEndPhase.
  apply keepsProgress_bind; [apply keepsProgress_wrapErr, keepsProgress_sendRaw |].
  intros _.
  apply keepsProgress_bind; [apply keepsProgress_wrapErr, keepsProgress_readPacket |].
  intros [data cmdType].
  destruct (negb (cmdType =? CmdFileEndAnswer)); [apply keepsProgress_fail |].
  destruct (parseFileEndResponse data) as [code |]; [| apply keepsProgress_fail].
  destruct (negb (code =? ErrSuccess) && negb (code =? ErrWriteFinish));
    [apply keepsProgress_fail | apply keepsProgress_ret].
Qed.

(** The start phase of [UploadFileData], for any answer to the start
    packet. *)
Lemma UploadFileData_start `{GoRuntime} (fileName fileData : bytes) (fileType : Z)
      (w : World) (code K : Z) (extra rest : bytes) (n : nat) :
  onConn w (fileStartAnswer code K extra ++ rest) (S n) ->
  connected (dev w) = true ->
  0 <= code < 2 ^ 16 -> 0 <= K < 2 ^ 32 ->
  Z.of_nat (10 + length extra) < 2 ^ 16 ->
  exists wr,
    UploadFileData fileName fileData fileType w =
      (if negb (code =? ErrSuccess) then fail (ErrFileStart code)
       else sendContent (length fileData) fileData (Z.to_nat K) ;;;
            fileEndPhase ;;;
            logf (LogUploadDone fileName (length fileData))) wr /\
    wire wr = wire w ++ [startPacketOf fileName fileData fileType] /\
    onConn wr rest n /\
    progress wr = progress w /\ hasOnProgress (dev wr) = hasOnProgress (dev w).
Proof.
  intros Hc Hconn Hcode HK Hlen.
  unfold UploadFileData.
  assert (He : ensureConnected w = (Ok tt, w)).
  { rewrite ensureConnected_spec, Hc, Hconn. reflexivity. }
  rewrite (bind_Ok _ _ w tt w He).
  destruct (logf_spec (LogUploadStart fileName (length fileData)) w) as [w0 [Hl [Hd0 Hw0]]].
  pose proof (keepsProgress_logf (LogUploadStart fileName (length fileData)) w) as P0.
  rewrite Hl in P0. cbn [snd] in P0.
  rewrite (bind_Ok _ _ w tt w0 Hl).
  destruct (sendRaw_onConn (startPacketOf fileName fileData fileType) w0 _ n
                           (onConn_dev _ _ _ _ Hd0 Hc))
    as [w1 [Hs [Hc1 [Hw1 _]]]].
  pose proof (keepsProgress_sendRaw (startPacketOf fileName fileData fileType) w0) as P1.
  rewrite Hs in P1. cbn [snd] in P1.
  fold (startPacketOf fileName fileData fileType).
  rewrite (bind_Ok _ _ w0 tt w1) by (apply wrapErr_Ok; exact Hs).
  unfold fileStartAnswer in Hc1.
  destruct (readPacket_onConn w1 CmdFileStartAnswer _ rest n Hc1) as [wr [Hr [Hcr Hwr]]].
  { rewrite !length_app, length_putUint16, length_putUint32.
    unfold tcpHeaderLength. lia. }
  { unfold CmdFileStartAnswer. lia. }
  pose proof (keepsProgress_readPacket w1) as P2.
  rewrite Hr in P2. cbn [snd] in P2.
  rewrite (bind_Ok _ _ w1 _ wr) by (apply wrapErr_Ok; exact Hr).
  cbv beta iota. rewrite Z.eqb_refl. cbn [negb].
  fold (fileStartAnswer code K extra).
  rewrite parseFileStartResponse_answer by assumption.
  exists wr.
  split; [reflexivity |].
  split; [rewrite Hwr, Hw1, Hw0; reflexivity |].
  split; [exact Hcr |].
  destruct P0 as [A0 B0], P1 as [A1 B1], P2 as [A2 B2]. split; congruence.
Qed.

(** X19. When the device answers the start packet with a code other than
    [ErrSuccess], [UploadFileData] returns the start error with that code
    and stops: the start packet is the only frame it has written, no
    content frame and no end packet follow, the progress callback is not
    called, and what the peer sent after its answer stays unread. *)
Theorem UploadFileData_start_refused `{GoRuntime} (fileName fileData : bytes)
        (fileType : Z) (w : World) (code K : Z) (extra rest : bytes) (n : nat) :
  onConn w (fileStartAnswer code K extra ++ rest) (S n) ->
  connected (dev w) = true ->
  0 < code < 2 ^ 16 -> 0 <= K < 2 ^ 32 ->
  Z.of_nat (10 + length extra) < 2 ^ 16 ->
  exists w',
    UploadFileData fileName fileData fileType w = (Err (ErrFileStart code), w') /\
    wire w' = wire w ++ [startPacketOf fileName fileData fileType] /\
    onConn w' rest n /\ progress w' = progress w.
Proof.
  intros Hc Hconn Hcode HK Hlen.
  destruct (UploadFileData_start fileName fileData fileType w code K extra rest n
              Hc Hconn ltac:(lia) HK Hlen) as [wr [Hrun [Hw [Hcr [Hp _]]]]].
  exists wr. rewrite Hrun.
  destruct (Z.eqb_spec code ErrSuccess) as [E | _];
    [unfold ErrSuccess in E; lia |].
  cbn [negb]. repeat split; assumption.
Qed.

Lemma UploadFileData_start_refused_witness :
  let w := onSocket (mkConn (fileStartAnswer 8 0 [] ++ [1; 2]) 9 false) in
  exists w',
    UploadFileData (H := exampleRuntime) (str "a.jpg") (str "data") 0 w
    = (Err (ErrFileStart 8), w') /\
    wire w' = [startPacketOf (H := exampleRuntime) (str "a.jpg") (str "data") 0].
Proof.
  intros w.
  destruct (UploadFileData_start_refused (H := exampleRuntime) (str "a.jpg") (str "data") 0
              w 8 0 [] [1; 2] 8 eq_refl eq_refl ltac:(lia) ltac:(lia) ltac:(cbn; lia))
    as [w' [H1 [H2 _]]].
  exists w'. split; assumption.
Defined.

Lemma sendContent_done fuel (fileData : bytes) offset w :
  (length fileData <= offset)%nat -> sendContent fuel fileData offset w = (Ok tt, w).
Proof.
  intros Hge. destruct fuel as [| fuel]; cbn [sendContent]; [reflexivity |].
  destruct (Nat.ltb_spec offset (length fileData)); [lia | reflexivity].
Qed.

(** X20. When the device reports that it already holds the whole file
    (or more), [UploadFileData] sends no content frame at all: the start
    packet is followed directly by the end packet, and the progress
    callback is never called, not even with the final 100 percent. An
    empty file is the same case. *)
Theorem UploadFileData_nothing_left `{GoRuntime} (fileName fileData : bytes)
        (fileType : Z) (w : World) (K : Z) (extra rest : bytes) (n : nat) :
  onConn w (fileStartAnswer ErrSuccess K extra ++ rest) (S (S n)) ->
  connected (dev w) = true ->
  Z.of_nat (length fileData) <= K < 2 ^ 32 ->
  Z.of_nat (10 + length extra) < 2 ^ 16 ->
  wire (snd (UploadFileData fileName fileData fileType w)) =
    wire w ++ [startPacketOf fileName fileData fileType; buildFileEndPacket] /\
  progress (snd (UploadFileData fileName fileData fileType w)) = progress w.
Proof.
  intros Hc Hconn HK Hlen.
  destruct (UploadFileData_start fileName fileData fileType w ErrSuccess K extra rest (S n)
              Hc Hconn ltac:(unfold ErrSuccess; lia) ltac:(lia) Hlen)
    as [wr [Hrun [Hw [Hcr [Hp _]]]]].
  rewrite Hrun. rewrite Z.eqb_refl. cbn [negb].
  assert (Hdone : (length fileData <= Z.to_nat K)%nat) by lia.
  rewrite (bind_Ok _ _ wr tt wr
             (sendContent_done (length fileData) fileData (Z.to_nat K) wr Hdone)).
  split.
  - pose proof (fileEndPhase_wire wr rest n Hcr) as He.
    unfold bind.
    destruct (fileEndPhase wr) as [[[] | e |] w3]; cbn [snd] in *.
    + destruct (logf_spec (LogUploadDone fileName (length fileData)) w3)
        as [w4 [Hl [_ Hw4]]].
      rewrite Hl. cbn [snd]. rewrite Hw4, He, Hw, <- app_assoc. reflexivity.
    + rewrite He, Hw, <- app_assoc. reflexivity.
    + rewrite He, Hw, <- app_assoc. reflexivity.
  - rewrite <- Hp.
    apply (keepsProgress_bind fileEndPhase
             (fun _ => logf (LogUploadDone fileName (length fileData)))
             keepsProgress_fileEndPhase (fun _ => keepsProgress_logf _) wr).
Qed.

Lemma UploadFileData_nothing_left_witness :
  let w := onSocket (mkConn (fileStartAnswer 0 4 [] ++ fileEndAnswer 0 []) 9 false) in
  wire (snd (UploadFileData (H := exampleRuntime) (str "a.jpg") (str "data") 0 w)) =
  [startPacketOf (H := exampleRuntime) (str "a.jpg") (str "data") 0; buildFileEndPacket].
Proof.
  intros w.
  apply (proj1 (UploadFileData_nothing_left (H := exampleRuntime) (str "a.jpg") (str "data")
                  0 w 4 [] (fileEndAnswer 0 []) 7 eq_refl eq_refl
                  ltac:(cbn; lia) ltac:(cbn; lia))).
Defined.






(** ** XML text: escaping and element builders *)

Lemma bytes_eqb_eq (a b : bytes) : bytes_eqb a b = true <-> a = b.
Proof.
  revert b. induction a as [| x a IH]; intros [| y b]; cbn [bytes_eqb];
    try (split; [discriminate | discriminate]); [split; reflexivity |].
  rewrite andb_true_iff, Z.eqb_eq, IH. split.
  - intros [-> ->]. reflexivity.
  - intros E. inversion E. auto.
Qed.

Lemma escapeFor_markup b width :
  isMarkupByte b = true -> escapeFor b width <> None.
Proof.
  unfold isMarkupByte, escapeFor. intros Hm.
  repeat match goal with
         | |- context [if ?c =? ?d then _ else _] => destruct (Z.eqb_spec c d)
         end; discriminate.
Qed.

(** The bytes [EscapeText] copies as they are: one ASCII byte that needs
    no escape, or the bytes of a multi-byte rune. *)
Lemma decodeRune_copied_bytes (s : bytes) r width :
  decodeRune s = (r, width) -> escapeFor r width = None ->
  Forall (fun b => 0x80 <= b \/ escapeFor b width = None) (firstn width s).
Proof.
  intros Hd He.
  destruct s as [|p0 t]; [rewrite firstn_nil; constructor |].
  unfold decodeRune in Hd.
  destruct (Z.ltb_spec p0 0x80) as [Hascii | Hhigh].
  { inversion Hd; subst. cbn [firstn]. constructor; [right; exact He | constructor]. }
  destruct (utf8First p0) as [[[sz lo] hi] |] eqn:Hfirst;
    [| inversion Hd; subst; rewrite escapeFor_RuneError_1 in He; discriminate].
  destruct (utf8First_bounds _ _ _ _ Hfirst) as [Hlo Hsz].
  destruct (Nat.ltb_spec (length (p0 :: t)) sz) as [Hshort | Hlong];
    [inversion Hd; subst; rewrite escapeFor_RuneError_1 in He; discriminate |].
  destruct t as [|b1 t]; [cbn [length] in Hlong; lia |].
  cbn [nth] in Hd.
  destruct (Z.ltb_spec b1 lo) as [Hb1 | Hb1]; cbn [orb] in Hd;
    [inversion Hd; subst; rewrite escapeFor_RuneError_1 in He; discriminate |].
  destruct (hi <? b1);
    [inversion Hd; subst; rewrite escapeFor_RuneError_1 in He; discriminate |].
  destruct (sz <=? 2)%nat.
  { inversion Hd; subst. cbn [firstn].
    repeat (apply Forall_cons; [left; lia |]). apply Forall_nil. }
  destruct t as [|b2 t]; cbn [nth] in Hd.
  { change (isContinuation 0) with false in Hd. cbn [negb] in Hd.
    inversion Hd; subst. rewrite escapeFor_RuneError_1 in He. discriminate. }
  destruct (isContinuation b2) eqn:Hc2; cbn [negb] in Hd;
    [| inversion Hd; subst; rewrite escapeFor_RuneError_1 in He; discriminate].
  assert (Hb2 : 0x80 <= b2) by (unfold isContinuation in Hc2; lia).
  destruct (sz <=? 3)%nat.
  { inversion Hd; subst. cbn [firstn].
    repeat (apply Forall_cons; [left; lia |]). apply Forall_nil. }
  destruct t as [|b3 t]; cbn [nth] in Hd.
  { change (isContinuation 0) with false in Hd. cbn [negb] in Hd.
    inversion Hd; subst. rewrite escapeFor_RuneError_1 in He. discriminate. }
  destruct (isContinuation b3) eqn:Hc3; cbn [negb] in Hd;
    [| inversion Hd; subst; rewrite escapeFor_RuneError_1 in He; discriminate].
  assert (Hb3 : 0x80 <= b3) by (unfold isContinuation in Hc3; lia).
  inversion Hd; subst. cbn [firstn].
  repeat (apply Forall_cons; [left; lia |]). apply Forall_nil.
Qed.

Lemma escapeFor_no_markup r width esc :
  escapeFor r width = Some esc -> Forall (fun b => isMarkupByte b = false) esc.
Proof.
  unfold escapeFor.
  repeat match goal with
         | |- context [if ?b then _ else _] => destruct b
         end; intros E; inversion E; subst; repeat constructor.
Qed.

Lemma high_not_markup b : 0x80 <= b -> isMarkupByte b = false.
Proof.
  intros Hb. unfold isMarkupByte.
  repeat match goal with
         | |- context [?c =? ?d] => destruct (Z.eqb_spec c d); [lia |]
         end.
  reflexivity.
Qed.

Lemma escapeText_no_markup :
  forall fuel s, Forall (fun b => isMarkupByte b = false) (escapeText fuel s).
Proof.
  induction fuel as [|fuel IH]; intros s; cbn [escapeText]; [constructor |].
  destruct s as [|p0 t]; [constructor |].
  destruct (decodeRune (p0 :: t)) as [r width] eqn:Hd.
  destruct (escapeFor r width) as [esc |] eqn:He; apply Forall_app; split;
    try apply IH.
  - exact (escapeFor_no_markup _ _ _ He).
  - eapply Forall_impl; [| exact (decodeRune_copied_bytes _ _ _ Hd He)].
    cbn. intros b [Hb | Hb]; [exact (high_not_markup b Hb) |].
    destruct (isMarkupByte b) eqn:Hm; [| reflexivity].
    exfalso. exact (escapeFor_markup b width Hm Hb).
Qed.

(** X22. Whatever its input, the output of [xmlEscape] holds no double
    or single quote, no angle bracket, no tab, line feed or carriage return:
    an escaped value cannot end the attribute or the element it is written
    into. Escaping twice is not escaping once (the ampersand of an entity is
    escaped again). *)
Theorem xmlEscape_removes_markup (s : bytes) :
  Forall (fun b => isMarkupByte b = false) (xmlEscape s) /\
  xmlEscape (str "a<b") = str "a&lt;b" /\
  xmlEscape (xmlEscape (str "a<b")) = str "a&amp;lt;b".
Proof.
  split; [apply escapeText_no_markup |]. split; reflexivity.
Qed.

Lemma escapeFor_plain b :
  isPlainByte b = true -> escapeFor b 1 = None /\ b < 0x80.
Proof.
  unfold isPlainByte. intros Hp.
  apply andb_prop in Hp. destruct Hp as [Hr Hn].
  apply andb_prop in Hr. destruct Hr as [Hlo Hhi].
  apply Z.leb_le in Hlo. apply Z.leb_le in Hhi.
  apply negb_true_iff in Hn.
  repeat (apply orb_false_elim in Hn; destruct Hn as [Hn ?]).
  split; [| lia].
  unfold escapeFor.
  repeat match goal with
         | H : (b =? ?k) = false |- _ => rewrite H; clear H
         end.
  replace (b =? 9) with false by (symmetry; apply Z.eqb_neq; lia).
  replace (b =? 10) with false by (symmetry; apply Z.eqb_neq; lia).
  replace (b =? 13) with false by (symmetry; apply Z.eqb_neq; lia).
  replace (isInCharacterRange b) with true.
  - replace (b =? RuneError) with false
      by (symmetry; apply Z.eqb_neq; unfold RuneError; lia).
    reflexivity.
  - symmetry. unfold isInCharacterRange.
    replace (0x20 <=? b) with true by (symmetry; apply Z.leb_le; lia).
    replace (b <=? 0xD7FF) with true by (symmetry; apply Z.leb_le; lia).
    cbn. rewrite !orb_true_r. reflexivity.
Qed.

Lemma escapeText_plain (s : bytes) :
  forallb isPlainByte s = true -> escapeText (length s) s = s.
Proof.
  induction s as [| b t IH]; intros Hp; [reflexivity |].
  cbn [forallb] in Hp. apply andb_prop in Hp. destruct Hp as [Hb Ht].
  destruct (escapeFor_plain b Hb) as [He Hlt].
  cbn [length escapeText].
  assert (Hd : decodeRune (b :: t) = (b, 1%nat)).
  { unfold decodeRune. destruct (Z.ltb_spec b 0x80); [reflexivity | lia]. }
  rewrite Hd, He. cbn [firstn skipn app]. rewrite (IH Ht). reflexivity.
Qed.

(** X23. A text of printable ASCII without quotes, angle brackets and
    ampersand is its own escape, so a session identifier of that kind
    (a UUID, for one) appears unchanged in every request and
    [extractGUID] gets it back from the request text. *)
Theorem xmlEscape_plain_text (s : bytes) :
  forallb isPlainByte s = true ->
  xmlEscape s = s /\
  forall method innerXML, extractGUID (buildSdkXML s method innerXML) = s.
Proof.
  intros Hp.
  assert (E : xmlEscape s = s) by (apply escapeText_plain; exact Hp).
  split; [exact E |].
  intros method innerXML. rewrite extractGUID_buildSdkXML. exact E.
Qed.

Lemma xmlEscape_plain_text_witness :
  extractGUID (buildSdkXML (str "3f2a-77") MethodGetDeviceInfo []) = str "3f2a-77".
Proof.
  apply (proj2 (xmlEscape_plain_text (str "3f2a-77") eq_refl)).
Defined.

Lemma xmlAttrs_pairs_key (pairs : list (bytes * bytes)) (k : bytes) :
  xmlAttrs (attrPairs pairs ++ [k]) = xmlAttrs (attrPairs pairs).
Proof.
  induction pairs as [| [k1 v1] pairs IH]; [reflexivity |].
  unfold attrPairs in *. cbn [map concat app fst snd xmlAttrs].
  rewrite IH. reflexivity.
Qed.

Lemma xmlAttrs_no_markup_values (pairs : list (bytes * bytes)) :
  xmlAttrs (attrPairs pairs) =
  concat (map (fun p => str " " ++ fst p ++ str "=" ++ dq ++ xmlEscape (snd p) ++ dq)
              pairs).
Proof.
  induction pairs as [| [k1 v1] pairs IH]; [reflexivity |].
  unfold attrPairs in *. cbn [map concat app fst snd xmlAttrs].
  rewrite IH. rewrite <- !app_assoc. reflexivity.
Qed.

(** X24. The three element builders agree: an element with no children is
    the self-closing element [xmlElement] writes, also when it has
    attributes. A key that is left without a value at the end of the
    attribute list is dropped silently. Attribute values are escaped,
    keys and children are written as they are. The request to delete no
    file would be the empty element [files]. *)
Theorem xmlElement_builders_agree (tag : bytes) (pairs : list (bytes * bytes))
        (k : bytes) (children : list bytes) :
  xmlElementWithChildren tag (attrPairs pairs) [] = xmlElement tag (attrPairs pairs) /\
  xmlElement tag (attrPairs pairs ++ [k]) = xmlElement tag (attrPairs pairs) /\
  xmlElement tag (attrPairs pairs) =
    str "<" ++ tag ++
    concat (map (fun p => str " " ++ fst p ++ str "=" ++ dq ++ xmlEscape (snd p) ++ dq)
                pairs) ++ str "/>" /\
  xmlElementWithContent tag [] (attrPairs pairs) =
    str "<" ++ tag ++ xmlAttrs (attrPairs pairs) ++ str "></" ++ tag ++ str ">" /\
  buildDeleteFilesXML [] = str "<files/>" /\
  buildDeleteFilesXML [str "a<b.jpg"] =
    str "<files><file name=" ++ dq ++ str "a&lt;b.jpg" ++ dq ++ str "/></files>".
Proof.
  split; [reflexivity |].
  split; [unfold xmlElement; rewrite xmlAttrs_pairs_key; reflexivity |].
  split; [unfold xmlElement; rewrite xmlAttrs_no_markup_values; reflexivity |].
  split; [reflexivity |]. split; reflexivity.
Qed.

(** X25. The first SDK request of a session, as it goes out: the XML
    declaration, the [sdk] element with the placeholder GUID, and the
    version element whose value is [sdkVersion] in hexadecimal without
    prefix or padding (1000000), all lines ended by CR LF. It fits one
    fragment. *)
Theorem buildVersionXML_text :
  buildVersionXML =
    str "<?xml version=" ++ dq ++ str "1.0" ++ dq ++ str " encoding=" ++ dq ++
    str "utf-8" ++ dq ++ str "?>" ++ crlf ++
    str "<sdk guid=" ++ dq ++ str "##GUID" ++ dq ++ str ">" ++ crlf ++
    str "  <in method=" ++ dq ++ str "GetIFVersion" ++ dq ++ str ">" ++ crlf ++
    str "    <version value=" ++ dq ++ str "1000000" ++ dq ++ str "/>" ++ crlf ++
    str "  </in>" ++ crlf ++
    str "</sdk>" /\
  extractGUID buildVersionXML = placeholderGUID /\
  length (buildSdkCmdPackets buildVersionXML) = 1%nat.
Proof. repeat split; reflexivity. Qed.

(** ** Raw XML commands and the session identifier *)

Lemma hasPrefix_app (p rest : bytes) : hasPrefix (p ++ rest) p = true.
Proof.
  induction p as [| x p IH]; [reflexivity |].
  cbn [app hasPrefix]. rewrite Z.eqb_refl. exact IH.
Qed.

Lemma hasPrefix_inv (p s : bytes) :
  hasPrefix s p = true -> exists rest, s = p ++ rest.
Proof.
  revert s. induction p as [| x p IH]; intros s Hs.
  - exists s. reflexivity.
  - destruct s as [| c s]; cbn [hasPrefix] in Hs; [discriminate |].
    apply andb_prop in Hs. destruct Hs as [Hc Hp].
    apply Z.eqb_eq in Hc. subst c.
    destruct (IH s Hp) as [rest ->]. exists rest. reflexivity.
Qed.

Lemma hasPrefix_longer (p q s : bytes) :
  hasPrefix s p = false -> hasPrefix s (p ++ q) = false.
Proof.
  revert s. induction p as [| x p IH]; intros s Hs; [discriminate |].
  destruct s as [| c s]; cbn [app hasPrefix] in *; [reflexivity |].
  destruct (c =? x); cbn [andb] in *; [apply IH; exact Hs | reflexivity].
Qed.

Lemma hasPrefix_front (p u v v' : bytes) :
  (length p <= length u)%nat -> hasPrefix (u ++ v) p = hasPrefix (u ++ v') p.
Proof.
  revert u. induction p as [| x p IH]; intros u Hlen; [reflexivity |].
  destruct u as [| c u]; cbn [length] in Hlen; [lia |].
  cbn [app hasPrefix]. rewrite (IH u) by lia. reflexivity.
Qed.

Lemma index_first (sub : bytes) :
  forall (a rest : bytes),
    (forall j, (j < length a)%nat -> hasPrefix (skipn j (a ++ sub ++ rest)) sub = false) ->
    index (a ++ sub ++ rest) sub = Some (length a).
Proof.
  induction a as [| x a IH]; intros rest Hno.
  - cbn [app length]. destruct (sub ++ rest) as [| c l] eqn:E.
    + destruct sub; [reflexivity | discriminate].
    + cbn [index]. rewrite <- E, hasPrefix_app. reflexivity.
  - pose proof (Hno 0%nat ltac:(cbn; lia)) as H0. cbn [skipn] in H0.
    cbn [app index length] in *. rewrite H0.
    rewrite IH; [reflexivity |].
    intros j Hj. exact (Hno (S j) ltac:(lia)).
Qed.

Lemma index_inv (sub : bytes) :
  forall (s : bytes) i,
    index s sub = Some i ->
    exists a rest,
      s = a ++ sub ++ rest /\ length a = i /\
      forall j, (j < i)%nat -> hasPrefix (skipn j s) sub = false.
Proof.
  induction s as [| c s IH]; intros i Hi.
  - cbn [index] in Hi. destruct (hasPrefix [] sub) eqn:Hp; [| discriminate].
    inversion Hi; subst. destruct (hasPrefix_inv _ _ Hp) as [rest E].
    exists [], rest. repeat split; [exact E | intros j Hj; lia].
  - cbn [index] in Hi. destruct (hasPrefix (c :: s) sub) eqn:Hp.
    + inversion Hi; subst. destruct (hasPrefix_inv _ _ Hp) as [rest E].
      exists [], rest. repeat split; [exact E | intros j Hj; lia].
    + destruct (index s sub) as [i' |] eqn:Hi'; [| discriminate].
      inversion Hi; subst.
      destruct (IH i' eq_refl) as [a [rest [E [Hlen Hno]]]].
      exists (c :: a), rest. rewrite E. repeat split; [cbn; lia |].
      intros j Hj. destruct j as [| j]; [rewrite <- E; exact Hp |].
      cbn [skipn]. rewrite <- E. apply Hno. lia.
Qed.

Lemma extractGUID_at (a g t : bytes) :
  (forall j, (j < length a)%nat ->
             hasPrefix (skipn j (a ++ (str "guid=" ++ dq) ++ g ++ dq ++ t))
                       (str "guid=" ++ dq) = false) ->
  ~ In 34 g ->
  extractGUID (a ++ (str "guid=" ++ dq) ++ g ++ dq ++ t) = g.
Proof.
  intros Hno Hg. unfold extractGUID.
  rewrite (index_first (str "guid=" ++ dq) a (g ++ dq ++ t) Hno).
  assert (Hskip : skipn (length a + 6) (a ++ (str "guid=" ++ dq) ++ g ++ dq ++ t)
                  = g ++ dq ++ t).
  { rewrite skipn_app, skipn_all2 by lia.
    replace (length a + 6 - length a)%nat with 6%nat by lia. reflexivity. }
  rewrite Hskip, index_quote by exact Hg.
  unfold slice. rewrite Hskip.
  replace (length a + 6 + length g - (length a + 6))%nat with (length g) by lia.
  rewrite firstn_app, Nat.sub_diag, firstn_all, firstn_O, app_nil_r. reflexivity.
Qed.

Lemma extractGUID_inv (xmlStr : bytes) :
  extractGUID xmlStr <> [] ->
  exists a t,
    xmlStr = a ++ (str "guid=" ++ dq) ++ extractGUID xmlStr ++ dq ++ t /\
    (forall j, (j < length a)%nat ->
               hasPrefix (skipn j xmlStr) (str "guid=" ++ dq) = false) /\
    ~ In 34 (extractGUID xmlStr).
Proof.
  unfold extractGUID. intros Hne.
  destruct (index xmlStr (str "guid=" ++ dq)) as [i |] eqn:Hi; [| contradiction].
  destruct (index_inv _ _ _ Hi) as [a [rest [E [Hlen Hno]]]].
  assert (Hskip : skipn (i + 6) xmlStr = rest).
  { rewrite E, <- Hlen, skipn_app, skipn_all2 by lia.
    replace (length a + 6 - length a)%nat with 6%nat by lia. reflexivity. }
  rewrite Hskip in *.
  destruct (index rest dq) as [e |] eqn:He; [| contradiction].
  destruct (index_inv _ _ _ He) as [g [t [Er [Hg Hnoq]]]].
  assert (Hslice : slice xmlStr (i + 6) (i + 6 + e) = g).
  { unfold slice. rewrite Hskip, Er.
    replace (i + 6 + e - (i + 6))%nat with (length g) by lia.
    rewrite firstn_app, Nat.sub_diag, firstn_all, firstn_O, app_nil_r. reflexivity. }
  rewrite Hslice in *.
  exists a, t. split; [rewrite E at 1; rewrite Er; reflexivity |].
  split; [intros j Hj; apply Hno; lia |].
  intros Hin. apply In_nth with (d := 0) in Hin. destruct Hin as [j [Hj Hnth]].
  specialize (Hnoq j ltac:(lia)).
  rewrite Er in Hnoq.
  rewrite <- (firstn_skipn j g) in Hnoq.
  rewrite <- app_assoc, skipn_app, skipn_all2 in Hnoq
    by (rewrite length_firstn; lia).
  rewrite length_firstn in Hnoq.
  replace (j - Nat.min j (length g))%nat with 0%nat in Hnoq by lia.
  cbn [skipn app] in Hnoq.
  destruct (skipn j g) as [| c l] eqn:Hs.
  { apply (f_equal (@length Z)) in Hs. rewrite length_skipn in Hs. cbn in Hs. lia. }
  assert (Hc : c = 34).
  { rewrite <- Hnth. rewrite <- (firstn_skipn j g) at 1.
    rewrite app_nth2 by (rewrite length_firstn; lia).
    rewrite length_firstn. replace (j - Nat.min j (length g))%nat with 0%nat by lia.
    rewrite Hs. reflexivity. }
  subst c. cbn in Hnoq. discriminate.
Qed.

(** X26. The GUID update of [SendRawXML]. A document without a [guid]
    attribute, or with an empty one, is sent as it is, so it goes out
    without the session identifier. Otherwise the value of the first
    [guid] attribute is replaced by the session identifier, which is
    written unescaped: when the identifier holds no double quote,
    [extractGUID] reads it back from the text that is sent. On a
    connected device the frames written are the fragments of that text. *)
Theorem SendRawXML_sets_session_guid `{GoRuntime} (sdkGUID0 xmlStr : bytes) :
  (extractGUID xmlStr = [] -> withSessionGUID sdkGUID0 xmlStr = xmlStr) /\
  (extractGUID xmlStr <> [] -> ~ In 34 sdkGUID0 ->
   extractGUID (withSessionGUID sdkGUID0 xmlStr) = sdkGUID0) /\
  (forall w r n,
      onConn w r n -> connected (dev w) = true -> sdkGUID (dev w) = sdkGUID0 ->
      (length (buildSdkCmdPackets (withSessionGUID sdkGUID0 xmlStr)) <= n)%nat ->
      wire (snd (SendRawXML xmlStr w)) =
      wire w ++ buildSdkCmdPackets (withSessionGUID sdkGUID0 xmlStr)).
Proof.
  split; [| split].
  - intros He. unfold withSessionGUID. rewrite He. reflexivity.
  - intros Hne Hq. unfold withSessionGUID.
    destruct (bytes_eqb (extractGUID xmlStr) []) eqn:E0.
    { apply bytes_eqb_eq in E0. contradiction. }
    destruct (bytes_eqb (extractGUID xmlStr) sdkGUID0) eqn:E1; cbn [negb andb].
    { apply bytes_eqb_eq in E1. exact E1. }
    destruct (extractGUID_inv xmlStr Hne) as [a [t [E [Hno Hg]]]].
    remember (extractGUID xmlStr) as g eqn:Eg. clear Eg.
    set (P := str "guid=" ++ dq) in *.
    unfold replaceGUID, replaceFirst.
    change (str "guid=" ++ dq ++ g ++ dq) with (P ++ g ++ dq).
    change (str "guid=" ++ dq ++ sdkGUID0 ++ dq) with (P ++ sdkGUID0 ++ dq).
    assert (Hidx : index xmlStr (P ++ g ++ dq) = Some (length a)).
    { rewrite E at 1.
      replace (a ++ P ++ g ++ dq ++ t) with (a ++ (P ++ g ++ dq) ++ t)
        by (rewrite <- !app_assoc; reflexivity).
      apply index_first. intros j Hj.
      replace (a ++ (P ++ g ++ dq) ++ t) with xmlStr
        by (rewrite E at 1; rewrite <- !app_assoc; reflexivity).
      apply hasPrefix_longer, Hno, Hj. }
    rewrite Hidx.
    assert (Hfirst : firstn (length a) xmlStr = a).
    { rewrite E. rewrite firstn_app, Nat.sub_diag, firstn_O, app_nil_r.
      apply firstn_all. }
    assert (Hrest : skipn (length a + length (P ++ g ++ dq)) xmlStr = t).
    { rewrite E at 1.
      replace (a ++ P ++ g ++ dq ++ t) with ((a ++ P ++ g ++ dq) ++ t)
        by (rewrite <- !app_assoc; reflexivity).
      rewrite skipn_app, skipn_all2 by (rewrite length_app; lia).
      replace (length a + length (P ++ g ++ dq) - length (a ++ P ++ g ++ dq))%nat
        with 0%nat by (rewrite !length_app; lia).
      reflexivity. }
    rewrite Hfirst, Hrest.
    replace (a ++ (P ++ sdkGUID0 ++ dq) ++ t) with (a ++ P ++ sdkGUID0 ++ dq ++ t)
      by (rewrite <- !app_assoc; reflexivity).
    apply extractGUID_at; [| exact Hq].
    intros j Hj. pose proof (Hno j Hj) as Hnoj. rewrite E in Hnoj.
    rewrite skipn_app in Hnoj. rewrite skipn_app.
    replace (j - length a)%nat with 0%nat in * by lia.
    cbn [skipn] in *. fold P.
    rewrite (app_assoc (skipn j a) P (sdkGUID0 ++ dq ++ t)).
    rewrite (app_assoc (skipn j a) P (g ++ dq ++ t)) in Hnoj.
    rewrite (hasPrefix_front P (skipn j a ++ P) (sdkGUID0 ++ dq ++ t) (g ++ dq ++ t))
      by (rewrite length_app; lia).
    exact Hnoj.
  - intros w r n Hc Hconn Hg Hn. unfold SendRawXML.
    assert (He : ensureConnected w = (Ok tt, w)).
    { rewrite ensureConnected_spec, Hc, Hconn. reflexivity. }
    rewrite (bind_Ok _ _ w tt w He).
    unfold bind at 1. unfold getDev at 1. rewrite Hg.
    set (xmlData := withSessionGUID sdkGUID0 xmlStr) in *.
    unfold sendSdkCmdAndReceive, sendSdkCmd.
    destruct (sendAll_onConn (buildSdkCmdPackets xmlData) w r n Hc Hn) as [w1 [Hs [Hw1 _]]].
    rewrite (bind_Ok _ _ w tt w1) by (apply wrapErr_Ok; exact Hs).
    rewrite <- Hw1. apply writesNothing_readSdkResponse.
Qed.

Lemma SendRawXML_sets_session_guid_witness :
  let doc := str "<sdk guid=" ++ dq ++ str "old" ++ dq ++ str "><in method=" ++ dq ++
             str "GetDeviceInfo" ++ dq ++ str "/></sdk>" in
  extractGUID (withSessionGUID (str "abc-123") doc) = str "abc-123" /\
  withSessionGUID (str "abc-123") (str "<sdk/>") = str "<sdk/>".
Proof.
  intros doc. split.
  - apply (proj1 (proj2 (SendRawXML_sets_session_guid (H := exampleRuntime)
                           (str "abc-123") doc))).
    + vm_compute. discriminate.
    + vm_compute. intuition discriminate.
  - apply (proj1 (SendRawXML_sets_session_guid (H := exampleRuntime)
                    (str "abc-123") (str "<sdk/>"))).
    reflexivity.
Defined.

(** ** Colours and file types *)

Lemma clamp_range v : 0 <= clamp v <= 255.
Proof.
  unfold clamp. destruct (Z.ltb_spec v 0); [lia |].
  destruct (Z.ltb_spec 255 v); lia.
Qed.

Lemma hexDigit_lower d : 0 <= d < 16 -> isLowerHexDigit (hexDigit d) = true.
Proof.
  intros Hd. unfold hexDigit, isLowerHexDigit.
  destruct (Z.ltb_spec d 10).
  - replace (48 <=? 48 + d) with true by (symmetry; apply Z.leb_le; lia).
    replace (48 + d <=? 57) with true by (symmetry; apply Z.leb_le; lia).
    reflexivity.
  - replace (97 <=? 87 + d) with true by (symmetry; apply Z.leb_le; lia).
    replace (87 + d <=? 102) with true by (symmetry; apply Z.leb_le; lia).
    apply orb_true_r.
Qed.

Lemma sprintf02x_byte v :
  0 <= v <= 255 ->
  sprintf02x v = [hexDigit (v / 16); hexDigit (v mod 16)].
Proof.
  intros Hv. unfold sprintf02x. cbn [hexLoop].
  destruct (Z.eqb_spec (v / 16) 0) as [E | Hne].
  - cbn [length Nat.ltb Nat.leb]. rewrite E. reflexivity.
  - assert (E2 : v / 16 / 16 = 0).
    { rewrite Z.div_div by lia. apply Z.div_small. lia. }
    rewrite E2. cbn [Z.eqb length Nat.ltb Nat.leb].
    rewrite Z.mod_small; [reflexivity |].
    split; [apply Z.div_pos; lia | apply Z.div_lt_upper_bound; lia].
Qed.

(** X27. [RGB] always returns seven bytes, a number sign and six lower
    case hexadecimal digits, whatever integers it is given: components
    below 0 count as 0 and above 255 as 255. The colour constants of the
    package are the values [RGB] gives for their components. *)
Theorem RGB_is_a_colour (r g b : Z) :
  length (RGB r g b) = 7%nat /\
  hd 0 (RGB r g b) = 35 /\
  forallb isLowerHexDigit (tl (RGB r g b)) = true /\
  RGB r g b = RGB (clamp r) (clamp g) (clamp b) /\
  RGB 255 0 0 = ColorRed /\ RGB 0 255 0 = ColorGreen /\ RGB 0 0 255 = ColorBlue /\
  RGB 255 255 255 = ColorWhite /\ RGB 255 255 0 = ColorYellow /\
  RGB 0 255 255 = ColorCyan /\ RGB 255 0 255 = ColorMagenta /\
  RGB 255 128 0 = ColorOrange /\
  RGB 300 (-5) 0 = ColorRed.
Proof.
  pose proof (clamp_range r) as Hr. pose proof (clamp_range g) as Hg.
  pose proof (clamp_range b) as Hb.
  assert (Hdig : forall v, 0 <= v <= 255 ->
                           isLowerHexDigit (hexDigit (v / 16)) = true /\
                           isLowerHexDigit (hexDigit (v mod 16)) = true).
  { intros v Hv. split; apply hexDigit_lower.
    - split; [apply Z.div_pos; lia | apply Z.div_lt_upper_bound; lia].
    - apply Z.mod_pos_bound. lia. }
  assert (Hidem : forall v, clamp (clamp v) = clamp v).
  { intros v. pose proof (clamp_range v) as Hv. unfold clamp at 1.
    destruct (Z.ltb_spec (clamp v) 0); [lia |].
    destruct (Z.ltb_spec 255 (clamp v)); [lia | reflexivity]. }
  split; [| split; [| split; [| split]]].
  - unfold RGB. rewrite !sprintf02x_byte by assumption. reflexivity.
  - reflexivity.
  - unfold RGB. rewrite !sprintf02x_byte by assumption.
    cbn [str app tl forallb map list_ascii_of_string].
    destruct (Hdig _ Hr) as [-> ->]. destruct (Hdig _ Hg) as [-> ->].
    destruct (Hdig _ Hb) as [-> ->]. reflexivity.
  - unfold RGB. rewrite !Hidem. reflexivity.
  - repeat split; reflexivity.
Qed.

(** X28. [detectFileType], whatever the path and whatever the library
    functions return for it, gives one of seven types: never
    [FileTypeAuto] (so an upload never puts -1 on the wire as a type it
    detected) and never one of the temporary types. An extension it does
    not know, or none at all, is an image; [.mp3] is a video; an XML file
    is a program unless its name is fpga.xml or config.xml. *)
Theorem detectFileType_total (filepathExt filepathBase stringsToLower : bytes -> bytes)
        (filePath : bytes) :
  let t := detectFileTypeOf filepathExt filepathBase stringsToLower filePath in
  In t [FileTypeImage; FileTypeVideo; FileTypeFont; FileTypeFirmware;
        FileTypeFPGAConfig; FileTypeSettingConfig; FileTypeProgramXML] /\
  t <> FileTypeAuto /\ t <> FileTypeTempImage /\ t <> FileTypeTempVideo /\
  (inExts (imageExts ++ videoExts ++ fontExts ++ firmwareExts ++ [str ".xml"])
          (stringsToLower (filepathExt filePath)) = false ->
   t = FileTypeImage) /\
  (stringsToLower (filepathExt filePath) = str ".mp3" -> t = FileTypeVideo) /\
  (stringsToLower (filepathExt filePath) = str ".xml" ->
   t = if bytes_eqb (stringsToLower (filepathBase filePath)) (str "fpga.xml")
       then FileTypeFPGAConfig
       else if bytes_eqb (stringsToLower (filepathBase filePath)) (str "config.xml")
            then FileTypeSettingConfig
            else FileTypeProgramXML).
Proof.
  intros t.
  assert (Hin : In t [FileTypeImage; FileTypeVideo; FileTypeFont; FileTypeFirmware;
                      FileTypeFPGAConfig; FileTypeSettingConfig; FileTypeProgramXML]).
  { unfold t, detectFileTypeOf.
    repeat match goal with
           | |- context [if ?c then _ else _] => destruct c
           end; cbn; auto 10. }
  split; [exact Hin |].
  split; [| split; [| split; [| split; [| split]]]].
  - intros E. rewrite E in Hin. cbn in Hin.
    unfold FileTypeAuto, FileTypeImage, FileTypeVideo, FileTypeFont, FileTypeFirmware,
      FileTypeFPGAConfig, FileTypeSettingConfig, FileTypeProgramXML in Hin.
    intuition discriminate.
  - intros E. rewrite E in Hin. cbn in Hin.
    unfold FileTypeTempImage, FileTypeImage, FileTypeVideo, FileTypeFont, FileTypeFirmware,
      FileTypeFPGAConfig, FileTypeSettingConfig, FileTypeProgramXML in Hin.
    intuition discriminate.
  - intros E. rewrite E in Hin. cbn in Hin.
    unfold FileTypeTempVideo, FileTypeImage, FileTypeVideo, FileTypeFont, FileTypeFirmware,
      FileTypeFPGAConfig, FileTypeSettingConfig, FileTypeProgramXML in Hin.
    intuition discriminate.
  - intros Hno. unfold t, detectFileTypeOf.
    unfold inExts in *. rewrite !existsb_app in Hno.
    repeat (apply orb_false_elim in Hno; destruct Hno as [? Hno]).
    cbn [existsb] in Hno. rewrite ?orb_false_r in Hno.
    repeat match goal with
           | H : existsb _ _ = false |- _ => rewrite H; clear H
           | H : bytes_eqb _ _ = false |- _ => rewrite H; clear H
           end.
    reflexivity.
  - intros E. unfold t, detectFileTypeOf. rewrite E. reflexivity.
  - intros E. unfold t, detectFileTypeOf. rewrite E. reflexivity.
Qed.

Lemma detectFileType_total_witness :
  detectFileTypeOf (fun _ => str ".MP3") (fun _ => str "a.MP3") (fun _ => str ".mp3")
                   (str "dir/a.MP3") = FileTypeVideo /\
  detectFileTypeOf (fun _ => []) (fun p => p) (fun s => s) (str "README") = FileTypeImage.
Proof.
  split.
  - apply (proj1 (proj2 (proj2 (proj2 (proj2 (proj2
      (detectFileType_total (fun _ => str ".MP3") (fun _ => str "a.MP3")
         (fun _ => str ".mp3") (str "dir/a.MP3")))))))).
    reflexivity.
  - apply (proj1 (proj2 (proj2 (proj2 (proj2
      (detectFileType_total (fun _ => []) (fun p => p) (fun s => s) (str "README"))))))).
    reflexivity.
Defined.

(** ** The cached descriptor and the cleaning of a response *)

Lemma ensures_GetDeviceInfo `{GoRuntime} (cached : option DeviceInfo) :
  ensures (fun w => info (dev w) = cached) GetDeviceInfo
          (fun i w' =>
             info (dev w') = Some i /\
             exists resp, IsSuccess resp = true /\ i = parseDeviceInfoXML (InnerXML resp))
          (fun w' => info (dev w') = cached).
Proof.
  unfold GetDeviceInfo.
  eapply ensures_bind with (Q1 := fun _ w => info (dev w) = cached).
  { intros w Hw. rewrite ensureConnected_spec.
    destruct (conn (dev w)); [destruct (connected (dev w)) |]; exact Hw. }
  intros _.
  eapply ensures_bind with (Q1 := fun _ w => info (dev w) = cached).
  { intros w Hw. exact Hw. }
  intros d.
  eapply ensures_bind with (Q1 := fun _ w => info (dev w) = cached).
  { intros w Hw.
    pose proof (keepsSession_sendSdkCmdAndReceive
                  (buildSdkXML (sdkGUID d) MethodGetDeviceInfo []) w) as Hs.
    destruct Hs as [_ [_ [_ [Hi _]]]].
    destruct (sendSdkCmdAndReceive (buildSdkXML (sdkGUID d) MethodGetDeviceInfo []) w)
      as [[resp | e |] w1]; cbn [snd] in Hi; congruence. }
  intros resp.
  destruct (IsSuccess resp) eqn:Hok; cbn [negb].
  - intros w Hw. unfold bind, modifyDev, ret. cbn.
    split; [reflexivity |]. exists resp. split; [exact Hok | reflexivity].
  - intros w Hw. exact Hw.
Qed.

(** X29. [GetDeviceInfo] replaces the cached descriptor only when it
    succeeds: after a successful call the cache holds the descriptor that
    was returned, which was parsed from the content of a response whose
    result is kSuccess; after a failed call (not connected, a socket
    error, a malformed or refused response) or a panic the cache is what it
    was before. *)
Theorem GetDeviceInfo_updates_cache_on_success `{GoRuntime} (w : World) :
  match GetDeviceInfo w with
  | (Ok i, w') =>
      info (dev w') = Some i /\
      exists resp, IsSuccess resp = true /\ i = parseDeviceInfoXML (InnerXML resp)
  | (_, w') => info (dev w') = info (dev w)
  end.
Proof. exact (ensures_GetDeviceInfo (info (dev w)) w eq_refl). Qed.

Lemma cleanXML_bom (s : bytes) : cleanXML ([0xEF; 0xBB; 0xBF] ++ s) = TrimSpace s.
Proof. reflexivity. Qed.

(** X30. [cleanXML] drops one byte order mark at the very start and then
    trims white space, in this order: a mark in front of the text is
    removed together with the white space around the text, but a mark
    that follows leading white space, or a second mark, stays in the
    result (the mark is no white space), so cleaning a second time can
    still change the text. *)
Theorem cleanXML_strips_one_leading_mark (s : bytes) :
  cleanXML ([0xEF; 0xBB; 0xBF] ++ s) = TrimSpace s /\
  cleanXML ([0xEF; 0xBB; 0xBF] ++ str "  <sdk/>  ") = str "<sdk/>" /\
  cleanXML (str " " ++ [0xEF; 0xBB; 0xBF] ++ str "<sdk/>")
    = [0xEF; 0xBB; 0xBF] ++ str "<sdk/>" /\
  cleanXML (cleanXML (str " " ++ [0xEF; 0xBB; 0xBF] ++ str "<sdk/>")) = str "<sdk/>" /\
  cleanXML ([0xEF; 0xBB; 0xBF] ++ [0xEF; 0xBB; 0xBF] ++ str "<sdk/>")
    = [0xEF; 0xBB; 0xBF] ++ str "<sdk/>" /\
  cleanXML ([0xC2; 0xA0] ++ str "<sdk/>" ++ [0xE3; 0x80; 0x80]) = str "<sdk/>".
Proof.
  split; [apply cleanXML_bom |]. repeat split; reflexivity.
Qed.
